(** * FileTransferClient: a model of src/filetransferclient.py

    The client speaks a small binary protocol over TCP: a 5-byte request
    header ([struct.pack('!BI', command, length)]), 4-byte big-endian
    integers for sizes and offsets, and one-byte booleans.  Files are moved in
    byte ranges, one connection and one thread per range.

    The development follows the source top-down:
    - [struct]: the [struct] formats the client uses;
    - [Planner]: the range arithmetic of the two [for i in range(chunk_count)]
      loops;
    - [Py]: exceptions, and a state-and-exception monad over a world made of
      a file system, scripted peers, sockets, open files and an event log;
    - [Client]: the methods of [FileTransferClient];
    - the theorems. *)

From Stdlib Require Import ZArith List Strings.String Strings.Ascii Strings.Byte Lia.
From stdpp Require Import base option list gmap strings pretty.
From Equations Require Import Equations.
From Equations.Prop Require Import Logic.

Local Open Scope Z_scope.

(** Python [bytes] *)
Abbreviation bytes := (list byte).

(** ** Exceptions

    Every exception the client can meet is a subclass of [Exception]; the
    argument is the text [str(e)] prints.  The texts of the exceptions that
    the library raises (struct, socket, io, os, the UTF-8 codec) are
    CPython's on Linux. *)
Inductive exn : Type :=
| ConnectionError (msg : string)
| FileExistsError (msg : string)
| FileNotFoundError (msg : string)
| IsADirectoryError (msg : string)
| NotADirectoryError (msg : string)
| OSError (msg : string)
| StructError (msg : string)
| UnicodeDecodeError (msg : string)
| UnsupportedOperation (msg : string)
| ValueError (msg : string)
| ZeroDivisionError (msg : string).

Definition str (e : exn) : string :=
  match e with
  | ConnectionError m | FileExistsError m | FileNotFoundError m
  | IsADirectoryError m | NotADirectoryError m | OSError m | StructError m
  | UnicodeDecodeError m | UnsupportedOperation m | ValueError m
  | ZeroDivisionError m => m
  end.

(** The outcome of a call: a value, or an exception on its way up. *)
Inductive result (A : Type) : Type :=
| Ok (a : A)
| Raise (e : exn).
Arguments Ok {A} a.
Arguments Raise {A} e.

(** ** The [struct] formats of the wire protocol

    ['!'] is network byte order with standard sizes and no padding:
    ['B'] one unsigned byte, ['I'] four bytes unsigned big-endian, ['?'] one
    byte, read back as [True] when it is not zero. *)
Module struct.

Definition byte_of_Z (z : Z) : byte :=
  default "000"%byte (Byte.of_N (Z.to_N (Z.land z 255))).

Definition Z_of_byte (b : byte) : Z := Z.of_N (Byte.to_N b).

Definition uint32_max : Z := 4294967295.

(** [struct.pack('!I', v)] *)
Definition pack_I (v : Z) : result bytes :=
  if bool_decide (0 <= v <= uint32_max) then
    Ok [byte_of_Z (Z.shiftr v 24); byte_of_Z (Z.shiftr v 16);
        byte_of_Z (Z.shiftr v 8); byte_of_Z v]
  else Raise (StructError "argument out of range").

(** [struct.pack('!B', v)] *)
Definition pack_B (v : Z) : result bytes :=
  if bool_decide (0 <= v <= 255) then Ok [byte_of_Z v]
  else Raise (StructError "ubyte format requires 0 <= number <= 255").

(** [struct.pack('!BI', command, data_length)]: the fields are checked and
    laid out left to right. *)
Definition pack_BI (command data_length : Z) : result bytes :=
  match pack_B command with
  | Raise e => Raise e
  | Ok c =>
      match pack_I data_length with
      | Raise e => Raise e
      | Ok l => Ok (c ++ l)
      end
  end.

Definition be32 (b3 b2 b1 b0 : byte) : Z :=
  Z.lor (Z.shiftl (Z_of_byte b3) 24)
    (Z.lor (Z.shiftl (Z_of_byte b2) 16)
       (Z.lor (Z.shiftl (Z_of_byte b1) 8) (Z_of_byte b0))).

(** [struct.unpack('!I', buf)[0]] *)
Definition unpack_I (buf : bytes) : result Z :=
  match buf with
  | [b3; b2; b1; b0] => Ok (be32 b3 b2 b1 b0)
  | _ => Raise (StructError "unpack requires a buffer of 4 bytes")
  end.

(** [struct.unpack('!?', buf)[0]] *)
Definition unpack_bool (buf : bytes) : result bool :=
  match buf with
  | [b] => Ok (negb (Z_of_byte b =? 0))
  | _ => Raise (StructError "unpack requires a buffer of 1 bytes")
  end.

(** [struct.unpack('!?I', buf)] *)
Definition unpack_boolI (buf : bytes) : result (bool * Z) :=
  match buf with
  | [f; b3; b2; b1; b0] => Ok (negb (Z_of_byte f =? 0), be32 b3 b2 b1 b0)
  | _ => Raise (StructError "unpack requires a buffer of 5 bytes")
  end.

(** [struct.unpack('!BI', buf)]: how the peer reads the request header. *)
Definition unpack_BI (buf : bytes) : result (Z * Z) :=
  match buf with
  | [c; b3; b2; b1; b0] => Ok (Z_of_byte c, be32 b3 b2 b1 b0)
  | _ => Raise (StructError "unpack requires a buffer of 5 bytes")
  end.

End struct.

(** ** The chunk ranges

    Lines 107-111 of [upload_file] and 159-169 of [download_file] are the
    same arithmetic: [chunk_size = file_size // chunk_count], and for each
    [i] of [range(chunk_count)] an inclusive range of offsets. *)
Module Planner.

(** [a // b] *)
Definition floordiv (a b : Z) : result Z :=
  if bool_decide (b = 0) then
    Raise (ZeroDivisionError "integer division or modulo by zero")
  else Ok (a / b).

(** The body of the loop: [start_byte] and [end_byte] of chunk [i]. *)
Definition chunk_range (file_size chunk_count chunk_size i : Z) : Z * Z :=
  let start_byte := i * chunk_size in
  let end_byte :=
    if bool_decide (i = chunk_count - 1) then file_size - 1
    else start_byte + chunk_size - 1 in
  (start_byte, end_byte).

(** [range(n)] *)
Definition range (n : Z) : list Z := seqZ 0 n.

(** The ranges in the order the loop computes them. *)
Definition ranges (file_size chunk_count : Z) : list (Z * Z) :=
  let chunk_size := file_size / chunk_count in
  chunk_range file_size chunk_count chunk_size <$> range chunk_count.

(** The offsets an inclusive range holds. *)
Definition covers (r : Z * Z) (x : Z) : Prop := r.1 <= x <= r.2.

End Planner.

(** ** The world the client runs in *)
Module Py.

(** *** Files

    The file system maps a path, as the string the program passes, to a
    directory or to the bytes of a regular file. *)
Inductive node : Type :=
| Dir
| File (content : bytes).

Inductive mode : Type :=
| RB      (* 'rb'  *)
| RplusB  (* 'r+b' *)
| WB.     (* 'wb'  *)

(** A file object: what it was opened on and how, and its position. *)
Record fobj : Type := Fobj { fpath : string; fmode : mode; fpos : nat }.

(** *** Peers and sockets

    What the server does on one connection is scripted in advance.
    [refuses]: [connect] raises this.  [outcomes]: the fate of the
    successive [sendall] calls, [Some e] for one that raises [e]; calls past
    the end of the list go through.  [inbox]: what the successive [recv]
    calls find; a [Data b p] holds the bytes [b :: p] (never none), a
    [Fault e] makes [recv] raise [e] (a timeout, a reset), and an exhausted
    inbox is a stream the peer has closed. *)
Inductive delivery : Type :=
| Data (b : byte) (p : bytes)
| Fault (e : exn).

Record peer : Type := Peer {
  refuses : option exn;
  outcomes : list (option exn);
  inbox : list delivery
}.

Record sock : Type := Sock {
  connected : bool;
  pending : list (option exn);
  stream : list delivery
}.

(** *** What an observer sees, in order *)
Inductive event : Type :=
| EConnect (fd : nat)
| ESend (fd : nat) (data : bytes)
| ERecv (fd : nat) (bufsize : Z)
| EClose (fd : nat)
| EOpen (path : string) (m : mode)
| ESeek (f : nat) (offset : Z)
| ERead (f : nat) (size : Z)
| EWrite (f : nat) (data : bytes)
| EPrint (line : string)
| ESignal (name : string) (chunk : Z)
| EThreadStart.

(** [peers] are the scripts of the connections still to come, in the order
    the connections are made; [socks] and [files] are the sockets and file
    objects created so far, a descriptor being an index; [log] holds the
    events, the latest first. *)
Record world : Type := World {
  fs : gmap string node;
  peers : list peer;
  socks : list sock;
  files : list fobj;
  log : list event
}.

Definition set_fs (f : gmap string node -> gmap string node) (w : world) :=
  World (f (fs w)) (peers w) (socks w) (files w) (log w).
Definition set_peers (f : list peer -> list peer) (w : world) :=
  World (fs w) (f (peers w)) (socks w) (files w) (log w).
Definition set_socks (f : list sock -> list sock) (w : world) :=
  World (fs w) (peers w) (f (socks w)) (files w) (log w).
Definition set_files (f : list fobj -> list fobj) (w : world) :=
  World (fs w) (peers w) (socks w) (f (files w)) (log w).
Definition emit (e : event) (w : world) :=
  World (fs w) (peers w) (socks w) (files w) (e :: log w).

(** The events in the order they happened. *)
Definition history (w : world) : list event := rev (log w).

(** *** The monad: a world in, a value or an exception and a world out *)
Definition M (A : Type) : Type := world -> result A * world.

Definition ret {A} (a : A) : M A := fun w => (Ok a, w).

Definition raise {A} (e : exn) : M A := fun w => (Raise e, w).

Definition bind {A B} (m : M A) (k : A -> M B) : M B :=
  fun w =>
    match m w with
    | (Ok a, w') => k a w'
    | (Raise e, w') => (Raise e, w')
    end.

(** A pure computation that may raise. *)
Definition lift {A} (r : result A) : M A := fun w => (r, w).

(** [try: m  except Exception as e: h e] *)
Definition try_except {A} (m : M A) (h : exn -> M A) : M A :=
  fun w =>
    match m w with
    | (Ok a, w') => (Ok a, w')
    | (Raise e, w') => h e w'
    end.

(** [m], then [exit] on the way out whether [m] returned or raised: what
    leaving a [with] block does. *)
Definition finally {A} (m : M A) (exit : M unit) : M A :=
  fun w =>
    match m w with
    | (r, w') =>
        match exit w' with
        | (Ok _, w'') => (r, w'')
        | (Raise e, w'') => (Raise e, w'')
        end
    end.

Definition tell (e : event) : M unit := fun w => (Ok tt, emit e w).

(** stdpp's [x ← m; k] and [m;; k] are this monad's sequencing. *)
#[global] Instance M_ret : MRet M := @ret.
#[global] Instance M_bind : MBind M := fun A B k m => bind m k.

(** [for x in xs: body x] *)
Fixpoint for_each {A} (xs : list A) (body : A -> M unit) : M unit :=
  match xs with
  | [] => ret tt
  | x :: xs' => body x;; for_each xs' body
  end.

(** *** Text

    A [str] is a Rocq string read as the sequence of its code points, one
    character for each, so the strings here are the [str] values over the
    code points U+0000 to U+00FF (ASCII and Latin-1): ["e"] with an acute
    accent is the one character 233.  [len(s)] is the number of code points
    and [s.encode()] is UTF-8, so the two differ as soon as a character is
    not ASCII. *)
Definition code (c : ascii) : Z := Z.of_nat (nat_of_ascii c).

Definition strlen (s : string) : Z := Z.of_nat (String.length s).
Definition len (b : bytes) : Z := Z.of_nat (length b).

(** One code point below 256 in UTF-8: itself below 128, else two bytes,
    [110xxxxx 10xxxxxx]. *)
Definition encode_char (c : ascii) : bytes :=
  if bool_decide (code c < 128) then [struct.byte_of_Z (code c)]
  else [struct.byte_of_Z (Z.lor 192 (Z.shiftr (code c) 6));
        struct.byte_of_Z (Z.lor 128 (Z.land (code c) 63))].

(** [str.encode()] *)
Fixpoint encode (s : string) : bytes :=
  match s with
  | EmptyString => []
  | String c rest => encode_char c ++ encode rest
  end.

(** [repr(s)] for a [str]: quoted with ['], or with the double quote when
    [s] holds a ['] and no double quote; the quote in use and the backslash
    are escaped, so are tab, newline and carriage return, and what is not
    printable is written [\xNN].  Below 256 the printable code points are
    32 to 126 and 161 to 255 but 173. *)
Definition quote : ascii := "039"%char.
Definition double_quote : ascii := "034"%char.
Definition backslash : ascii := "092"%char.

Definition printable (c : ascii) : bool :=
  bool_decide (32 <= code c <= 126) ||
  bool_decide (161 <= code c) && negb (bool_decide (code c = 173)).

Definition hex_digit (n : Z) : ascii :=
  nth (Z.to_nat n) (list_ascii_of_string "0123456789abcdef") "0"%char.

Definition hex2 (n : Z) : string :=
  String (hex_digit (n / 16)) (String (hex_digit (n mod 16)) EmptyString).

Definition escape (q c : ascii) : string :=
  if Ascii.eqb c q || Ascii.eqb c backslash then
    String backslash (String c EmptyString)
  else if bool_decide (code c = 9) then String backslash "t"
  else if bool_decide (code c = 10) then String backslash "n"
  else if bool_decide (code c = 13) then String backslash "r"
  else if printable c then String c EmptyString
  else String backslash ("x" +:+ hex2 (code c)).

Fixpoint holds (q : ascii) (s : string) : bool :=
  match s with
  | EmptyString => false
  | String c rest => Ascii.eqb c q || holds q rest
  end.

Fixpoint escaped (q : ascii) (s : string) : string :=
  match s with
  | EmptyString => EmptyString
  | String c rest => escape q c +:+ escaped q rest
  end.

Definition repr (s : string) : string :=
  let q :=
    if holds quote s && negb (holds double_quote s) then double_quote
    else quote in
  String q (escaped q s +:+ String q EmptyString).

(** [bytes.decode()]: strict UTF-8.  The text decoded can hold any code
    point, so it is kept as the list of its code points.  The well-formed
    sequences are
    [00..7F], [C2..DF 80..BF], [E0 A0..BF 80..BF], [E1..EC 80..BF 80..BF],
    [ED 80..9F 80..BF], [EE..EF 80..BF 80..BF], [F0 90..BF 80..BF 80..BF],
    [F1..F3 80..BF 80..BF 80..BF] and [F4 80..8F 80..BF 80..BF];
    at the first byte that starts none, [decode] raises [UnicodeDecodeError]
    with the positions and the reason CPython gives. *)
Definition text : Type := list Z.

Definition continues (b : byte) : bool :=
  bool_decide (128 <= struct.Z_of_byte b < 192).

Definition low6 (b : byte) : Z := Z.land (struct.Z_of_byte b) 63.

(** [str(e)] of the [UnicodeDecodeError] for the bytes from [first] up to
    [stop], left out, the byte at [first] being [b]. *)
Definition cannot_decode (b : byte) (first stop : nat) (reason : string)
  : exn :=
  UnicodeDecodeError
    (if bool_decide (stop = S first) then
       "'utf-8' codec can't decode byte 0x" +:+ hex2 (struct.Z_of_byte b) +:+
       " in position " +:+ pretty first +:+ ": " +:+ reason
     else
       "'utf-8' codec can't decode bytes in position " +:+ pretty first +:+
       "-" +:+ pretty (stop - 1)%nat +:+ ": " +:+ reason).

Definition prepend (cp : Z) (r : result text) : result text :=
  match r with
  | Ok t => Ok (cp :: t)
  | Raise e => Raise e
  end.

Fixpoint decode_from (pos : nat) (data : bytes) : result text :=
  match data with
  | [] => Ok []
  | b :: rest =>
      let c := struct.Z_of_byte b in
      let bad (stop : nat) (reason : string) : result text :=
        Raise (cannot_decode b pos stop reason) in
      let cut (stop : nat) := bad stop "unexpected end of data" in
      let stray (stop : nat) := bad stop "invalid continuation byte" in
      if bool_decide (c < 128) then prepend c (decode_from (pos + 1) rest)
      else if bool_decide (c < 194) then bad (pos + 1)%nat "invalid start byte"
      else if bool_decide (c < 224) then
        match rest with
        | [] => cut (pos + 1)%nat
        | b2 :: rest2 =>
            if continues b2 then
              prepend (Z.lor (Z.shiftl (Z.land c 31) 6) (low6 b2))
                (decode_from (pos + 2) rest2)
            else stray (pos + 1)%nat
        end
      else if bool_decide (c < 240) then
        match rest with
        | [] => cut (pos + 1)%nat
        | b2 :: rest2 =>
            let c2 := struct.Z_of_byte b2 in
            if negb (continues b2) ||
               (if bool_decide (c2 < 160) then bool_decide (c = 224)
                else bool_decide (c = 237))
            then stray (pos + 1)%nat
            else
              match rest2 with
              | [] => cut (pos + 2)%nat
              | b3 :: rest3 =>
                  if continues b3 then
                    prepend
                      (Z.lor (Z.shiftl (Z.land c 15) 12)
                         (Z.lor (Z.shiftl (low6 b2) 6) (low6 b3)))
                      (decode_from (pos + 3) rest3)
                  else stray (pos + 2)%nat
              end
        end
      else if bool_decide (c < 245) then
        match rest with
        | [] => cut (pos + 1)%nat
        | b2 :: rest2 =>
            let c2 := struct.Z_of_byte b2 in
            if negb (continues b2) ||
               (if bool_decide (c2 < 144) then bool_decide (c = 240)
                else bool_decide (c = 244))
            then stray (pos + 1)%nat
            else
              match rest2 with
              | [] => cut (pos + 2)%nat
              | b3 :: rest3 =>
                  if negb (continues b3) then stray (pos + 2)%nat
                  else
                    match rest3 with
                    | [] => cut (pos + 3)%nat
                    | b4 :: rest4 =>
                        if continues b4 then
                          prepend
                            (Z.lor (Z.shiftl (Z.land c 7) 18)
                               (Z.lor (Z.shiftl (low6 b2) 12)
                                  (Z.lor (Z.shiftl (low6 b3) 6) (low6 b4))))
                            (decode_from (pos + 4) rest4)
                        else stray (pos + 3)%nat
                    end
              end
        end
      else bad (pos + 1)%nat "invalid start byte"
  end.

Definition decode (data : bytes) : result text := decode_from 0 data.

(** *** [os.path] (POSIX) *)
Definition is_slash (c : ascii) : bool := Ascii.eqb c "/"%char.

Fixpoint has_slash (p : string) : bool :=
  match p with
  | EmptyString => false
  | String c rest => is_slash c || has_slash rest
  end.

(** [p[p.rfind('/') + 1:]] *)
Fixpoint basename (p : string) : string :=
  match p with
  | EmptyString => EmptyString
  | String c rest =>
      if has_slash rest then basename rest
      else if is_slash c then rest else p
  end.

(** [p[:p.rfind('/') + 1]] *)
Fixpoint head (p : string) : string :=
  match p with
  | EmptyString => EmptyString
  | String c rest =>
      if has_slash rest then String c (head rest)
      else if is_slash c then String c EmptyString else EmptyString
  end.

Fixpoint all_slashes (p : string) : bool :=
  match p with
  | EmptyString => true
  | String c rest => is_slash c && all_slashes rest
  end.

(** [p.rstrip('/')] *)
Fixpoint rstrip (p : string) : string :=
  match p with
  | EmptyString => EmptyString
  | String c rest =>
      let r := rstrip rest in
      if is_slash c && String.eqb r EmptyString then EmptyString
      else String c r
  end.

Definition dirname (p : string) : string :=
  let h := head p in
  if all_slashes h then h else rstrip h.

Fixpoint ends_with_slash (p : string) : bool :=
  match p with
  | EmptyString => false
  | String c EmptyString => is_slash c
  | String _ rest => ends_with_slash rest
  end.

(** [os.path.join(a, b)] *)
Definition join (a b : string) : string :=
  match b with
  | String c _ =>
      if is_slash c then b
      else if String.eqb a EmptyString || ends_with_slash a then a +:+ b
      else a +:+ "/" +:+ b
  | EmptyString =>
      if String.eqb a EmptyString || ends_with_slash a then a
      else a +:+ "/"
  end.

(** The [OSError]s of [open] and [os.path.getsize]: [str(e)] ends with the
    file name, as [repr] writes it. *)
Definition no_such_file (path : string) : exn :=
  FileNotFoundError
    ("[Errno 2] No such file or directory: " +:+ repr path).
Definition is_a_directory (path : string) : exn :=
  IsADirectoryError ("[Errno 21] Is a directory: " +:+ repr path).
Definition not_a_directory (path : string) : exn :=
  NotADirectoryError ("[Errno 20] Not a directory: " +:+ repr path).

(** What the system says of a path that is not there: that what should be
    its directory is a regular file, or that there is no such file. *)
Definition missing (t : gmap string node) (path : string) : exn :=
  if String.eqb (dirname path) EmptyString then no_such_file path
  else
    match t !! dirname path with
    | Some (File _) => not_a_directory path
    | _ => no_such_file path
    end.

Definition exists_ (p : string) : M bool :=
  fun w => (Ok (bool_decide (is_Some (fs w !! p))), w).

Definition getsize (p : string) : M Z :=
  fun w =>
    match fs w !! p with
    | Some (File c) => (Ok (Z.of_nat (length c)), w)
    | Some Dir => (Ok 4096, w)
    | None => (Raise (missing (fs w) p), w)
    end.

(** *** Sockets *)

(** [socket.socket(AF_INET, SOCK_STREAM)] *)
Definition socket : M nat :=
  fun w => (Ok (length (socks w)),
            set_socks (fun l => l ++ [Sock false [] []]) w).

(** [sock.connect(self.address)]: the next scripted peer answers; with no
    peer left nobody listens. *)
Definition connect (fd : nat) : M unit :=
  fun w =>
    let w1 := emit (EConnect fd) w in
    match peers w with
    | [] => (Raise (OSError "[Errno 111] Connection refused"), w1)
    | p :: ps =>
        let w2 := set_peers (fun _ => ps) w1 in
        match refuses p with
        | Some e => (Raise e, w2)
        | None =>
            (Ok tt,
             set_socks (fun l => <[fd := Sock true (outcomes p) (inbox p)]> l)
               w2)
        end
    end.

Definition not_connected : exn :=
  OSError "[Errno 107] Transport endpoint is not connected".

(** [sock.sendall(data)] *)
Definition sendall (fd : nat) (data : bytes) : M unit :=
  fun w =>
    match socks w !! fd with
    | Some (Sock true pend str) =>
        match pend with
        | Some e :: pend' =>
            (Raise e, set_socks (fun l => <[fd := Sock true pend' str]> l) w)
        | None :: pend' =>
            (Ok tt,
             emit (ESend fd data)
               (set_socks (fun l => <[fd := Sock true pend' str]> l) w))
        | [] => (Ok tt, emit (ESend fd data) w)
        end
    | _ => (Raise not_connected, w)
    end.

(** [sock.recv(bufsize)]: at most [bufsize] bytes of what has arrived;
    [b''] once the peer has closed. *)
Definition recv (fd : nat) (bufsize : Z) : M bytes :=
  fun w =>
    if bool_decide (bufsize < 0) then
      (Raise (ValueError "negative buffersize in recv"), w)
    else
      match socks w !! fd with
      | Some (Sock true pend str) =>
          let w1 := emit (ERecv fd bufsize) w in
          let put str' :=
            set_socks (fun l => <[fd := Sock true pend str']> l) w1 in
          match str with
          | [] => (Ok [], w1)
          | Fault e :: str' => (Raise e, put str')
          | Data b p :: str' =>
              let n := Z.to_nat bufsize in
              match drop n (b :: p) with
              | [] => (Ok (b :: p), put str')
              | b' :: p' => (Ok (take n (b :: p)), put (Data b' p' :: str'))
              end
          end
      | _ => (Raise not_connected, w)
      end.

(** Leaving [with socket.socket(...) as sock] *)
Definition close (fd : nat) : M unit :=
  fun w =>
    (Ok tt,
     emit (EClose fd)
       (set_socks (fun l => alter (fun s => Sock false (pending s) (stream s)) fd l) w)).

Definition with_socket {A} (body : nat -> M A) : M A :=
  sock ← socket; finally (body sock) (close sock).

(** *** File objects *)

(** [open(path, mode)]: ['wb'] creates the file or empties it, the two other
    modes need it to be there. *)
Definition open (path : string) (m : mode) : M nat :=
  fun w =>
    let w1 := emit (EOpen path m) w in
    let opened w' :=
      (Ok (length (files w)),
       set_files (fun l => l ++ [Fobj path m 0]) w') in
    let fresh := set_fs (fun t => <[path := File []]> t) w1 in
    match fs w !! path, m with
    | Some Dir, _ => (Raise (is_a_directory path), w1)
    | Some (File _), WB => opened fresh
    | Some (File _), _ => opened w1
    | None, WB =>
        let d := dirname path in
        if String.eqb d EmptyString then opened fresh
        else
          match fs w !! d with
          | Some Dir => opened fresh
          | Some (File _) => (Raise (not_a_directory path), w1)
          | None => (Raise (no_such_file path), w1)
          end
    | None, _ => (Raise (missing (fs w) path), w1)
    end.

Definition closed_file : exn := ValueError "I/O operation on closed file".

(** [file.seek(offset)] *)
Definition seek (h : nat) (offset : Z) : M Z :=
  fun w =>
    let w1 := emit (ESeek h offset) w in
    match files w !! h with
    | Some (Fobj path m _) =>
        if bool_decide (offset < 0) then
          (Raise (OSError "[Errno 22] Invalid argument"), w1)
        else
          (Ok offset,
           set_files (fun l => <[h := Fobj path m (Z.to_nat offset)]> l) w1)
    | None => (Raise closed_file, w1)
    end.

(** [file.read(size)]: up to [size] bytes from the position, all the rest
    when [size] is negative. *)
Definition read (h : nat) (size : Z) : M bytes :=
  fun w =>
    let w1 := emit (ERead h size) w in
    match files w !! h with
    | Some (Fobj path WB _) => (Raise (UnsupportedOperation "read"), w1)
    | Some (Fobj path m pos) =>
        match fs w !! path with
        | Some (File c) =>
            let rest := drop pos c in
            let data :=
              if bool_decide (size < 0) then rest
              else take (Z.to_nat size) rest in
            (Ok data,
             set_files
               (fun l => <[h := Fobj path m (pos + length data)%nat]> l) w1)
        | _ => (Raise (no_such_file path), w1)
        end
    | None => (Raise closed_file, w1)
    end.

(** The content after [data] is written at [pos]; a gap past the old end is
    filled with zero bytes. *)
Definition write_at (c : bytes) (pos : nat) (data : bytes) : bytes :=
  take pos (c ++ replicate (pos - length c) "000"%byte) ++ data ++
  drop (pos + length data) c.

(** [file.write(data)] *)
Definition write (h : nat) (data : bytes) : M Z :=
  fun w =>
    let w1 := emit (EWrite h data) w in
    match files w !! h with
    | Some (Fobj path RB _) => (Raise (UnsupportedOperation "write"), w1)
    | Some (Fobj path m pos) =>
        match fs w !! path with
        | Some (File c) =>
            (Ok (len data),
             set_files
               (fun l => <[h := Fobj path m (pos + length data)%nat]> l)
               (set_fs (fun t => <[path := File (write_at c pos data)]> t) w1))
        | _ => (Raise (no_such_file path), w1)
        end
    | None => (Raise closed_file, w1)
    end.

(** Leaving [with open(...) as file] *)
Definition close_file (h : nat) : M unit := ret tt.

Definition with_open {A} (path : string) (m : mode) (body : nat -> M A)
  : M A :=
  file ← open path m; finally (body file) (close_file file).

(** *** Output, signals, threads *)
Definition print (line : string) : M unit := tell (EPrint line).

(** [signal.send(self, chunk = n)]: the receivers are the caller's and are
    taken to return. *)
Definition send (name : string) (chunk : Z) : M unit :=
  tell (ESignal name chunk).

(** [threading.Thread(target = ..., args = ...)] then [thread.start()]:
    the target runs to its end before the starter goes on, which is one of
    the schedules the threads can follow.  Whatever the target raises ends
    that thread and nothing else.  What the theorems say through a worker
    is either which workers are started and on what arguments, or a
    property that every step of every worker keeps; they say nothing of the
    order in which the workers make their connections, print or end. *)
Definition start_thread (target : M unit) : M unit :=
  fun w =>
    match target (emit EThreadStart w) with
    | (_, w') => (Ok tt, w')
    end.

(** [thread.join()] for every thread: under the schedule above all have
    ended. *)
Definition join_all : M unit := ret tt.

(** An f-string field for an integer. *)
Definition fmt (z : Z) : string := pretty z.

(** *** Reading a script

    The bytes a stream hands over before the peer closes it, and whether
    it does so without a fault on the way. *)
Fixpoint payload (str : list delivery) : bytes :=
  match str with
  | [] => []
  | Data b p :: str' => b :: p ++ payload str'
  | Fault _ :: _ => []
  end.

Fixpoint faultless (str : list delivery) : bool :=
  match str with
  | [] => true
  | Data _ _ :: str' => faultless str'
  | Fault _ :: _ => false
  end.

(** What is left of a stream headed by the piece [b :: p] once [recv] has
    taken [k] bytes of it. *)
Definition rest_after (k : nat) (b : byte) (p : bytes) (str : list delivery)
  : list delivery :=
  match drop k (b :: p) with
  | [] => str
  | b' :: p' => Data b' p' :: str
  end.

(** [open(path, 'wb')] goes through: the path is a regular file, or is free
    in a directory that is there. *)
Definition writable (t : gmap string node) (path : string) : bool :=
  match t !! path with
  | Some (File _) => true
  | Some Dir => false
  | None =>
      String.eqb (dirname path) EmptyString ||
      match t !! dirname path with
      | Some Dir => true
      | _ => false
      end
  end.

(** The next [sendall] goes through. *)
Definition through (pend : list (option exn)) : bool :=
  match pend with
  | Some _ :: _ => false
  | _ => true
  end.

(** The next [k] calls of [sendall] go through. *)
Fixpoint all_through (k : nat) (pend : list (option exn)) : bool :=
  match k with
  | O => true
  | S k' => through pend && all_through k' (tail pend)
  end.

(** *** What a computation leaves behind

    [quiet w w']: from [w] to [w'] only the network was used: the file
    system and the file objects are as they were, and the new events are
    socket events, so nothing was opened, read, written, printed or
    signalled. *)
Definition net_event (e : event) : bool :=
  match e with
  | EConnect _ | ESend _ _ | ERecv _ _ | EClose _ => true
  | _ => false
  end.

Definition quiet (w w' : world) : Prop :=
  fs w' = fs w /\ files w' = files w /\
  exists evs, log w' = evs ++ log w /\ forallb net_event evs = true.

Definition net_only {A} (m : M A) : Prop :=
  forall w r w', m w = (r, w') -> quiet w w'.

(** [m] raises whatever the world. *)
Definition fails {A} (m : M A) : Prop :=
  forall w, exists e w', m w = (Raise e, w').

(** *** Invariants of a computation

    [respects R m]: every run of [m] takes a world to one that [R] relates
    to it. *)
Definition respects (R : world -> world -> Prop) {A} (m : M A) : Prop :=
  forall w r w', m w = (r, w') -> R w w'.

(** The file system is as it was. *)
Definition same_fs (w w' : world) : Prop := fs w' = fs w.

(** The file system is as it was, the entry of [path] perhaps apart. *)
Definition same_fs_but (path : string) (w w' : world) : Prop :=
  forall q, q <> path -> fs w' !! q = fs w !! q.

(** The sockets and the peers still to come are as they were. *)
Definition same_net (w w' : world) : Prop :=
  socks w' = socks w /\ peers w' = peers w.

(** The socket [j] of [w] is connected. *)
Definition live (w : world) (j : nat) : Prop :=
  exists s, socks w !! j = Some s /\ connected s = true.

(** No socket is forgotten, and a socket that is connected in [w'] was
    connected in [w], the socket [fd] perhaps apart. *)
Definition no_new_live (fd : option nat) (w w' : world) : Prop :=
  (length (socks w) <= length (socks w'))%nat /\
  forall j, live w' j -> Some j = fd \/ live w j.

(** What [file.seek(start); file.read(end - start + 1)] finds in a file
    that holds [c], for a range [(start, end)] with [0 <= start <= end + 1]. *)
Definition slice (c : bytes) (r : Z * Z) : bytes :=
  take (Z.to_nat (r.2 - r.1 + 1)) (drop (Z.to_nat r.1) c).

(** *** Reading a history *)

(** The signals sent among the events [h], in order. *)
Definition signalled (h : list event) : list (string * Z) :=
  omap (fun e =>
          match e with
          | ESignal name chunk => Some (name, chunk)
          | _ => None
          end) h.

(** Nothing happened from [w] to [w'] but calls of [recv]: the files, the
    file objects and the peers still to come are as they were, there are as
    many sockets, and the new events are calls of [recv]. *)
Definition is_recv (e : event) : bool :=
  match e with
  | ERecv _ _ => true
  | _ => false
  end.

Definition received (w w' : world) : Prop :=
  fs w' = fs w /\ files w' = files w /\ peers w' = peers w /\
  length (socks w') = length (socks w) /\
  exists evs, log w' = evs ++ log w /\ forallb is_recv evs = true.

End Py.

(** ** The command codes

    [import commands]: the module is shared with the server and gives each
    operation its code.  The client is a function of the seven codes. *)
Record commands : Type := Commands {
  PING : Z;
  LIST : Z;
  REQUEST_UPLOAD : Z;
  UPLOAD_CHUNK : Z;
  REQUEST_DOWNLOAD : Z;
  DOWNLOAD_CHUNK : Z;
  DELETE : Z
}.

(** Modelled from the spec: the module [commands] itself, which is not among
    the sources; section 6 gives "PING=0, LIST=1, etc." for the enumeration
    of section 3, taken here in the order section 3 lists it. *)
Definition spec_commands : commands := Commands 0 1 2 3 4 5 6.

(** ** class FileTransferClient *)
Module Client.
Import Py.

(** What [recv_all] raises when the peer closes too soon. *)
Definition closed_early : exn :=
  ConnectionError "Socket connection closed before receiving all data".

(** [recv_all]'s loop,
    [while len(data) < length: packet = sock.recv(length - len(data)) ...],
    entered with [data] collected so far.  Each turn either raises or makes
    [data] longer, so the missing count goes down. *)
Equations? recv_all_loop (sock : nat) (length_ : Z) (data : bytes) (w : world)
  : result bytes * world by wf (Z.to_nat (length_ - len data)) lt :=
  recv_all_loop sock length_ data w with inspect (bool_decide (len data < length_)) := {
    | exist _ false _ => (Ok data, w)
    | exist _ true Hlt with inspect (recv sock (length_ - len data) w) := {
        | exist _ (Raise e, w') _ => (Raise e, w')
        | exist _ (Ok [], w') _ => (Raise closed_early, w')
        | exist _ (Ok (b :: p), w') _ =>
            recv_all_loop sock length_ (data ++ b :: p) w' } }.
Proof.
  apply bool_decide_eq_true in Hlt. unfold len in *.
  rewrite length_app. simpl. lia.
Qed.

(** What [download_file] raises when the destination is not there. *)
Definition no_destination : exn :=
  FileNotFoundError "Destination folder does not exist".

(** What [upload_file] raises when the server has the name. *)
Definition already_there : exn :=
  FileExistsError "File has already existed on the server".

Section methods.
Variable cmd : commands.

Definition send_command (sock : nat) (command : Z) (data_length : Z)
  : M unit :=
  buf ← lift (struct.pack_BI command data_length); sendall sock buf.

Definition send_int (sock : nat) (value : Z) : M unit :=
  buf ← lift (struct.pack_I value); sendall sock buf.

Definition recv_bool (sock : nat) : M bool :=
  buf ← recv sock 1; lift (struct.unpack_bool buf).

Definition recv_int (sock : nat) : M Z :=
  buf ← recv sock 4; lift (struct.unpack_I buf).

Definition recv_all (sock : nat) (length : Z) : M bytes :=
  recv_all_loop sock length [].

Definition ping_body : M bool :=
  with_socket (fun sock =>
    connect sock;;
    send_command sock (PING cmd) 0;;
    recv_bool sock).

Definition ping : M bool :=
  try_except ping_body
    (fun e => print ("[PING ERROR] " +:+ str e);; mret false).

Definition list_files_body : M (option text) :=
  with_socket (fun sock =>
    connect sock;;
    send_command sock (LIST cmd) 0;;
    n ← recv_int sock;
    files ← recv_all sock n;
    listing ← lift (decode files);
    mret (Some listing)).

(** Returns the listing, or [None] after an error. *)
Definition list_files : M (option text) :=
  try_except list_files_body
    (fun e => print ("[FILE LISTING ERROR] " +:+ str e);; mret None).

Definition upload_chunk_body (path : string)
    (start_byte end_byte chunk_number : Z) : M unit :=
  with_socket (fun sock =>
    connect sock;;
    let file_name := encode (basename path) in
    send_command sock (UPLOAD_CHUNK cmd) (len file_name);;
    sendall sock file_name;;
    send_int sock start_byte;;
    send_int sock end_byte;;
    with_open path RB (fun file =>
      seek file start_byte;;
      data ← read file (end_byte - start_byte + 1);
      sendall sock data);;
    send "chunk_uploaded" chunk_number;;
    print ("Chunk " +:+ fmt chunk_number +:+ " uploaded from " +:+
           fmt start_byte +:+ " to " +:+ fmt end_byte)).

Definition upload_chunk (path : string)
    (start_byte end_byte chunk_number : Z) : M unit :=
  try_except
    (upload_chunk_body path start_byte end_byte chunk_number)
    (fun e => print ("[CHUNK UPLOAD ERROR] " +:+ str e)).

(** Lines 108-115 of [upload_file]: one thread per chunk, started in the
    order of the chunks. *)
Definition upload_chunks (path : string) (file_size chunk_count chunk_size : Z)
  : M unit :=
  for_each (Planner.range chunk_count) (fun i =>
    let '(start_byte, end_byte) :=
      Planner.chunk_range file_size chunk_count chunk_size i in
    start_thread (upload_chunk path start_byte end_byte i)).

Definition upload_file_body (path : string) (chunk_count : Z) : M unit :=
  with_socket (fun sock =>
    connect sock;;
    let file_name := encode (basename path) in
    send_command sock (REQUEST_UPLOAD cmd) (len file_name);;
    sendall sock file_name;;
    file_exists ← recv_bool sock;
    if file_exists : bool then raise already_there
    else
      file_size ← getsize path;
      send_int sock file_size;;
      chunk_size ← lift (Planner.floordiv file_size chunk_count);
      upload_chunks path file_size chunk_count chunk_size;;
      join_all).

Definition upload_file (path : string) (chunk_count : Z) : M unit :=
  try_except
    (upload_file_body path chunk_count)
    (fun e => print ("[FILE UPLOAD ERROR]: " +:+ str e)).

Definition download_chunk_body (file_name destination : string)
    (start_byte end_byte chunk_number : Z) : M unit :=
  with_socket (fun sock =>
    connect sock;;
    send_command sock (DOWNLOAD_CHUNK cmd) (strlen file_name);;
    sendall sock (encode file_name);;
    send_int sock start_byte;;
    send_int sock end_byte;;
    let path := join destination file_name in
    with_open path RplusB (fun file =>
      seek file start_byte;;
      data ← recv_all sock (end_byte - start_byte + 1);
      write file data);;
    send "chunk_downloaded" chunk_number;;
    print ("Chunk " +:+ fmt chunk_number +:+ " downloaded from " +:+
           fmt start_byte +:+ " to " +:+ fmt end_byte)).

Definition download_chunk (file_name destination : string)
    (start_byte end_byte chunk_number : Z) : M unit :=
  try_except
    (download_chunk_body file_name destination start_byte end_byte
       chunk_number)
    (fun e => print ("[CHUNK DOWNLOAD ERROR] " +:+ str e)).

(** Lines 162-164 of [download_file]: the destination is made, or emptied,
    and given its length by one zero byte written at its last offset. *)
Definition preallocate (path : string) (file_size : Z) : M Z :=
  with_open path WB (fun file =>
    seek file (file_size - 1);;
    write file ["000"%byte]).

(** Lines 166-173 of [download_file]. *)
Definition download_chunks (file_name destination : string)
    (file_size chunk_count chunk_size : Z) : M unit :=
  for_each (Planner.range chunk_count) (fun i =>
    let '(start_byte, end_byte) :=
      Planner.chunk_range file_size chunk_count chunk_size i in
    start_thread
      (download_chunk file_name destination start_byte end_byte i)).

(** Lines 159-176 of [download_file]: what follows a reply that the file is
    there. *)
Definition download_transfer (file_name destination : string)
    (file_size chunk_count : Z) : M unit :=
  chunk_size ← lift (Planner.floordiv file_size chunk_count);
  let path := join destination file_name in
  preallocate path file_size;;
  download_chunks file_name destination file_size chunk_count chunk_size;;
  join_all.

Definition download_file_body (file_name destination : string)
    (chunk_count : Z) : M unit :=
  found ← exists_ destination;
  if negb found then raise no_destination
  else
    with_socket (fun sock =>
      connect sock;;
      send_command sock (REQUEST_DOWNLOAD cmd) (strlen file_name);;
      sendall sock (encode file_name);;
      buf ← recv sock 5;
      '(file_exists, file_size) ← lift (struct.unpack_boolI buf);
      if negb file_exists then
        raise (FileNotFoundError "File is not on the server")
      else download_transfer file_name destination file_size chunk_count).

Definition download_file (file_name destination : string)
    (chunk_count : Z) : M unit :=
  try_except
    (download_file_body file_name destination chunk_count)
    (fun e => print ("[FILE DOWNLOAD ERROR] " +:+ str e)).

Definition delete_file_body (file_name : string) : M unit :=
  with_socket (fun sock =>
    connect sock;;
    send_command sock (DELETE cmd) (strlen file_name);;
    sendall sock (encode file_name);;
    file_exists ← recv_bool sock;
    if negb file_exists then
      raise (FileNotFoundError "File is not on the server")
    else mret tt).

Definition delete_file (file_name : string) : M unit :=
  try_except (delete_file_body file_name)
    (fun e => print ("[FILE DELETION ERROR] " +:+ str e)).

End methods.

End Client.

(** ** Worlds to run the client in *)
Module Scenario.
Import Py.

Definition bs (l : list Z) : bytes := struct.byte_of_Z <$> l.

(** A peer that accepts the connection, takes whatever is sent and has
    [reply] ready in one piece before it closes. *)
Definition answering (reply : list Z) : peer :=
  match bs reply with
  | [] => Peer None [] []
  | b :: p => Peer None [] [Data b p]
  end.

Definition disk : gmap string node :=
  <["data" := Dir]> (<["data/a.txt" := File (bs [1; 2; 3])]>
  (<["dl" := Dir]> (<["dl/a.txt" := File (bs [7; 7; 7; 7])]> ∅))).

Definition start (ps : list peer) : world := World disk ps [] [] [].

(** One open socket whose peer sends the given pieces and closes. *)
Definition reading (str : list delivery) : world :=
  World disk [] [Sock true [] str] [] [].

(** Two bytes in two pieces, then closed; five bytes in three pieces. *)
Definition two_bytes : list delivery :=
  [Data "001"%byte []; Data "002"%byte []].
Definition five_bytes : list delivery :=
  [Data "001"%byte ["002"%byte]; Data "003"%byte [];
   Data "004"%byte ["005"%byte]].

(** The server says the name is taken. *)
Definition name_taken : world := start [answering [1]].

(** The server takes the three bytes of data/a.txt in four chunks. *)
Definition small_upload : world :=
  start [answering [0]; answering []; answering []; answering [];
         answering []].

(** The server has a.txt and it is empty. *)
Definition empty_download : world := start [answering [1; 0; 0; 0; 0]].

(** A peer that refuses the connection. *)
Definition refusing : peer :=
  Peer (Some (OSError "[Errno 111] Connection refused")) [] [].

(** The server has a.txt, ten bytes, and refuses every chunk connection. *)
Definition failed_download : world :=
  start [answering [1; 0; 0; 0; 10]; refusing; refusing; refusing; refusing].

(** The server has a.txt, ten bytes, and serves three chunks of the four:
    the third connection is closed after one byte. *)
Definition partial_download : world :=
  start [answering [1; 0; 0; 0; 10]; answering [11; 12]; answering [13; 14];
         answering [15]; answering [17; 18; 19; 20]].

(** The server answers a ping. *)
Definition alive : world := start [answering [1]].

(** The server says no. *)
Definition denied : world := start [answering [0]].

(** The server sends the two bytes of a chunk; it sends one and closes. *)
Definition chunk_served : world := start [answering [11; 12]].
Definition chunk_cut : world := start [answering [11]].

(** The server says the file is not there; the server says it is there, in
    two pieces. *)
Definition not_there : world := start [answering [0; 0; 0; 0; 0]].
Definition in_two_pieces : world :=
  start [Peer None []
           [Data "001"%byte ["000"%byte]; Data "000"%byte (bs [0; 10])]].

(** The server lists three bytes, sent behind their length in one piece;
    the server announces three bytes and closes after one. *)
Definition listing : world := start [answering [0; 0; 0; 3; 97; 10; 98]].
Definition short_listing : world := start [answering [0; 0; 0; 3; 97]].

(** The server lists one byte that is not UTF-8. *)
Definition bad_listing : world := start [answering [0; 0; 0; 1; 255]].

(** A name that is not ASCII: [e] with an acute accent, then [.txt]; five
    characters, six bytes in UTF-8. *)
Definition accented : string := String "233"%char ".txt".

End Scenario.

(** * Properties *)

(** ** The chunk ranges *)
Section planner_facts.
Import Planner.

Lemma ranges_length file_size chunk_count :
  0 <= chunk_count ->
  Z.of_nat (length (ranges file_size chunk_count)) = chunk_count.
Proof.
  intros Hn. unfold ranges, range.
  rewrite length_fmap, length_seqZ. lia.
Qed.

Lemma ranges_lookup file_size chunk_count (i : nat) :
  Z.of_nat i < chunk_count ->
  ranges file_size chunk_count !! i =
    Some (chunk_range file_size chunk_count (file_size / chunk_count)
            (Z.of_nat i)).
Proof.
  intros Hi. unfold ranges, range.
  rewrite list_lookup_fmap, lookup_seqZ_lt by lia.
  simpl. do 2 f_equal.
Qed.

Lemma ranges_lookup_Some file_size chunk_count (i : nat) r :
  ranges file_size chunk_count !! i = Some r ->
  Z.of_nat i < chunk_count /\
  r = chunk_range file_size chunk_count (file_size / chunk_count)
        (Z.of_nat i).
Proof.
  intros Hr. unfold ranges, range in Hr.
  rewrite list_lookup_fmap in Hr.
  destruct (seqZ 0 chunk_count !! i) as [z|] eqn:Hz; [|discriminate].
  apply lookup_seqZ in Hz as [-> Hlt]. simpl in Hr.
  injection Hr as <-. split; [lia|]. f_equal.
Qed.

(** The loops of [upload_file] and [download_file] start their workers on
    the ranges of [ranges], in that order, each with its index. *)
Lemma for_each_ranges (f : Z -> Z -> Z -> Py.M unit)
    file_size chunk_count chunk_size (xs : list Z) :
  Py.for_each xs (fun i =>
    let '(start_byte, end_byte) :=
      chunk_range file_size chunk_count chunk_size i in
    f start_byte end_byte i) =
  Py.for_each (zip (chunk_range file_size chunk_count chunk_size <$> xs) xs)
    (fun '(start_byte, end_byte, i) => f start_byte end_byte i).
Proof.
  induction xs as [|i xs IH]; [done|].
  cbn [Py.for_each fmap list_fmap zip zip_with]. by rewrite IH.
Qed.

Lemma upload_chunks_ranges cmd path file_size chunk_count :
  Client.upload_chunks cmd path file_size chunk_count
    (file_size / chunk_count) =
  Py.for_each (zip (ranges file_size chunk_count) (range chunk_count))
    (fun '(start_byte, end_byte, i) =>
       Py.start_thread (Client.upload_chunk cmd path start_byte end_byte i)).
Proof.
  unfold Client.upload_chunks, ranges.
  apply (for_each_ranges
           (fun s e i => Py.start_thread (Client.upload_chunk cmd path s e i))).
Qed.

Lemma download_chunks_ranges cmd file_name destination file_size chunk_count :
  Client.download_chunks cmd file_name destination file_size chunk_count
    (file_size / chunk_count) =
  Py.for_each (zip (ranges file_size chunk_count) (range chunk_count))
    (fun '(start_byte, end_byte, i) =>
       Py.start_thread
         (Client.download_chunk cmd file_name destination start_byte end_byte
            i)).
Proof.
  unfold Client.download_chunks, ranges.
  apply (for_each_ranges
           (fun s e i =>
              Py.start_thread
                (Client.download_chunk cmd file_name destination s e i))).
Qed.

End planner_facts.

Section planner_theorems.
Import Planner.

Lemma chunk_size_bounds file_size chunk_count :
  0 <= file_size -> 1 <= chunk_count ->
  0 <= file_size / chunk_count /\
  chunk_count * (file_size / chunk_count) <= file_size.
Proof.
  intros HS HN. split.
  - apply Z.div_pos; lia.
  - apply Z.mul_div_le. lia.
Qed.

(** A chunk before another ends before the other starts. *)
Lemma chunk_range_before file_size chunk_count (i j : Z) :
  0 <= file_size -> 0 <= i < j -> j < chunk_count ->
  (chunk_range file_size chunk_count (file_size / chunk_count) i).2 <
  (chunk_range file_size chunk_count (file_size / chunk_count) j).1.
Proof.
  intros HS Hij Hj.
  destruct (chunk_size_bounds file_size chunk_count) as [Hcs _]; [lia..|].
  unfold chunk_range. simpl.
  rewrite bool_decide_eq_false_2 by lia. nia.
Qed.

(** Every chunk lies inside the file. *)
Lemma chunk_range_inside file_size chunk_count (i : Z) :
  0 <= file_size -> 0 <= i < chunk_count ->
  let r := chunk_range file_size chunk_count (file_size / chunk_count) i in
  0 <= r.1 /\ r.2 <= file_size - 1.
Proof.
  intros HS Hi.
  destruct (chunk_size_bounds file_size chunk_count) as [Hcs Hle]; [lia..|].
  unfold chunk_range. simpl. split; [nia|].
  case_bool_decide; [lia | nia].
Qed.

End planner_theorems.

(** ** The framing codec *)
Section codec.
Import struct.

Lemma Z_of_byte_range b : 0 <= Z_of_byte b <= 255.
Proof.
  unfold Z_of_byte. pose proof (Byte.to_N_bounded b). lia.
Qed.

Lemma Z_of_byte_of_Z z : Z_of_byte (byte_of_Z z) = Z.land z 255.
Proof.
  unfold Z_of_byte, byte_of_Z.
  assert (Hr : 0 <= Z.land z 255 <= 255).
  { change (Z.land z 255) with (Z.land z (Z.ones 8)).
    rewrite Z.land_ones by lia. change (2 ^ 8) with 256.
    pose proof (Z.mod_pos_bound z 256). lia. }
  destruct (Byte.of_N (Z.to_N (Z.land z 255))) as [b|] eqn:Hb; simpl.
  - apply Byte.to_of_N in Hb. rewrite Hb. lia.
  - apply Byte.of_N_None_iff in Hb. lia.
Qed.

Lemma testbit_255 n : 0 <= n -> Z.testbit 255 n = (n <? 8).
Proof. intros Hn. change 255 with (Z.ones 8). by apply Z.testbit_ones_nonneg. Qed.

(** The four bytes [pack_I] lays out read back as the number packed. *)
Lemma be32_pack v :
  0 <= v <= uint32_max ->
  be32 (byte_of_Z (Z.shiftr v 24)) (byte_of_Z (Z.shiftr v 16))
       (byte_of_Z (Z.shiftr v 8)) (byte_of_Z v) = v.
Proof.
  intros Hv. unfold be32, uint32_max in *. rewrite !Z_of_byte_of_Z.
  apply Z.bits_inj'. intros n Hn.
  rewrite !Z.lor_spec, !Z.shiftl_spec by lia.
  assert (Hhigh : 32 <= n -> Z.testbit v n = false).
  { intros Hge. destruct (decide (v = 0)) as [->|Hnz]; [apply Z.testbit_0_l|].
    apply Z.bits_above_log2; [lia|].
    assert (Z.log2 v < 32); [|lia].
    apply Z.log2_lt_pow2; lia. }
  assert (Hbyte : forall k m,
    0 <= k ->
    Z.testbit (Z.land (Z.shiftr v k) 255) m =
    if bool_decide (0 <= m < 8) then Z.testbit v (m + k) else false).
  { intros k m Hk. case_bool_decide as Hm.
    - rewrite Z.land_spec, Z.shiftr_spec, testbit_255 by lia.
      rewrite (proj2 (Z.ltb_lt m 8)) by lia. apply andb_true_r.
    - destruct (decide (m < 0)); [by apply Z.testbit_neg_r|].
      rewrite Z.land_spec, testbit_255 by lia.
      rewrite (proj2 (Z.ltb_ge m 8)) by lia. apply andb_false_r. }
  rewrite !Hbyte by lia.
  change v with (Z.shiftr v 0) at 4. rewrite Hbyte by lia.
  repeat case_bool_decide; simpl;
    rewrite ?orb_false_r; try (f_equal; lia); try lia.
  symmetry. apply Hhigh. lia.
Qed.

Lemma unpack_I_pack_I v buf :
  pack_I v = Ok buf -> unpack_I buf = Ok v /\ length buf = 4%nat.
Proof.
  unfold pack_I. case_bool_decide as Hv; [|discriminate].
  intros [= <-]. simpl. by rewrite be32_pack.
Qed.

(** C6: for a command code that fits the header's byte and a payload length
    from [0] to [2^32 - 1], the header [send_command] sends is five bytes
    long, and reading it back as one byte and a big-endian 32-bit number
    gives the command and the length again. *)
Theorem header_roundtrip (command data_length : Z) :
  0 <= command <= 255 ->
  0 <= data_length <= 2 ^ 32 - 1 ->
  exists header,
    pack_BI command data_length = Ok header /\
    length header = 5%nat /\
    unpack_BI header = Ok (command, data_length) /\
    forall sock w,
      Client.send_command sock command data_length w =
      Py.sendall sock header w.
Proof.
  intros Hc Hl.
  assert (Hl' : 0 <= data_length <= uint32_max) by (unfold uint32_max; lia).
  exists [byte_of_Z command; byte_of_Z (Z.shiftr data_length 24);
          byte_of_Z (Z.shiftr data_length 16);
          byte_of_Z (Z.shiftr data_length 8); byte_of_Z data_length].
  unfold pack_BI, pack_B, pack_I.
  rewrite !bool_decide_eq_true_2 by done.
  split; [reflexivity|]. split; [reflexivity|]. split.
  - unfold unpack_BI. rewrite be32_pack by done. rewrite Z_of_byte_of_Z.
    do 2 f_equal. change (Z.land command 255) with (Z.land command (Z.ones 8)).
    rewrite Z.land_ones by lia. apply Z.mod_small. change (2 ^ 8) with 256. lia.
  - intros sock w. unfold Client.send_command, pack_BI, pack_B, pack_I.
    rewrite !bool_decide_eq_true_2 by done. reflexivity.
Qed.

Lemma header_roundtrip_witness :
  exists header,
    pack_BI 3 4294967295 = Ok header /\
    length header = 5%nat /\
    unpack_BI header = Ok (3, 4294967295) /\
    forall sock w,
      Client.send_command sock 3 4294967295 w =
      Py.sendall sock header w.
Proof. apply (header_roundtrip 3 4294967295); lia. Defined.

End codec.

(** ** Exact-length reads *)
Section recv_all_facts.
Import Py Client.

Lemma recv_all_loop_unfold sock n data w :
  recv_all_loop sock n data w =
  if bool_decide (len data < n) then
    match recv sock (n - len data) w with
    | (Raise e, w') => (Raise e, w')
    | (Ok [], w') => (Raise closed_early, w')
    | (Ok (b :: p), w') => recv_all_loop sock n (data ++ b :: p) w'
    end
  else (Ok data, w).
Proof.
  funelim (recv_all_loop sock n data w);
    repeat match goal with
           | H : bool_decide _ = _ |- _ => rewrite H
           | H : recv _ _ _ = _ |- _ => rewrite H
           end; reflexivity.
Qed.

(** [recv] never hands over more than it was asked for. *)
Lemma recv_at_most sock bufsize w packet w' :
  recv sock bufsize w = (Ok packet, w') -> len packet <= Z.max 0 bufsize.
Proof.
  unfold recv, len. case_bool_decide as Hneg; [discriminate|].
  destruct (socks w !! sock) as [[[] pend str]|]; try discriminate.
  destruct str as [|[b p|e] str']; try discriminate.
  - intros [= <- _]. simpl. lia.
  - destruct (drop (Z.to_nat bufsize) (b :: p)) as [|b' p'] eqn:Hdrop.
    + intros [= <- _].
      apply drop_nil_inv in Hdrop. simpl in *. lia.
    + intros [= <- _]. rewrite length_take. lia.
Qed.

Lemma recv_all_loop_length sock n data w out w' :
  len data <= n ->
  recv_all_loop sock n data w = (Ok out, w') -> len out = n.
Proof.
  funelim (recv_all_loop sock n data w); intros Hle Hrun;
    try discriminate.
  - injection Hrun as <- _.
    match goal with
    | H : bool_decide _ = false |- _ =>
        pose proof (proj1 (bool_decide_eq_false _) H)
    end. lia.
  - match goal with
    | H : bool_decide _ = true |- _ =>
        pose proof (proj1 (bool_decide_eq_true _) H)
    end.
    match goal with
    | H : recv _ _ _ = _ |- _ => pose proof (recv_at_most _ _ _ _ _ H)
    end.
    match goal with
    | IH : forall out w', _ -> _ -> len out = _ |- _ =>
        eapply IH; [|exact Hrun]
    end.
    unfold len in *. rewrite length_app. lia.
Qed.

(** On a stream without faults the loop ends in the one of two ways the
    byte count decides. *)
Lemma recv_all_loop_stream str : forall sock n data w pend,
  socks w !! sock = Some (Sock true pend str) ->
  faultless str = true ->
  len data <= n ->
  exists w',
    recv_all_loop sock n data w =
    (if bool_decide (len data + len (payload str) < n)
     then Raise closed_early
     else Ok (data ++ take (Z.to_nat (n - len data)) (payload str)), w').
Proof.
  induction str as [|[b p|e] str IH]; intros sock n data w pend Hsock Hok Hle;
    [| |discriminate].
  - rewrite recv_all_loop_unfold. simpl payload. unfold len at 2. simpl.
    rewrite Z.add_0_r. destruct (decide (len data < n)) as [Hlt|Hge].
    + rewrite !(bool_decide_eq_true_2 (len data < n)) by done.
      unfold recv. rewrite bool_decide_eq_false_2 by lia.
      rewrite Hsock. eexists. reflexivity.
    + rewrite !(bool_decide_eq_false_2 (len data < n)) by done.
      rewrite take_nil, app_nil_r. eexists. reflexivity.
  - rewrite recv_all_loop_unfold.
    destruct (decide (len data < n)) as [Hlt|Hge].
    2:{ rewrite !bool_decide_eq_false_2 by (unfold len in *; lia).
        replace (Z.to_nat (n - len data)) with 0%nat by lia.
        rewrite take_0, app_nil_r. eexists. reflexivity. }
    rewrite (bool_decide_eq_true_2 (len data < n)) by done.
    unfold recv. rewrite bool_decide_eq_false_2 by lia. rewrite Hsock.
    assert (Hfd : (sock < length (socks w))%nat)
      by (by eapply lookup_lt_Some).
    destruct (drop (Z.to_nat (n - len data)) (b :: p))
      as [|b' p'] eqn:Hdrop.
    + apply drop_nil_inv in Hdrop.
      edestruct (IH sock n (data ++ b :: p)) as [w' Hrun];
        [|exact Hok| |rewrite Hrun].
      * simpl. by apply list_lookup_insert_eq.
      * unfold len in *. rewrite length_app. lia.
      * exists w'. f_equal.
        assert (Heq : len (data ++ b :: p) + len (payload str) =
                      len data + len (payload (Data b p :: str))).
        { unfold len. simpl. rewrite !length_app. simpl. lia. }
        rewrite Heq.
        destruct (bool_decide (len data + len (payload (Data b p :: str)) < n));
          [done|].
        f_equal. rewrite <- app_assoc. f_equal.
        change (payload (Data b p :: str)) with ((b :: p) ++ payload str).
        rewrite take_app_ge by lia. do 2 f_equal.
        unfold len. rewrite length_app. lia.
    + assert (Hlong : (Z.to_nat (n - len data) < length (b :: p))%nat).
      { destruct (decide (Z.to_nat (n - len data) < length (b :: p))%nat)
          as [|Hn]; [done|].
        rewrite drop_ge in Hdrop by lia. discriminate. }
      destruct (Z.to_nat (n - len data)) as [|k] eqn:Hk; [lia|].
      rewrite firstn_cons.
      rewrite recv_all_loop_unfold.
      assert (Hfull : len (data ++ b :: take k p) = n).
      { unfold len in *. rewrite length_app. simpl in *.
        rewrite length_take. lia. }
      rewrite (bool_decide_eq_false_2 (len (data ++ b :: take k p) < n))
        by lia.
      eexists. simpl payload.
      rewrite bool_decide_eq_false_2.
      2:{ unfold len in *. simpl in *. rewrite length_app. lia. }
      do 3 f_equal.
      change (b :: p ++ payload str) with ((b :: p) ++ payload str).
      rewrite take_app_le by lia. reflexivity.
Qed.

(** C5: for [n >= 1], on a connected socket whose peer sends [k] bytes, in
    whatever pieces, and closes: with [k < n], [recv_all] raises
    [ConnectionError]; with [k >= n] it returns the first [n] bytes sent,
    so exactly [n]; and on any socket at all, what [recv_all] returns has
    [n] bytes, never fewer. *)
Theorem recv_all_exact (sock : nat) (n : Z) (w : world) :
  1 <= n ->
  (forall pend str,
     socks w !! sock = Some (Sock true pend str) ->
     faultless str = true ->
     (len (payload str) < n ->
      exists w', recv_all sock n w = (Raise closed_early, w')) /\
     (n <= len (payload str) ->
      exists data w',
        recv_all sock n w = (Ok data, w') /\
        data = take (Z.to_nat n) (payload str) /\ len data = n)) /\
  (forall data w', recv_all sock n w = (Ok data, w') -> len data = n).
Proof.
  intros Hn. split.
  - intros pend str Hsock Hok.
    destruct (recv_all_loop_stream str sock n [] w pend Hsock Hok)
      as [w' Hrun]; [unfold len; simpl; lia|].
    unfold recv_all. rewrite Hrun.
    change (len []) with 0. rewrite Z.add_0_l, Z.sub_0_r. split.
    + intros Hshort. exists w'.
      by rewrite bool_decide_eq_true_2 by done.
    + intros Hlong. eexists _, w'.
      rewrite bool_decide_eq_false_2 by lia.
      split; [reflexivity|]. split; [reflexivity|].
      unfold len in *. simpl. rewrite length_take. lia.
  - intros data w' Hrun. eapply recv_all_loop_length; [|exact Hrun].
    unfold len. simpl. lia.
Qed.

Lemma recv_all_exact_witness :
  (exists w',
     recv_all 0 3 (Scenario.reading Scenario.two_bytes) =
     (Raise closed_early, w')) /\
  (exists data w',
     recv_all 0 3 (Scenario.reading Scenario.five_bytes) = (Ok data, w') /\
     data = take 3 (payload Scenario.five_bytes) /\ len data = 3).
Proof.
  split.
  - destruct (recv_all_exact 0 3 (Scenario.reading Scenario.two_bytes))
      as [Hstream _]; [lia|].
    destruct (Hstream [] Scenario.two_bytes) as [Hshort _];
      [reflexivity..|].
    apply Hshort. vm_compute. reflexivity.
  - destruct (recv_all_exact 0 3 (Scenario.reading Scenario.five_bytes))
      as [Hstream _]; [lia|].
    destruct (Hstream [] Scenario.five_bytes) as [_ Hlong];
      [reflexivity..|].
    apply Hlong. vm_compute. discriminate.
Defined.

End recv_all_facts.

(** ** Running the monad *)
Section monad_facts.
Import Py.

Lemma bind_ok {A B} (m : M A) (k : A -> M B) w a w1 r :
  m w = (Ok a, w1) -> k a w1 = r -> (m ≫= k) w = r.
Proof.
  intros Hm Hk. unfold mbind, M_bind, bind. by rewrite Hm.
Qed.

Lemma bind_raise {A B} (m : M A) (k : A -> M B) w e w1 :
  m w = (Raise e, w1) -> (m ≫= k) w = (Raise e, w1).
Proof.
  intros Hm. unfold mbind, M_bind, bind. by rewrite Hm.
Qed.

Lemma finally_run {A} (m : M A) (exit : M unit) w r w1 w2 :
  m w = (r, w1) -> exit w1 = (Ok tt, w2) -> finally m exit w = (r, w2).
Proof.
  intros Hm Hexit. unfold finally. by rewrite Hm, Hexit.
Qed.

Lemma try_except_ok {A} (m : M A) h w a w1 :
  m w = (Ok a, w1) -> try_except m h w = (Ok a, w1).
Proof. intros Hm. unfold try_except. by rewrite Hm. Qed.

Lemma try_except_raise {A} (m : M A) h w e w1 :
  m w = (Raise e, w1) -> try_except m h w = h e w1.
Proof. intros Hm. unfold try_except. by rewrite Hm. Qed.

(** A handler that returns makes the whole [try] return. *)
Lemma try_except_returns {A} (m : M A) h :
  (forall e w, exists a w', h e w = (Ok a, w')) ->
  forall w, exists a w', try_except m h w = (Ok a, w').
Proof.
  intros Hh w. unfold try_except.
  destruct (m w) as [[a|e] w1]; [by eexists _, _ | apply Hh].
Qed.

Lemma quiet_refl w : quiet w w.
Proof. repeat split. by exists []. Qed.

Lemma quiet_trans w1 w2 w3 : quiet w1 w2 -> quiet w2 w3 -> quiet w1 w3.
Proof.
  intros (Hfs1 & Hfl1 & evs1 & Hlog1 & Hnet1) (Hfs2 & Hfl2 & evs2 & Hlog2 & Hnet2).
  split; [congruence|]. split; [congruence|].
  exists (evs2 ++ evs1). split.
  - rewrite Hlog2, Hlog1. by rewrite app_assoc.
  - rewrite forallb_app. by rewrite Hnet1, Hnet2.
Qed.

Lemma quiet_emit e w : net_event e = true -> quiet w (emit e w).
Proof.
  intros He. repeat split. exists [e]. split; [done|]. simpl. by rewrite He.
Qed.

Lemma quiet_set_socks f w : quiet w (set_socks f w).
Proof. repeat split. by exists []. Qed.

Lemma quiet_set_peers f w : quiet w (set_peers f w).
Proof. repeat split. by exists []. Qed.

Lemma net_only_lift {A} (r : result A) : net_only (lift r).
Proof. intros w r' w' [= _ <-]. apply quiet_refl. Qed.

Lemma net_only_bind {A B} (m : M A) (k : A -> M B) :
  net_only m -> (forall a, net_only (k a)) -> net_only (m ≫= k).
Proof.
  intros Hm Hk w r w'. unfold mbind, M_bind, bind.
  destruct (m w) as [[a|e] w1] eqn:Hrun.
  - intros Hrest. eapply quiet_trans; [by eapply Hm | by eapply Hk].
  - intros [= _ <-]. by eapply Hm.
Qed.

(** What follows a computation that always raises is never run. *)
Lemma net_only_bind_fails {A B} (m : M A) (k : A -> M B) :
  net_only m -> fails m -> net_only (m ≫= k).
Proof.
  intros Hm Hf w r w'. unfold mbind, M_bind, bind.
  destruct (Hf w) as (e & w1 & Hrun). rewrite Hrun.
  intros [= _ <-]. by eapply Hm.
Qed.

Lemma net_only_finally {A} (m : M A) (exit : M unit) :
  net_only m -> net_only exit -> net_only (finally m exit).
Proof.
  intros Hm Hexit w r w'. unfold finally.
  destruct (m w) as [r1 w1] eqn:Hrun.
  destruct (exit w1) as [[[]|e] w2] eqn:Hout; intros [= _ <-];
    (eapply quiet_trans; [by eapply Hm | by eapply Hexit]).
Qed.

Lemma fails_bind_l {A B} (m : M A) (k : A -> M B) :
  fails m -> fails (m ≫= k).
Proof.
  intros Hf w. destruct (Hf w) as (e & w1 & Hrun).
  exists e, w1. by apply bind_raise.
Qed.

Lemma fails_bind_r {A B} (m : M A) (k : A -> M B) :
  (forall a, fails (k a)) -> fails (m ≫= k).
Proof.
  intros Hk w. unfold mbind, M_bind, bind.
  destruct (m w) as [[a|e] w1]; [apply Hk | by eexists _, _].
Qed.

Lemma fails_finally {A} (m : M A) (exit : M unit) :
  fails m -> fails (finally m exit).
Proof.
  intros Hf w. unfold finally. destruct (Hf w) as (e & w1 & ->).
  destruct (exit w1) as [[[]|e'] w2]; by eexists _, _.
Qed.

End monad_facts.

(** ** The socket primitives *)
Section socket_facts.
Import Py.

Lemma net_only_socket : net_only socket.
Proof. intros w r w' [= _ <-]. apply quiet_set_socks. Qed.

Lemma net_only_connect fd : net_only (connect fd).
Proof.
  intros w r w'. unfold connect.
  destruct (peers w) as [|p ps]; [|destruct (refuses p)];
    intros [= _ <-];
    repeat first [ apply quiet_emit; done
                 | eapply quiet_trans; [|apply quiet_set_socks]
                 | eapply quiet_trans; [|apply quiet_set_peers] ].
Qed.

Lemma net_only_sendall fd data : net_only (sendall fd data).
Proof.
  intros w r w'. unfold sendall.
  destruct (socks w !! fd) as [[[] pend str]|]; [| |];
    [destruct pend as [|[e|] pend']|..]; intros [= _ <-];
    repeat first [ apply quiet_refl
                 | apply quiet_set_socks
                 | apply quiet_emit; done
                 | eapply quiet_trans; [apply quiet_set_socks|] ].
Qed.

Lemma net_only_recv fd bufsize : net_only (recv fd bufsize).
Proof.
  intros w r w'. unfold recv.
  case_bool_decide; [intros [= _ <-]; apply quiet_refl|].
  destruct (socks w !! fd) as [[[] pend str]|];
    [|intros [= _ <-]; apply quiet_refl..].
  destruct str as [|[b p|e] str'].
  - intros [= _ <-]. by apply quiet_emit.
  - destruct (drop (Z.to_nat bufsize) (b :: p)); intros [= _ <-];
      (eapply quiet_trans; [|apply quiet_set_socks]; by apply quiet_emit).
  - intros [= _ <-].
    eapply quiet_trans; [|apply quiet_set_socks]. by apply quiet_emit.
Qed.

Lemma net_only_close fd : net_only (close fd).
Proof.
  intros w r w' [= _ <-].
  eapply quiet_trans; [apply quiet_set_socks | by apply quiet_emit].
Qed.

Lemma net_only_with_socket {A} (body : nat -> M A) :
  (forall sock, net_only (body sock)) -> net_only (with_socket body).
Proof.
  intros Hbody. apply net_only_bind; [apply net_only_socket|].
  intros sock. apply net_only_finally; [apply Hbody | apply net_only_close].
Qed.

Lemma fails_with_socket {A} (body : nat -> M A) :
  (forall sock, fails (body sock)) -> fails (with_socket body).
Proof.
  intros Hbody. apply fails_bind_r. intros sock.
  apply fails_finally, Hbody.
Qed.

Lemma net_only_send_command sock command data_length :
  net_only (Client.send_command sock command data_length).
Proof.
  apply net_only_bind; [apply net_only_lift|].
  intros buf. apply net_only_sendall.
Qed.

Lemma net_only_send_int sock value : net_only (Client.send_int sock value).
Proof.
  apply net_only_bind; [apply net_only_lift|].
  intros buf. apply net_only_sendall.
Qed.

(** A negative number does not fit ['!I']: [send_int] raises before anything
    is sent. *)
Lemma send_int_negative sock value w :
  value < 0 ->
  Client.send_int sock value w =
  (Raise (StructError "argument out of range"), w).
Proof.
  intros Hneg. unfold Client.send_int, struct.pack_I.
  rewrite bool_decide_eq_false_2 by lia. reflexivity.
Qed.

Lemma fails_send_int_negative sock value :
  value < 0 -> fails (Client.send_int sock value).
Proof.
  intros Hneg w. eexists _, _. by apply send_int_negative.
Qed.

(** *** Steps on the socket opened last

    The socket a [with] block works on is the last one made: its
    descriptor is the number of sockets before it. *)
Lemma socket_run fs0 ps ss fl lg :
  socket (World fs0 ps ss fl lg) =
  (Ok (length ss), World fs0 ps (ss ++ [Sock false [] []]) fl lg).
Proof. reflexivity. Qed.

Lemma last_sock_lookup (ss : list sock) s : (ss ++ [s]) !! length ss = Some s.
Proof. by apply list_lookup_middle. Qed.

Lemma last_sock_insert (ss : list sock) s s' :
  <[length ss := s']> (ss ++ [s]) = ss ++ [s'].
Proof.
  rewrite insert_app_r_alt by lia. by rewrite Nat.sub_diag.
Qed.

Lemma last_sock_alter (f : sock -> sock) (ss : list sock) s :
  alter f (length ss) (ss ++ [s]) = ss ++ [f s].
Proof.
  rewrite alter_app_r_alt by lia. by rewrite Nat.sub_diag.
Qed.

Lemma connect_accepted fs0 p ps ss s fl lg :
  refuses p = None ->
  connect (length ss) (World fs0 (p :: ps) (ss ++ [s]) fl lg) =
  (Ok tt,
   World fs0 ps (ss ++ [Sock true (outcomes p) (inbox p)]) fl
     (EConnect (length ss) :: lg)).
Proof.
  intros Hp. unfold connect. simpl. rewrite Hp.
  unfold set_socks. simpl. by rewrite last_sock_insert.
Qed.

Lemma connect_refused fs0 p ps ss fl lg e fd :
  refuses p = Some e ->
  connect fd (World fs0 (p :: ps) ss fl lg) =
  (Raise e, World fs0 ps ss fl (EConnect fd :: lg)).
Proof. intros Hp. unfold connect. simpl. by rewrite Hp. Qed.

Lemma connect_nobody fs0 ss fl lg fd :
  connect fd (World fs0 [] ss fl lg) =
  (Raise (OSError "[Errno 111] Connection refused"),
   World fs0 [] ss fl (EConnect fd :: lg)).
Proof. reflexivity. Qed.

Lemma sendall_through fs0 ps ss pend str fl lg data :
  through pend = true ->
  sendall (length ss) data (World fs0 ps (ss ++ [Sock true pend str]) fl lg) =
  (Ok tt,
   World fs0 ps (ss ++ [Sock true (tail pend) str]) fl
     (ESend (length ss) data :: lg)).
Proof.
  intros Hp. unfold sendall. simpl. rewrite last_sock_lookup.
  destruct pend as [|[e|] pend']; [done|discriminate|].
  unfold set_socks, emit. simpl. by rewrite last_sock_insert.
Qed.

Lemma sendall_fault fs0 ps ss e pend str fl lg data :
  sendall (length ss) data
    (World fs0 ps (ss ++ [Sock true (Some e :: pend) str]) fl lg) =
  (Raise e, World fs0 ps (ss ++ [Sock true pend str]) fl lg).
Proof.
  unfold sendall. simpl. rewrite last_sock_lookup.
  unfold set_socks. simpl. by rewrite last_sock_insert.
Qed.

Lemma recv_closed fs0 ps ss pend fl lg bufsize :
  0 <= bufsize ->
  recv (length ss) bufsize (World fs0 ps (ss ++ [Sock true pend []]) fl lg) =
  (Ok [],
   World fs0 ps (ss ++ [Sock true pend []]) fl
     (ERecv (length ss) bufsize :: lg)).
Proof.
  intros Hb. unfold recv. rewrite bool_decide_eq_false_2 by lia.
  simpl. by rewrite last_sock_lookup.
Qed.

Lemma recv_fault fs0 ps ss pend e str fl lg bufsize :
  0 <= bufsize ->
  recv (length ss) bufsize
    (World fs0 ps (ss ++ [Sock true pend (Fault e :: str)]) fl lg) =
  (Raise e,
   World fs0 ps (ss ++ [Sock true pend str]) fl
     (ERecv (length ss) bufsize :: lg)).
Proof.
  intros Hb. unfold recv. rewrite bool_decide_eq_false_2 by lia.
  simpl. rewrite last_sock_lookup.
  unfold set_socks, emit. simpl. by rewrite last_sock_insert.
Qed.

(** The piece at the head of the stream has more than [k] bytes:
    [recv] takes [k] and leaves the rest. *)
Lemma recv_part fs0 ps ss pend b p b' p' str fl lg (k : nat) :
  drop k (b :: p) = b' :: p' ->
  recv (length ss) (Z.of_nat k)
    (World fs0 ps (ss ++ [Sock true pend (Data b p :: str)]) fl lg) =
  (Ok (take k (b :: p)),
   World fs0 ps (ss ++ [Sock true pend (Data b' p' :: str)]) fl
     (ERecv (length ss) (Z.of_nat k) :: lg)).
Proof.
  intros Hd. unfold recv. rewrite bool_decide_eq_false_2 by lia.
  cbn [socks]. rewrite last_sock_lookup, Nat2Z.id, Hd.
  unfold set_socks, emit. cbn [socks fs peers files log].
  by rewrite last_sock_insert.
Qed.

(** The piece at the head of the stream has at most [k] bytes: [recv] takes
    it whole. *)
Lemma recv_whole fs0 ps ss pend b p str fl lg (k : nat) :
  drop k (b :: p) = [] ->
  recv (length ss) (Z.of_nat k)
    (World fs0 ps (ss ++ [Sock true pend (Data b p :: str)]) fl lg) =
  (Ok (b :: p),
   World fs0 ps (ss ++ [Sock true pend str]) fl
     (ERecv (length ss) (Z.of_nat k) :: lg)).
Proof.
  intros Hd. unfold recv. rewrite bool_decide_eq_false_2 by lia.
  cbn [socks]. rewrite last_sock_lookup, Nat2Z.id, Hd.
  unfold set_socks, emit. cbn [socks fs peers files log].
  by rewrite last_sock_insert.
Qed.

Lemma close_run fs0 ps ss s fl lg :
  close (length ss) (World fs0 ps (ss ++ [s]) fl lg) =
  (Ok tt,
   World fs0 ps (ss ++ [Sock false (pending s) (stream s)]) fl
     (EClose (length ss) :: lg)).
Proof.
  unfold close, set_socks, emit. simpl. by rewrite last_sock_alter.
Qed.

End socket_facts.

(** ** Chunks with nothing in them *)
Section empty_chunks.
Import Py Client.

(** With more chunks than bytes, a range whose start is past its end is
    [[0, -1]]. *)
Lemma empty_range_shape file_size chunk_count (i : nat) r :
  0 <= file_size < chunk_count ->
  Planner.ranges file_size chunk_count !! i = Some r ->
  r.1 > r.2 ->
  r = (0, -1).
Proof.
  intros HS Hr Hgt. apply ranges_lookup_Some in Hr as [Hi ->].
  rewrite Z.div_small in * by lia.
  unfold Planner.chunk_range in *. simpl in *.
  rewrite Z.mul_0_r in *.
  case_bool_decide; f_equal; lia.
Qed.

Lemma upload_chunk_body_negative_end cmd path start_byte end_byte chunk_number :
  end_byte < 0 ->
  fails (upload_chunk_body cmd path start_byte end_byte chunk_number) /\
  net_only (upload_chunk_body cmd path start_byte end_byte chunk_number).
Proof.
  intros Hneg. unfold upload_chunk_body. split.
  - apply fails_with_socket. intros sock.
    do 4 (apply fails_bind_r; intros _).
    by apply fails_bind_l, fails_send_int_negative.
  - apply net_only_with_socket. intros sock.
    apply net_only_bind; [apply net_only_connect | intros _].
    apply net_only_bind; [apply net_only_send_command | intros _].
    apply net_only_bind; [apply net_only_sendall | intros _].
    apply net_only_bind; [apply net_only_send_int | intros _].
    apply net_only_bind_fails;
      [apply net_only_send_int | by apply fails_send_int_negative].
Qed.

Lemma download_chunk_body_negative_end cmd file_name destination
    start_byte end_byte chunk_number :
  end_byte < 0 ->
  fails (download_chunk_body cmd file_name destination start_byte end_byte
           chunk_number) /\
  net_only (download_chunk_body cmd file_name destination start_byte end_byte
              chunk_number).
Proof.
  intros Hneg. unfold download_chunk_body. split.
  - apply fails_with_socket. intros sock.
    do 4 (apply fails_bind_r; intros _).
    by apply fails_bind_l, fails_send_int_negative.
  - apply net_only_with_socket. intros sock.
    apply net_only_bind; [apply net_only_connect | intros _].
    apply net_only_bind; [apply net_only_send_command | intros _].
    apply net_only_bind; [apply net_only_sendall | intros _].
    apply net_only_bind; [apply net_only_send_int | intros _].
    apply net_only_bind_fails;
      [apply net_only_send_int | by apply fails_send_int_negative].
Qed.

(** C3, as the code has it: with more chunks than bytes, a chunk whose range
    has its start past its end has the range [[0, -1]], and its worker, for
    an upload as for a download and whatever the server does, ends in an
    exception: it opens, reads and writes no file and sends no completion
    signal, but it does not return as from a chunk of no bytes; the handler
    prints the exception as a chunk error.  (The end offset [-1] does not fit
    the unsigned format of [send_int].) *)
Theorem empty_range_worker_raises cmd path file_name destination
    file_size chunk_count (i : nat) r w :
  0 <= file_size < chunk_count ->
  Planner.ranges file_size chunk_count !! i = Some r ->
  r.1 > r.2 ->
  r = (0, -1) /\
  (exists e w1,
     upload_chunk_body cmd path r.1 r.2 (Z.of_nat i) w = (Raise e, w1) /\
     quiet w w1 /\
     upload_chunk cmd path r.1 r.2 (Z.of_nat i) w =
     (Ok tt, emit (EPrint ("[CHUNK UPLOAD ERROR] " +:+ str e)) w1)) /\
  (exists e w1,
     download_chunk_body cmd file_name destination r.1 r.2 (Z.of_nat i) w =
     (Raise e, w1) /\
     quiet w w1 /\
     download_chunk cmd file_name destination r.1 r.2 (Z.of_nat i) w =
     (Ok tt, emit (EPrint ("[CHUNK DOWNLOAD ERROR] " +:+ str e)) w1)).
Proof.
  intros HS Hr Hgt.
  assert (Hshape : r = (0, -1)) by by eapply empty_range_shape.
  subst r. simpl. split; [done|]. split.
  - destruct (upload_chunk_body_negative_end cmd path 0 (-1) (Z.of_nat i))
      as [Hfails Hnet]; [lia|].
    destruct (Hfails w) as (e & w1 & Hrun).
    exists e, w1. split; [done|]. split; [by eapply Hnet|].
    unfold upload_chunk. by rewrite (try_except_raise _ _ _ _ _ Hrun).
  - destruct (download_chunk_body_negative_end cmd file_name destination
                0 (-1) (Z.of_nat i)) as [Hfails Hnet]; [lia|].
    destruct (Hfails w) as (e & w1 & Hrun).
    exists e, w1. split; [done|]. split; [by eapply Hnet|].
    unfold download_chunk. by rewrite (try_except_raise _ _ _ _ _ Hrun).
Qed.

Lemma empty_range_worker_raises_witness :
  (0, -1) = (0, -1) /\
  (exists e w1,
     upload_chunk_body spec_commands "data/a.txt" 0 (-1) 0
       (Scenario.start [Scenario.answering []]) = (Raise e, w1) /\
     quiet (Scenario.start [Scenario.answering []]) w1 /\
     upload_chunk spec_commands "data/a.txt" 0 (-1) 0
       (Scenario.start [Scenario.answering []]) =
     (Ok tt, emit (EPrint ("[CHUNK UPLOAD ERROR] " +:+ str e)) w1)) /\
  (exists e w1,
     download_chunk_body spec_commands "a.txt" "dl" 0 (-1) 0
       (Scenario.start [Scenario.answering []]) = (Raise e, w1) /\
     quiet (Scenario.start [Scenario.answering []]) w1 /\
     download_chunk spec_commands "a.txt" "dl" 0 (-1) 0
       (Scenario.start [Scenario.answering []]) =
     (Ok tt, emit (EPrint ("[CHUNK DOWNLOAD ERROR] " +:+ str e)) w1)).
Proof.
  apply (empty_range_worker_raises spec_commands "data/a.txt" "a.txt" "dl"
           3 4 0 (0, -1) (Scenario.start [Scenario.answering []])).
  - lia.
  - reflexivity.
  - simpl. lia.
Defined.

End empty_chunks.

(** ** Requests and replies on the socket opened last *)
Section exchange_facts.
Import Py Client.

Lemma recv_data fs0 ps ss pend b p str fl lg (k : nat) :
  recv (length ss) (Z.of_nat k)
    (World fs0 ps (ss ++ [Sock true pend (Data b p :: str)]) fl lg) =
  (Ok (take k (b :: p)),
   World fs0 ps (ss ++ [Sock true pend (rest_after k b p str)]) fl
     (ERecv (length ss) (Z.of_nat k) :: lg)).
Proof.
  unfold rest_after. destruct (drop k (b :: p)) as [|b' p'] eqn:Hd.
  - rewrite recv_whole by done.
    apply drop_nil_inv in Hd. by rewrite take_ge by done.
  - by apply recv_part.
Qed.

Lemma pack_BI_fits command data_length :
  0 <= command <= 255 -> 0 <= data_length <= struct.uint32_max ->
  exists header, struct.pack_BI command data_length = Ok header.
Proof.
  intros Hc Hl. unfold struct.pack_BI, struct.pack_B, struct.pack_I.
  rewrite !bool_decide_eq_true_2 by done. by eexists.
Qed.

Lemma send_command_through fs0 ps ss pend str fl lg command data_length header :
  struct.pack_BI command data_length = Ok header ->
  through pend = true ->
  send_command (length ss) command data_length
    (World fs0 ps (ss ++ [Sock true pend str]) fl lg) =
  (Ok tt,
   World fs0 ps (ss ++ [Sock true (tail pend) str]) fl
     (ESend (length ss) header :: lg)).
Proof.
  intros Hpack Hp. unfold send_command. rewrite Hpack.
  eapply bind_ok; [reflexivity|]. by apply sendall_through.
Qed.

Lemma send_command_unfit fs0 ps ss s fl lg command data_length e :
  struct.pack_BI command data_length = Raise e ->
  send_command (length ss) command data_length
    (World fs0 ps (ss ++ [s]) fl lg) =
  (Raise e, World fs0 ps (ss ++ [s]) fl lg).
Proof. intros Hpack. unfold send_command. by rewrite Hpack. Qed.

Lemma send_command_fault fs0 ps ss e pend str fl lg command data_length header :
  struct.pack_BI command data_length = Ok header ->
  send_command (length ss) command data_length
    (World fs0 ps (ss ++ [Sock true (Some e :: pend) str]) fl lg) =
  (Raise e, World fs0 ps (ss ++ [Sock true pend str]) fl lg).
Proof.
  intros Hpack. unfold send_command. rewrite Hpack.
  eapply bind_ok; [reflexivity|]. by apply sendall_fault.
Qed.

Lemma send_int_through fs0 ps ss pend str fl lg value buf :
  struct.pack_I value = Ok buf ->
  through pend = true ->
  send_int (length ss) value
    (World fs0 ps (ss ++ [Sock true pend str]) fl lg) =
  (Ok tt,
   World fs0 ps (ss ++ [Sock true (tail pend) str]) fl
     (ESend (length ss) buf :: lg)).
Proof.
  intros Hpack Hp. unfold send_int. rewrite Hpack.
  eapply bind_ok; [reflexivity|]. by apply sendall_through.
Qed.

(** The reply starts with the byte [b]: [recv_bool] reads it as a flag. *)
Lemma recv_bool_answer fs0 ps ss pend b p str fl lg :
  recv_bool (length ss)
    (World fs0 ps (ss ++ [Sock true pend (Data b p :: str)]) fl lg) =
  (Ok (negb (struct.Z_of_byte b =? 0)),
   World fs0 ps (ss ++ [Sock true pend (rest_after 1 b p str)]) fl
     (ERecv (length ss) 1 :: lg)).
Proof.
  unfold recv_bool. eapply bind_ok; [apply (recv_data _ _ _ _ _ _ _ _ _ 1)|].
  reflexivity.
Qed.

Lemma recv_bool_closed fs0 ps ss pend fl lg :
  recv_bool (length ss) (World fs0 ps (ss ++ [Sock true pend []]) fl lg) =
  (Raise (StructError "unpack requires a buffer of 1 bytes"),
   World fs0 ps (ss ++ [Sock true pend []]) fl (ERecv (length ss) 1 :: lg)).
Proof.
  unfold recv_bool. eapply bind_ok; [by apply recv_closed|]. reflexivity.
Qed.

Lemma recv_bool_fault fs0 ps ss pend e str fl lg :
  recv_bool (length ss)
    (World fs0 ps (ss ++ [Sock true pend (Fault e :: str)]) fl lg) =
  (Raise e,
   World fs0 ps (ss ++ [Sock true pend str]) fl (ERecv (length ss) 1 :: lg)).
Proof.
  unfold recv_bool. by apply bind_raise, recv_fault.
Qed.

End exchange_facts.

(** ** Upload of a name the server has *)
Section upload_collision.
Import Py Client.

(** The run of [upload_file]'s body when the server accepts the control
    connection, takes the request and answers with a byte [b] that is not
    zero. *)
Lemma upload_collision_run cmd path chunk_count fs0 p ps ss fl lg b rest str
    header :
  refuses p = None ->
  through (outcomes p) = true ->
  through (tail (outcomes p)) = true ->
  inbox p = Data b rest :: str ->
  struct.Z_of_byte b <> 0 ->
  struct.pack_BI (REQUEST_UPLOAD cmd) (len (encode (basename path))) =
    Ok header ->
  upload_file_body cmd path chunk_count (World fs0 (p :: ps) ss fl lg) =
  (Raise already_there,
   World fs0 ps
     (ss ++ [Sock false (tail (tail (outcomes p))) (rest_after 1 b rest str)])
     fl
     ([EClose (length ss); ERecv (length ss) 1;
       ESend (length ss) (encode (basename path));
       ESend (length ss) header; EConnect (length ss)] ++ lg)).
Proof.
  intros Hacc Hsend1 Hsend2 Hin Hb Hpack.
  unfold upload_file_body, with_socket.
  eapply bind_ok; [apply socket_run|].
  eapply finally_run.
  - eapply bind_ok; [by apply connect_accepted|]. cbv beta zeta.
    eapply bind_ok; [by apply send_command_through|].
    eapply bind_ok; [by apply sendall_through|].
    rewrite Hin.
    eapply bind_ok; [apply recv_bool_answer|].
    rewrite (proj2 (Z.eqb_neq _ _) Hb). reflexivity.
  - apply close_run.
Qed.

(** C8: the server accepts the control connection, takes the request and
    answers REQUEST_UPLOAD with a byte that is not zero.  Then the body of
    [upload_file] raises [FileExistsError], which [upload_file] prints, and
    all that happened on the way is: one connection made, the header and the
    name sent on it, one byte read, the connection closed.  No second
    connection, so none for UPLOAD_CHUNK; no thread started; no file opened
    or read; the scripts of the other peers are untouched. *)
Theorem upload_stops_on_collision cmd path chunk_count w p ps b rest str :
  peers w = p :: ps ->
  refuses p = None ->
  through (outcomes p) = true ->
  through (tail (outcomes p)) = true ->
  inbox p = Data b rest :: str ->
  struct.Z_of_byte b <> 0 ->
  0 <= REQUEST_UPLOAD cmd <= 255 ->
  len (encode (basename path)) <= struct.uint32_max ->
  let fd := length (socks w) in
  let name := encode (basename path) in
  exists header w1,
    struct.pack_BI (REQUEST_UPLOAD cmd) (len name) = Ok header /\
    upload_file_body cmd path chunk_count w = (Raise already_there, w1) /\
    upload_file cmd path chunk_count w =
    (Ok tt,
     emit (EPrint "[FILE UPLOAD ERROR]: File has already existed on the server")
       w1) /\
    log w1 =
      [EClose fd; ERecv fd 1; ESend fd name; ESend fd header; EConnect fd] ++
      log w /\
    fs w1 = fs w /\ files w1 = files w /\ peers w1 = ps /\
    length (socks w1) = S (length (socks w)).
Proof.
  intros Hpeers Hacc Hsend1 Hsend2 Hin Hb Hcode Hname fd name.
  destruct w as [fs0 pl ss fl lg]. simpl in Hpeers. subst pl.
  destruct (pack_BI_fits (REQUEST_UPLOAD cmd) (len name)) as [header Hpack];
    [done | unfold name, len in *; lia |].
  pose proof (upload_collision_run cmd path chunk_count fs0 p ps ss fl lg
                b rest str header Hacc Hsend1 Hsend2 Hin Hb Hpack) as Hrun.
  eexists header, _. split; [done|]. split; [exact Hrun|].
  split; [|simpl; rewrite length_app; simpl; repeat split; lia].
  unfold upload_file. by rewrite (try_except_raise _ _ _ _ _ Hrun).
Qed.

Lemma upload_stops_on_collision_witness :
  exists header w1,
    struct.pack_BI 2 5 = Ok header /\
    upload_file_body spec_commands "data/a.txt" 4 Scenario.name_taken =
      (Raise already_there, w1) /\
    upload_file spec_commands "data/a.txt" 4 Scenario.name_taken =
    (Ok tt,
     emit (EPrint "[FILE UPLOAD ERROR]: File has already existed on the server")
       w1) /\
    log w1 =
      [EClose 0; ERecv 0 1; ESend 0 (encode "a.txt"); ESend 0 header;
       EConnect 0] /\
    fs w1 = Scenario.disk /\ files w1 = [] /\ peers w1 = [] /\
    length (socks w1) = 1%nat.
Proof.
  apply (upload_stops_on_collision spec_commands "data/a.txt" 4
           Scenario.name_taken (Scenario.answering [1]) []
           "001"%byte [] []); try reflexivity.
  - vm_compute. discriminate.
  - simpl. lia.
  - vm_compute. discriminate.
Defined.

End upload_collision.

(** ** What reaches the caller *)
Section reporting.
Import Py Client.

(** A [try] whose handler prints the exception behind a tag and goes on to
    return [a]. *)
Lemma reported {A} (body : M A) (a : A) (tag : string) w :
  let h := fun e => print (tag +:+ str e);; mret a in
  (exists a' w', try_except body h w = (Ok a', w')) /\
  (forall e w1,
     body w = (Raise e, w1) ->
     try_except body h w = (Ok a, emit (EPrint (tag +:+ str e)) w1)).
Proof.
  intros h. split.
  - apply try_except_returns. intros e w0. by eexists _, _.
  - intros e w1 Hrun. by rewrite (try_except_raise _ _ _ _ _ Hrun).
Qed.

Lemma reported_unit (body : M unit) (tag : string) w :
  let h := fun e => print (tag +:+ str e) in
  (exists w', try_except body h w = (Ok tt, w')) /\
  (forall e w1,
     body w = (Raise e, w1) ->
     try_except body h w = (Ok tt, emit (EPrint (tag +:+ str e)) w1)).
Proof.
  intros h. split.
  - unfold try_except. destruct (body w) as [[[]|e] w1]; by eexists.
  - intros e w1 Hrun. by rewrite (try_except_raise _ _ _ _ _ Hrun).
Qed.

Lemma download_without_destination cmd file_name destination chunk_count w :
  fs w !! destination = None ->
  download_file_body cmd file_name destination chunk_count w =
  (Raise no_destination, w).
Proof.
  intros Hnone. unfold download_file_body.
  eapply bind_ok; [reflexivity|].
  rewrite Hnone. rewrite bool_decide_eq_false_2; [reflexivity|].
  by intros [? ?].
Qed.

(** The claim C7 does not hold of the code: a name the server has, and a
    destination folder that is not there, make the bodies of [upload_file]
    and [download_file] raise, and both methods return to their caller. *)
Lemma precondition_failures_are_caught :
  (exists w1,
     upload_file_body spec_commands "data/a.txt" 4 Scenario.name_taken =
       (Raise already_there, w1) /\
     upload_file spec_commands "data/a.txt" 4 Scenario.name_taken =
       (Ok tt,
        emit (EPrint
                "[FILE UPLOAD ERROR]: File has already existed on the server")
          w1)) /\
  download_file_body spec_commands "a.txt" "nowhere" 4 (Scenario.start []) =
    (Raise no_destination, Scenario.start []) /\
  download_file spec_commands "a.txt" "nowhere" 4 (Scenario.start []) =
    (Ok tt,
     emit (EPrint "[FILE DOWNLOAD ERROR] Destination folder does not exist")
       (Scenario.start [])).
Proof.
  split; [|split].
  - eexists. split; vm_compute; reflexivity.
  - vm_compute. reflexivity.
  - vm_compute. reflexivity.
Qed.

(** C7, amended: no failure is raised to the caller of an operation.  Every
    method returns; an exception raised in its body, one of the two
    precondition failures or any other, is printed as one message behind the
    method's tag.  The two precondition failures stop the operation at once:
    a missing destination folder before any connection is made, a name the
    server has after the one exchange on the control connection. *)
Theorem failures_are_reported cmd w :
  (forall path n,
     (exists w', upload_file cmd path n w = (Ok tt, w')) /\
     (forall e w1,
        upload_file_body cmd path n w = (Raise e, w1) ->
        upload_file cmd path n w =
        (Ok tt, emit (EPrint ("[FILE UPLOAD ERROR]: " +:+ str e)) w1))) /\
  (forall name dest n,
     (exists w', download_file cmd name dest n w = (Ok tt, w')) /\
     (forall e w1,
        download_file_body cmd name dest n w = (Raise e, w1) ->
        download_file cmd name dest n w =
        (Ok tt, emit (EPrint ("[FILE DOWNLOAD ERROR] " +:+ str e)) w1))) /\
  (forall path s e i,
     (exists w', upload_chunk cmd path s e i w = (Ok tt, w')) /\
     (forall x w1,
        upload_chunk_body cmd path s e i w = (Raise x, w1) ->
        upload_chunk cmd path s e i w =
        (Ok tt, emit (EPrint ("[CHUNK UPLOAD ERROR] " +:+ str x)) w1))) /\
  (forall name dest s e i,
     (exists w', download_chunk cmd name dest s e i w = (Ok tt, w')) /\
     (forall x w1,
        download_chunk_body cmd name dest s e i w = (Raise x, w1) ->
        download_chunk cmd name dest s e i w =
        (Ok tt, emit (EPrint ("[CHUNK DOWNLOAD ERROR] " +:+ str x)) w1))) /\
  (forall name,
     (exists w', delete_file cmd name w = (Ok tt, w')) /\
     (forall e w1,
        delete_file_body cmd name w = (Raise e, w1) ->
        delete_file cmd name w =
        (Ok tt, emit (EPrint ("[FILE DELETION ERROR] " +:+ str e)) w1))) /\
  ((exists b w', ping cmd w = (Ok b, w')) /\
   (forall e w1,
      ping_body cmd w = (Raise e, w1) ->
      ping cmd w = (Ok false, emit (EPrint ("[PING ERROR] " +:+ str e)) w1))) /\
  ((exists r w', list_files cmd w = (Ok r, w')) /\
   (forall e w1,
      list_files_body cmd w = (Raise e, w1) ->
      list_files cmd w =
      (Ok None, emit (EPrint ("[FILE LISTING ERROR] " +:+ str e)) w1))) /\
  (forall name dest n,
     fs w !! dest = None ->
     download_file_body cmd name dest n w = (Raise no_destination, w) /\
     download_file cmd name dest n w =
     (Ok tt,
      emit (EPrint "[FILE DOWNLOAD ERROR] Destination folder does not exist")
        w)) /\
  (forall path n p ps b rest str header,
     peers w = p :: ps ->
     refuses p = None ->
     through (outcomes p) = true ->
     through (tail (outcomes p)) = true ->
     inbox p = Data b rest :: str ->
     struct.Z_of_byte b <> 0 ->
     struct.pack_BI (REQUEST_UPLOAD cmd) (len (encode (basename path))) =
       Ok header ->
     exists w1,
       upload_file_body cmd path n w = (Raise already_there, w1) /\
       upload_file cmd path n w =
       (Ok tt,
        emit (EPrint
                "[FILE UPLOAD ERROR]: File has already existed on the server")
          w1) /\
       log w1 =
         [EClose (length (socks w)); ERecv (length (socks w)) 1;
          ESend (length (socks w)) (encode (basename path));
          ESend (length (socks w)) header; EConnect (length (socks w))] ++
         log w).
Proof.
  split; [intros path n; apply reported_unit|].
  split; [intros name dest n; apply reported_unit|].
  split; [intros path s e i; apply reported_unit|].
  split; [intros name dest s e i; apply reported_unit|].
  split; [intros name; apply reported_unit|].
  split; [apply (reported (ping_body cmd) false)|].
  split; [apply (reported (list_files_body cmd) None)|].
  split.
  - intros name dest n Hnone.
    pose proof (download_without_destination cmd name dest n w Hnone) as Hrun.
    split; [done|].
    unfold download_file. by rewrite (try_except_raise _ _ _ _ _ Hrun).
  - intros path n p ps b rest str header Hpeers Hacc Hs1 Hs2 Hin Hb Hpack.
    destruct w as [fs0 pl ss fl lg]. simpl in *. subst pl.
    pose proof (upload_collision_run cmd path n fs0 p ps ss fl lg b rest str
                  header Hacc Hs1 Hs2 Hin Hb Hpack) as Hrun.
    eexists. split; [exact Hrun|]. split; [|reflexivity].
    unfold upload_file. by rewrite (try_except_raise _ _ _ _ _ Hrun).
Qed.

End reporting.

(** ** ping *)
Section ping_facts.
Import Py Client.

Lemma ping_reports cmd w e w1 :
  ping_body cmd w = (Raise e, w1) ->
  ping cmd w = (Ok false, emit (EPrint ("[PING ERROR] " +:+ str e)) w1).
Proof.
  intros Hrun. unfold ping. by rewrite (try_except_raise _ _ _ _ _ Hrun).
Qed.

Lemma ping_returns cmd w : exists b w', ping cmd w = (Ok b, w').
Proof.
  apply try_except_returns. intros e w0. by eexists _, _.
Qed.

(** Whatever makes the exchange with an accepting peer raise makes the body
    raise, once the socket is closed. *)
Lemma ping_body_raises cmd fs0 p ps ss fl lg e w1 :
  refuses p = None ->
  (send_command (length ss) (PING cmd) 0;; recv_bool (length ss))
    (World fs0 ps (ss ++ [Sock true (outcomes p) (inbox p)]) fl
       (EConnect (length ss) :: lg)) = (Raise e, w1) ->
  exists w2,
    ping_body cmd (World fs0 (p :: ps) ss fl lg) = (Raise e, w2).
Proof.
  intros Hacc Hrun. unfold ping_body, with_socket.
  destruct (close (length ss) w1) as [r w2] eqn:Hclose.
  assert (r = Ok tt) as -> by (unfold close in Hclose; congruence).
  exists w2.
  eapply bind_ok; [apply socket_run|].
  eapply finally_run; [|exact Hclose].
  eapply bind_ok; [by apply connect_accepted|]. exact Hrun.
Qed.

(** C9: [ping] always returns a boolean and never raises.  If the exchange
    fails, it returns [False]: nobody listening or the connection refused,
    the request not going out, the stream closed or failing (a timeout, a
    reset) before a byte comes.  If the peer accepts, takes the request and
    answers, [ping] returns the boolean that the first byte of the answer
    encodes. *)
Theorem ping_best_effort cmd w :
  (exists b w', ping cmd w = (Ok b, w')) /\
  (forall e w1,
     ping_body cmd w = (Raise e, w1) ->
     ping cmd w = (Ok false, emit (EPrint ("[PING ERROR] " +:+ str e)) w1)) /\
  (peers w = [] -> exists w', ping cmd w = (Ok false, w')) /\
  (forall p ps,
     peers w = p :: ps ->
     (is_Some (refuses p) \/
      (exists e pend, outcomes p = Some e :: pend) \/
      inbox p = [] \/
      (exists e str, inbox p = Fault e :: str)) ->
     exists w', ping cmd w = (Ok false, w')) /\
  (forall p ps b rest str,
     peers w = p :: ps ->
     refuses p = None ->
     through (outcomes p) = true ->
     inbox p = Data b rest :: str ->
     0 <= PING cmd <= 255 ->
     exists w', ping cmd w = (Ok (negb (struct.Z_of_byte b =? 0)), w')).
Proof.
  split; [apply ping_returns|]. split; [apply ping_reports|].
  destruct w as [fs0 pl ss fl lg]. simpl. split; [|split].
  - intros ->. eexists. apply ping_reports.
    unfold ping_body, with_socket.
    eapply bind_ok; [apply socket_run|].
    eapply finally_run; [|apply close_run].
    apply bind_raise, connect_nobody.
  - intros p ps -> Hfail.
    destruct (refuses p) as [e|] eqn:Hacc.
    { eexists. apply ping_reports.
      unfold ping_body, with_socket.
      eapply bind_ok; [apply socket_run|].
      eapply finally_run; [|apply close_run].
      by apply bind_raise, connect_refused. }
    assert (Hrun : exists e w1,
      (send_command (length ss) (PING cmd) 0;; recv_bool (length ss))
        (World fs0 ps (ss ++ [Sock true (outcomes p) (inbox p)]) fl
           (EConnect (length ss) :: lg)) = (Raise e, w1)).
    { destruct (struct.pack_BI (PING cmd) 0) as [header|e] eqn:Hpack.
      2:{ eexists _, _. by apply bind_raise, send_command_unfit. }
      destruct (outcomes p) as [|[e|] pend] eqn:Hout.
      2:{ eexists _, _. apply bind_raise. by eapply send_command_fault. }
      all: destruct Hfail as [[e He]|[(e & pend' & He)|[Hin|(e & str & Hin)]]];
        try discriminate; rewrite Hin; eexists _, _;
        (eapply bind_ok; [by eapply send_command_through|]);
        first [apply recv_bool_closed | apply recv_bool_fault]. }
    destruct Hrun as (e & w1 & Hrun).
    destruct (ping_body_raises cmd fs0 p ps ss fl lg e w1 Hacc Hrun)
      as [w2 Hbody].
    eexists. by apply ping_reports in Hbody.
  - intros p ps b rest str -> Hacc Hsend Hin Hcode.
    destruct (pack_BI_fits (PING cmd) 0) as [header Hpack];
      [done | unfold struct.uint32_max; lia |].
    eexists. unfold ping. apply try_except_ok.
    unfold ping_body, with_socket.
    eapply bind_ok; [apply socket_run|].
    eapply finally_run.
    + eapply bind_ok; [by apply connect_accepted|].
      eapply bind_ok; [by eapply send_command_through|].
      rewrite Hin. apply recv_bool_answer.
    + apply close_run.
Qed.

End ping_facts.

(** ** File objects: steps on the file opened last *)
Section file_facts.
Import Py Client.

Lemma last_file_lookup (fl : list fobj) f : (fl ++ [f]) !! length fl = Some f.
Proof. by apply list_lookup_middle. Qed.

Lemma last_file_insert (fl : list fobj) f f' :
  <[length fl := f']> (fl ++ [f]) = fl ++ [f'].
Proof.
  rewrite insert_app_r_alt by lia. by rewrite Nat.sub_diag.
Qed.

Lemma open_wb_run fs0 ps ss fl lg path :
  writable fs0 path = true ->
  open path WB (World fs0 ps ss fl lg) =
  (Ok (length fl),
   World (<[path := File []]> fs0) ps ss (fl ++ [Fobj path WB 0])
     (EOpen path WB :: lg)).
Proof.
  unfold writable, open. cbn [fs files].
  destruct (fs0 !! path) as [[|c]|]; [discriminate|done|].
  destruct (String.eqb (dirname path) EmptyString); [done|].
  destruct (fs0 !! dirname path) as [[|c]|]; done.
Qed.

Lemma seek_run fs0 ps ss fl lg path m pos offset :
  0 <= offset ->
  seek (length fl) offset (World fs0 ps ss (fl ++ [Fobj path m pos]) lg) =
  (Ok offset,
   World fs0 ps ss (fl ++ [Fobj path m (Z.to_nat offset)])
     (ESeek (length fl) offset :: lg)).
Proof.
  intros Hoff. unfold seek. cbn [files]. rewrite last_file_lookup.
  rewrite bool_decide_eq_false_2 by lia.
  unfold set_files, emit. cbn [fs peers socks files log].
  by rewrite last_file_insert.
Qed.

Lemma seek_negative fs0 ps ss fl lg path m pos offset :
  offset < 0 ->
  seek (length fl) offset (World fs0 ps ss (fl ++ [Fobj path m pos]) lg) =
  (Raise (OSError "[Errno 22] Invalid argument"),
   World fs0 ps ss (fl ++ [Fobj path m pos]) (ESeek (length fl) offset :: lg)).
Proof.
  intros Hoff. unfold seek. cbn [files]. rewrite last_file_lookup.
  by rewrite bool_decide_eq_true_2 by lia.
Qed.

Lemma write_wb_run fs0 ps ss fl lg path pos c data :
  fs0 !! path = Some (File c) ->
  write (length fl) data (World fs0 ps ss (fl ++ [Fobj path WB pos]) lg) =
  (Ok (len data),
   World (<[path := File (write_at c pos data)]> fs0) ps ss
     (fl ++ [Fobj path WB (pos + length data)])
     (EWrite (length fl) data :: lg)).
Proof.
  intros Hc. unfold write. cbn [files fs]. rewrite last_file_lookup, Hc.
  unfold set_files, set_fs, emit. cbn [fs peers socks files log].
  by rewrite last_file_insert.
Qed.

(** One zero byte written at offset [n] of an empty file leaves [n + 1]
    zero bytes. *)
Lemma write_at_preallocates (n : nat) :
  write_at [] n ["000"%byte] = replicate (S n) "000"%byte.
Proof.
  rewrite replicate_S_end. unfold write_at.
  rewrite app_nil_l, drop_nil, Nat.sub_0_r.
  by rewrite take_ge by (by rewrite length_replicate).
Qed.

(** The preallocation of a file of no bytes: the destination is made or
    emptied, then [seek(-1)] raises. *)
Lemma preallocate_nothing fs0 ps ss fl lg path :
  writable fs0 path = true ->
  preallocate path 0 (World fs0 ps ss fl lg) =
  (Raise (OSError "[Errno 22] Invalid argument"),
   World (<[path := File []]> fs0) ps ss (fl ++ [Fobj path WB 0])
     (ESeek (length fl) (-1) :: EOpen path WB :: lg)).
Proof.
  intros Hw. unfold preallocate, with_open.
  eapply bind_ok; [by apply open_wb_run|].
  eapply finally_run; [|reflexivity].
  apply bind_raise. by apply seek_negative.
Qed.

(** The preallocation of a file of [file_size >= 1] bytes: the destination
    is made or emptied and left holding [file_size] zero bytes. *)
Lemma preallocate_sized fs0 ps ss fl lg path file_size :
  writable fs0 path = true ->
  1 <= file_size ->
  preallocate path file_size (World fs0 ps ss fl lg) =
  (Ok 1,
   World (<[path := File (replicate (Z.to_nat file_size) "000"%byte)]> fs0)
     ps ss (fl ++ [Fobj path WB (Z.to_nat file_size)])
     (EWrite (length fl) ["000"%byte] :: ESeek (length fl) (file_size - 1) ::
      EOpen path WB :: lg)).
Proof.
  intros Hw Hsize. unfold preallocate, with_open.
  eapply bind_ok; [by apply open_wb_run|].
  eapply finally_run; [|reflexivity].
  eapply bind_ok; [apply seek_run; lia|].
  erewrite write_wb_run by apply lookup_insert_eq.
  rewrite write_at_preallocates, insert_insert_eq.
  replace (S (Z.to_nat (file_size - 1))) with (Z.to_nat file_size) by lia.
  replace (Z.to_nat (file_size - 1) + length ["000"%byte])%nat
    with (Z.to_nat file_size) by (simpl; lia).
  reflexivity.
Qed.

(** Whatever a regular file held, the preallocation leaves the same world. *)
Lemma preallocate_forgets fs0 ps ss fl lg path file_size old :
  0 <= file_size ->
  preallocate path file_size
    (World (<[path := File old]> fs0) ps ss fl lg) =
  preallocate path file_size (World (<[path := File []]> fs0) ps ss fl lg).
Proof.
  intros Hsize.
  assert (Hw : forall c, writable (<[path := File c]> fs0) path = true).
  { intros c. unfold writable. by rewrite lookup_insert_eq. }
  destruct (decide (file_size = 0)) as [->|Hpos].
  - rewrite !preallocate_nothing by done. by rewrite !insert_insert_eq.
  - rewrite !preallocate_sized by (done || lia). by rewrite !insert_insert_eq.
Qed.

End file_facts.

(** ** download_file once the server has said the file is there *)
Section download_facts.
Import Py Client.

Lemma finally_cong {A} (m m' : M A) (exit : M unit) w w' :
  m w = m' w' -> finally m exit w = finally m' exit w'.
Proof. intros Heq. unfold finally. by rewrite Heq. Qed.

Lemma try_except_cong {A} (m : M A) h w w' :
  m w = m w' -> try_except m h w = try_except m h w'.
Proof. intros Heq. unfold try_except. by rewrite Heq. Qed.

Lemma bind_cong {A B} (m : M A) (k : A -> M B) w w' :
  m w = m w' -> (m ≫= k) w = (m ≫= k) w'.
Proof. intros Heq. unfold mbind, M_bind, bind. by rewrite Heq. Qed.

(** The negotiation: the destination is there, the server accepts the
    control connection, takes the request and answers in one piece with a
    flag [f] that is not zero and the four bytes of the size.  What is left
    to run is the transfer, and then the closing of the control socket. *)
Lemma download_negotiated cmd file_name destination chunk_count
    fs0 p ps ss fl lg f b3 b2 b1 b0 more str header :
  is_Some (fs0 !! destination) ->
  refuses p = None ->
  through (outcomes p) = true ->
  through (tail (outcomes p)) = true ->
  inbox p = Data f (b3 :: b2 :: b1 :: b0 :: more) :: str ->
  struct.Z_of_byte f <> 0 ->
  struct.pack_BI (REQUEST_DOWNLOAD cmd) (strlen file_name) = Ok header ->
  download_file_body cmd file_name destination chunk_count
    (World fs0 (p :: ps) ss fl lg) =
  finally
    (download_transfer cmd file_name destination (struct.be32 b3 b2 b1 b0)
       chunk_count)
    (close (length ss))
    (World fs0 ps
       (ss ++ [Sock true (tail (tail (outcomes p)))
                 (rest_after 5 f (b3 :: b2 :: b1 :: b0 :: more) str)])
       fl
       (ERecv (length ss) 5 :: ESend (length ss) (encode file_name) ::
        ESend (length ss) header :: EConnect (length ss) :: lg)).
Proof.
  intros Hdest Hacc Hs1 Hs2 Hin Hf Hpack.
  unfold download_file_body.
  eapply bind_ok; [reflexivity|]. cbn [fs].
  rewrite bool_decide_eq_true_2 by done. cbn [negb].
  unfold with_socket. eapply bind_ok; [apply socket_run|].
  apply finally_cong.
  eapply bind_ok; [by apply connect_accepted|].
  eapply bind_ok; [by apply send_command_through|].
  eapply bind_ok; [by apply sendall_through|].
  rewrite Hin.
  eapply bind_ok; [apply (recv_data _ _ _ _ _ _ _ _ _ 5)|].
  eapply bind_ok; [reflexivity|].
  rewrite (proj2 (Z.eqb_neq _ _) Hf). reflexivity.
Qed.

(** A chunk worker that cannot connect, nobody listening or the connection
    refused, gives up there and leaves the files as they are. *)
Lemma download_chunk_unconnected cmd file_name destination start_byte end_byte
    chunk_number fs0 ps ss fl lg :
  Forall (fun q => is_Some (refuses q)) ps ->
  exists ss' lg',
    download_chunk cmd file_name destination start_byte end_byte chunk_number
      (World fs0 ps ss fl lg) = (Ok tt, World fs0 (tail ps) ss' fl lg').
Proof.
  intros Hps.
  assert (Hbody : exists e lg1,
    download_chunk_body cmd file_name destination start_byte end_byte
      chunk_number (World fs0 ps ss fl lg) =
    (Raise e, World fs0 (tail ps) (ss ++ [Sock false [] []]) fl lg1)).
  { unfold download_chunk_body, with_socket.
    destruct ps as [|q qs].
    - eexists _, _. eapply bind_ok; [apply socket_run|].
      eapply finally_run; [apply bind_raise, connect_nobody|].
      apply close_run.
    - apply Forall_cons in Hps as [[e He] _].
      eexists _, _. eapply bind_ok; [apply socket_run|].
      eapply finally_run; [by apply bind_raise, connect_refused|].
      apply close_run. }
  destruct Hbody as (e & lg1 & Hbody).
  eexists _, _. unfold download_chunk.
  by rewrite (try_except_raise _ _ _ _ _ Hbody).
Qed.

Lemma download_chunks_unconnected cmd file_name destination file_size
    chunk_count chunk_size fs0 fl (xs : list Z) : forall ps ss lg,
  Forall (fun q => is_Some (refuses q)) ps ->
  exists ps' ss' lg',
    for_each xs (fun i =>
      let '(start_byte, end_byte) :=
        Planner.chunk_range file_size chunk_count chunk_size i in
      start_thread
        (download_chunk cmd file_name destination start_byte end_byte i))
      (World fs0 ps ss fl lg) = (Ok tt, World fs0 ps' ss' fl lg').
Proof.
  induction xs as [|i xs IH]; intros ps ss lg Hps.
  - by eexists _, _, _.
  - cbn [for_each].
    destruct (Planner.chunk_range file_size chunk_count chunk_size i)
      as [start_byte end_byte] eqn:Hrange.
    destruct (download_chunk_unconnected cmd file_name destination
                start_byte end_byte i fs0 ps ss fl (EThreadStart :: lg) Hps)
      as (ss1 & lg1 & Hchunk).
    destruct (IH (tail ps) ss1 lg1) as (ps' & ss' & lg' & Hrun).
    { destruct ps; [done|]. by apply Forall_cons in Hps as [_ ?]. }
    exists ps', ss', lg'.
    eapply bind_ok; [|exact Hrun].
    unfold start_thread, emit. cbn [fs peers socks files log].
    by rewrite Hchunk.
Qed.

End download_facts.

Section download_theorems.
Import Py Client.

Lemma floordiv_run file_size chunk_count w :
  chunk_count <> 0 ->
  lift (Planner.floordiv file_size chunk_count) w =
  (Ok (file_size / chunk_count), w).
Proof.
  intros Hn. unfold lift, Planner.floordiv.
  by rewrite bool_decide_eq_false_2 by done.
Qed.

Lemma be32_nonneg b3 b2 b1 b0 : 0 <= struct.be32 b3 b2 b1 b0.
Proof.
  unfold struct.be32.
  pose proof (Z_of_byte_range b3). pose proof (Z_of_byte_range b2).
  pose proof (Z_of_byte_range b1). pose proof (Z_of_byte_range b0).
  repeat (apply Z.lor_nonneg; split); try apply Z.shiftl_nonneg; lia.
Qed.

(** C4, as the code has it: the server says the file is there and has no
    bytes.  [download_file] makes the destination, or empties it, and then
    seeks to offset [-1] in it, which raises; the method prints that as a
    download error and returns, with the destination left empty, the control
    socket closed, and no chunk worker started. *)
Theorem download_of_empty_file_seeks_back cmd file_name destination
    chunk_count w p ps f more str :
  let path := join destination file_name in
  let fd := length (socks w) in
  let file := length (files w) in
  is_Some (fs w !! destination) ->
  writable (fs w) path = true ->
  peers w = p :: ps ->
  refuses p = None ->
  through (outcomes p) = true ->
  through (tail (outcomes p)) = true ->
  inbox p =
    Data f ("000"%byte :: "000"%byte :: "000"%byte :: "000"%byte :: more)
    :: str ->
  struct.Z_of_byte f <> 0 ->
  0 <= REQUEST_DOWNLOAD cmd <= 255 ->
  strlen file_name <= struct.uint32_max ->
  chunk_count <> 0 ->
  exists header w1,
    struct.pack_BI (REQUEST_DOWNLOAD cmd) (strlen file_name) = Ok header /\
    download_file_body cmd file_name destination chunk_count w =
      (Raise (OSError "[Errno 22] Invalid argument"), w1) /\
    download_file cmd file_name destination chunk_count w =
      (Ok tt,
       emit (EPrint "[FILE DOWNLOAD ERROR] [Errno 22] Invalid argument") w1) /\
    log w1 =
      [EClose fd; ESeek file (-1); EOpen path WB; ERecv fd 5;
       ESend fd (encode file_name); ESend fd header; EConnect fd] ++ log w /\
    fs w1 = <[path := File []]> (fs w) /\
    peers w1 = ps.
Proof.
  intros path fd file Hdest Hw Hpeers Hacc Hs1 Hs2 Hin Hf Hcode Hname Hn.
  destruct w as [fs0 pl ss fl lg]. simpl in *. subst pl.
  destruct (pack_BI_fits (REQUEST_DOWNLOAD cmd) (strlen file_name))
    as [header Hpack]; [done | unfold strlen in *; lia |].
  assert (Hrun : exists w1,
    download_file_body cmd file_name destination chunk_count
      (World fs0 (p :: ps) ss fl lg) =
      (Raise (OSError "[Errno 22] Invalid argument"), w1) /\
    log w1 =
      [EClose fd; ESeek file (-1); EOpen path WB; ERecv fd 5;
       ESend fd (encode file_name); ESend fd header; EConnect fd] ++ lg /\
    fs w1 = <[path := File []]> fs0 /\
    peers w1 = ps).
  { eexists. split.
    - erewrite download_negotiated by done.
      change (struct.be32 _ _ _ _) with 0.
      eapply finally_run; [|apply close_run].
      unfold download_transfer.
      eapply bind_ok; [by apply floordiv_run|].
      apply bind_raise. by apply preallocate_nothing.
    - by repeat split. }
  destruct Hrun as (w1 & Hrun & Hw1).
  exists header, w1. split; [done|]. split; [done|]. split; [|done].
  unfold download_file. by rewrite (try_except_raise _ _ _ _ _ Hrun).
Qed.

Lemma download_of_empty_file_seeks_back_witness :
  exists header w1,
    struct.pack_BI 4 5 = Ok header /\
    download_file_body spec_commands "a.txt" "dl" 4 Scenario.empty_download =
      (Raise (OSError "[Errno 22] Invalid argument"), w1) /\
    download_file spec_commands "a.txt" "dl" 4 Scenario.empty_download =
      (Ok tt,
       emit (EPrint "[FILE DOWNLOAD ERROR] [Errno 22] Invalid argument") w1) /\
    log w1 =
      [EClose 0; ESeek 0 (-1); EOpen "dl/a.txt" WB; ERecv 0 5;
       ESend 0 (encode "a.txt"); ESend 0 header; EConnect 0] /\
    fs w1 = <["dl/a.txt" := File []]> Scenario.disk /\
    peers w1 = [].
Proof.
  apply (download_of_empty_file_seeks_back spec_commands "a.txt" "dl" 4
           Scenario.empty_download (Scenario.answering [1; 0; 0; 0; 0]) []
           "001"%byte [] []); try reflexivity.
  - by eexists.
  - vm_compute. discriminate.
  - simpl. lia.
  - vm_compute. discriminate.
  - lia.
Defined.

Lemma finally_close {A} (m : M A) fd w r w1 :
  m w = (r, w1) ->
  exists w2, finally m (close fd) w = (r, w2) /\ fs w2 = fs w1.
Proof.
  intros Hm. eexists. split; [by eapply finally_run|]. reflexivity.
Qed.

(** With [chunk_count = 0] the division of line 159 raises before the
    destination is opened: the local file is not touched. *)
Lemma download_in_no_chunks cmd file_name destination
    fs0 p ps ss fl lg f b3 b2 b1 b0 more str header :
  is_Some (fs0 !! destination) ->
  refuses p = None ->
  through (outcomes p) = true ->
  through (tail (outcomes p)) = true ->
  inbox p = Data f (b3 :: b2 :: b1 :: b0 :: more) :: str ->
  struct.Z_of_byte f <> 0 ->
  struct.pack_BI (REQUEST_DOWNLOAD cmd) (strlen file_name) = Ok header ->
  exists w1,
    download_file_body cmd file_name destination 0
      (World fs0 (p :: ps) ss fl lg) =
    (Raise (ZeroDivisionError "integer division or modulo by zero"), w1) /\
    fs w1 = fs0.
Proof.
  intros Hdest Hacc Hs1 Hs2 Hin Hf Hpack.
  rewrite (download_negotiated cmd file_name destination 0
             fs0 p ps ss fl lg f b3 b2 b1 b0 more
             str header Hdest Hacc Hs1 Hs2 Hin Hf Hpack).
  eexists. split.
  - eapply finally_run; [|apply close_run].
    unfold download_transfer. by apply bind_raise.
  - reflexivity.
Qed.

(** The claim C10 does not hold of the code as it stands: the truncation is
    not unconditional.  With [chunk_count = 0] the negotiation succeeds, the
    division of line 159 raises before line 162 opens the destination, and
    the local file keeps its content. *)
Lemma zero_chunks_keep_local_file :
  fs Scenario.failed_download !! "dl/a.txt" =
    Some (File (Scenario.bs [7; 7; 7; 7])) /\
  exists w1,
    download_file spec_commands "a.txt" "dl" 0 Scenario.failed_download =
      (Ok tt,
       emit (EPrint
               "[FILE DOWNLOAD ERROR] integer division or modulo by zero") w1) /\
    log w1 =
      [EClose 0; ERecv 0 5; ESend 0 (encode "a.txt");
       ESend 0 (Scenario.bs [4; 0; 0; 0; 5]); EConnect 0] /\
    fs w1 !! "dl/a.txt" = Some (File (Scenario.bs [7; 7; 7; 7])).
Proof.
  split; [reflexivity|].
  exists (World Scenario.disk
            [Scenario.refusing; Scenario.refusing; Scenario.refusing;
             Scenario.refusing]
            [Sock false [] []] []
            [EClose 0; ERecv 0 5; ESend 0 (encode "a.txt");
             ESend 0 (Scenario.bs [4; 0; 0; 0; 5]); EConnect 0]).
  split; [|split]; vm_compute; reflexivity.
Qed.

(** C10, amended: the destination folder is there and holds a regular file
    under the requested name; the server says the file is there and gives
    its size; the file is to come in some number of chunks other than none
    ([chunk_count <> 0]: with none the file is not touched).  Then what
    the local file held has no part in what [download_file] does: started on
    any other content it ends in the same world.  That is the work of the
    preallocation, which opens the file with ['wb'] and, whatever world it
    runs in, leaves [file_size] zero bytes in the place of the old content.
    And when every chunk transfer then fails, no chunk connection being
    accepted, the local file is left as those zero bytes, the old content
    gone. *)
Theorem download_overwrites_local_file cmd file_name destination chunk_count
    w p ps f b3 b2 b1 b0 more str old :
  let path := join destination file_name in
  let file_size := struct.be32 b3 b2 b1 b0 in
  is_Some (fs w !! destination) ->
  fs w !! path = Some (File old) ->
  peers w = p :: ps ->
  refuses p = None ->
  through (outcomes p) = true ->
  through (tail (outcomes p)) = true ->
  inbox p = Data f (b3 :: b2 :: b1 :: b0 :: more) :: str ->
  struct.Z_of_byte f <> 0 ->
  0 <= REQUEST_DOWNLOAD cmd <= 255 ->
  strlen file_name <= struct.uint32_max ->
  chunk_count <> 0 ->
  (forall old',
     download_file cmd file_name destination chunk_count
       (set_fs (fun t => <[path := File old']> t) w) =
     download_file cmd file_name destination chunk_count w) /\
  (forall w0,
     fs w0 !! path = Some (File old) ->
     exists r w1,
       preallocate path file_size w0 = (r, w1) /\
       fs w1 =
         <[path := File (replicate (Z.to_nat file_size) "000"%byte)]> (fs w0)) /\
  (Forall (fun q => is_Some (refuses q)) ps ->
   exists w',
     download_file cmd file_name destination chunk_count w = (Ok tt, w') /\
     fs w' =
       <[path := File (replicate (Z.to_nat file_size) "000"%byte)]> (fs w)).
Proof.
  intros path file_size Hdest Hold Hpeers Hacc Hs1 Hs2 Hin Hf Hcode Hname Hn.
  destruct w as [fs0 pl ss fl lg]. simpl in *. subst pl.
  destruct (pack_BI_fits (REQUEST_DOWNLOAD cmd) (strlen file_name))
    as [header Hpack]; [done | unfold strlen in *; lia |].
  pose proof (be32_nonneg b3 b2 b1 b0) as Hsize. fold file_size in Hsize.
  assert (Hwritable : writable fs0 path = true).
  { unfold writable. by rewrite Hold. }
  split; [|split].
  2:{ intros [fs1 ps1 ss1 fl1 lg1] Hold1. cbn [fs] in *.
      assert (Hw1 : writable fs1 path = true).
      { unfold writable. by rewrite Hold1. }
      destruct (decide (file_size = 0)) as [Hzero|Hpos].
      - rewrite Hzero. eexists _, _. split; [by apply preallocate_nothing|].
        reflexivity.
      - eexists _, _. split; [apply preallocate_sized; [done|lia]|].
        reflexivity. }
  - intros old'. unfold download_file, set_fs. cbn [fs peers socks files log].
    apply try_except_cong.
    assert (Hdest' : is_Some (<[path := File old']> fs0 !! destination)).
    { destruct (decide (path = destination)) as [Heq|Hne].
      - rewrite <- Heq, lookup_insert_eq. by eexists.
      - by rewrite lookup_insert_ne. }
    rewrite (download_negotiated cmd file_name destination chunk_count
               (<[path := File old']> fs0) p ps ss fl lg f b3 b2 b1 b0 more
               str header Hdest' Hacc Hs1 Hs2 Hin Hf Hpack).
    rewrite (download_negotiated cmd file_name destination chunk_count
               fs0 p ps ss fl lg f b3 b2 b1 b0 more
               str header Hdest Hacc Hs1 Hs2 Hin Hf Hpack).
    apply finally_cong. unfold download_transfer.
    eapply bind_ok; [by apply floordiv_run|]. symmetry.
    eapply bind_ok; [by apply floordiv_run|].
    apply bind_cong. fold path file_size.
    rewrite preallocate_forgets by done.
    rewrite <- (insert_id fs0 path (File old)) at 1 by done.
    by rewrite preallocate_forgets.
  - intros Hps.
    pose proof (download_negotiated cmd file_name destination chunk_count
                  fs0 p ps ss fl lg f b3 b2 b1 b0 more
                  str header Hdest Hacc Hs1 Hs2 Hin Hf Hpack) as Hneg.
    fold path file_size in Hneg. unfold download_file.
    destruct (decide (file_size = 0)) as [Hzero|Hpos].
    + rewrite Hzero in *.
      edestruct (finally_close
        (download_transfer cmd file_name destination 0 chunk_count)
        (length ss)) as (w2 & Hfin & Hfs).
      { unfold download_transfer.
        eapply bind_ok; [by apply floordiv_run|].
        apply bind_raise. fold path. by apply preallocate_nothing. }
      rewrite <- Hneg in Hfin.
      rewrite (try_except_raise _ _ _ _ _ Hfin).
      eexists. split; [reflexivity|]. simpl. by rewrite Hfs.
    + edestruct (download_chunks_unconnected cmd file_name destination
        file_size chunk_count (file_size / chunk_count)
        (<[path := File (replicate (Z.to_nat file_size) "000"%byte)]> fs0)
        (fl ++ [Fobj path WB (Z.to_nat file_size)])
        (Planner.range chunk_count) ps) as (ps' & ss' & lg' & Hloop);
        [exact Hps|].
      edestruct (finally_close
        (download_transfer cmd file_name destination file_size chunk_count)
        (length ss)) as (w2 & Hfin & Hfs).
      { unfold download_transfer.
        eapply bind_ok; [by apply floordiv_run|]. fold path.
        eapply bind_ok; [apply preallocate_sized; [done|lia]|].
        eapply bind_ok; [exact Hloop|]. reflexivity. }
      rewrite <- Hneg in Hfin.
      rewrite (try_except_ok _ _ _ _ _ Hfin).
      eexists. split; [reflexivity|]. by rewrite Hfs.
Qed.

Lemma download_overwrites_local_file_witness :
  (forall old',
     download_file spec_commands "a.txt" "dl" 4
       (set_fs (fun t => <["dl/a.txt" := File old']> t)
          Scenario.failed_download) =
     download_file spec_commands "a.txt" "dl" 4 Scenario.failed_download) /\
  (exists r w1,
     preallocate "dl/a.txt" 10 Scenario.failed_download = (r, w1) /\
     fs w1 = <["dl/a.txt" := File (replicate 10 "000"%byte)]> Scenario.disk) /\
  (exists w',
     download_file spec_commands "a.txt" "dl" 4 Scenario.failed_download =
       (Ok tt, w') /\
     fs w' = <["dl/a.txt" := File (replicate 10 "000"%byte)]> Scenario.disk).
Proof.
  destruct (download_overwrites_local_file spec_commands "a.txt" "dl" 4
              Scenario.failed_download (Scenario.answering [1; 0; 0; 0; 10])
              (replicate 4 Scenario.refusing)
              "001"%byte "000"%byte "000"%byte "000"%byte "010"%byte [] []
              (Scenario.bs [7; 7; 7; 7])) as (Hany & Hpre & Hfail);
    try reflexivity.
  - by eexists.
  - vm_compute. discriminate.
  - simpl. lia.
  - vm_compute. discriminate.
  - lia.
  - split; [exact Hany|]. split.
    + apply (Hpre Scenario.failed_download). reflexivity.
    + apply Hfail. repeat constructor; by eexists.
Defined.

End download_theorems.

(** ** Runs *)
Section runs.
Import Py Client.

(** One run, the workers taken one after the other as [start_thread] has
    them.  Three bytes uploaded in four chunks: the first three workers stop
    at the end offset [-1], the fourth sends the whole file. *)
Example small_upload_run :
  let '(r, w) :=
    upload_file spec_commands "data/a.txt" 4 Scenario.small_upload in
  r = Ok tt /\
  filter (fun e => bool_decide (net_event e = false)) (history w) =
    [EThreadStart;
     EPrint "[CHUNK UPLOAD ERROR] argument out of range";
     EThreadStart;
     EPrint "[CHUNK UPLOAD ERROR] argument out of range";
     EThreadStart;
     EPrint "[CHUNK UPLOAD ERROR] argument out of range";
     EThreadStart;
     EOpen "data/a.txt" RB; ESeek 0 0; ERead 0 3;
     ESignal "chunk_uploaded" 3;
     EPrint "Chunk 3 uploaded from 0 to 2"].
Proof. vm_compute. split; reflexivity. Qed.

(** One run, the workers taken one after the other.  Ten bytes downloaded
    in four chunks over a local file of four bytes, the third chunk cut
    short: its range keeps the zero bytes of the preallocation. *)
Example partial_download_run :
  let '(r, w) :=
    download_file spec_commands "a.txt" "dl" 4 Scenario.partial_download in
  r = Ok tt /\
  fs w !! "dl/a.txt" =
    Some (File (Scenario.bs [11; 12; 13; 14; 0; 0; 17; 18; 19; 20])) /\
  filter (fun e => bool_decide (net_event e = false)) (history w) =
    [EOpen "dl/a.txt" WB; ESeek 0 9; EWrite 0 ["000"%byte];
     EThreadStart; EOpen "dl/a.txt" RplusB; ESeek 1 0;
     EWrite 1 (Scenario.bs [11; 12]); ESignal "chunk_downloaded" 0;
     EPrint "Chunk 0 downloaded from 0 to 1";
     EThreadStart; EOpen "dl/a.txt" RplusB; ESeek 2 2;
     EWrite 2 (Scenario.bs [13; 14]); ESignal "chunk_downloaded" 1;
     EPrint "Chunk 1 downloaded from 2 to 3";
     EThreadStart; EOpen "dl/a.txt" RplusB; ESeek 3 4;
     EPrint
       "[CHUNK DOWNLOAD ERROR] Socket connection closed before receiving all data";
     EThreadStart; EOpen "dl/a.txt" RplusB; ESeek 4 6;
     EWrite 4 (Scenario.bs [17; 18; 19; 20]); ESignal "chunk_downloaded" 3;
     EPrint "Chunk 3 downloaded from 6 to 9"].
Proof. vm_compute. repeat split; reflexivity. Qed.

(** A server that answers a ping with a byte that is not zero. *)
Example ping_alive :
  fst (ping spec_commands Scenario.alive) = Ok true /\
  fst (ping spec_commands (Scenario.start [])) = Ok false /\
  fst (ping spec_commands (Scenario.start [Scenario.answering []])) =
    Ok false.
Proof. vm_compute. repeat split; reflexivity. Qed.

End runs.

(** * Further properties *)

(** ** Integers on the wire *)
Section integers.
Import Py Client.

Lemma pack_I_fits value :
  0 <= value <= struct.uint32_max ->
  struct.pack_I value =
  Ok [struct.byte_of_Z (Z.shiftr value 24); struct.byte_of_Z (Z.shiftr value 16);
      struct.byte_of_Z (Z.shiftr value 8); struct.byte_of_Z value].
Proof.
  intros Hv. unfold struct.pack_I. by rewrite bool_decide_eq_true_2.
Qed.

Lemma recv_int_run fs0 ps ss pend b p str fl lg :
  recv_int (length ss)
    (World fs0 ps (ss ++ [Sock true pend (Data b p :: str)]) fl lg) =
  (struct.unpack_I (take 4 (b :: p)),
   World fs0 ps (ss ++ [Sock true pend (rest_after 4 b p str)]) fl
     (ERecv (length ss) 4 :: lg)).
Proof.
  unfold recv_int. eapply bind_ok; [apply (recv_data _ _ _ _ _ _ _ _ _ 4)|].
  reflexivity.
Qed.

(** X1: a number from [0] to [2^32 - 1] that one side sends with [send_int]
    is what the other side's [recv_int] returns when the four bytes arrive
    in one piece; bytes that come behind them in the same piece stay in the
    stream. *)
Theorem send_int_recv_int value :
  0 <= value <= struct.uint32_max ->
  exists b3 b2 b1 b0,
    (forall sock w,
       send_int sock value w = sendall sock [b3; b2; b1; b0] w) /\
    (forall fs0 ps ss pend more str fl lg,
       recv_int (length ss)
         (World fs0 ps
            (ss ++ [Sock true pend (Data b3 (b2 :: b1 :: b0 :: more) :: str)])
            fl lg) =
       (Ok value,
        World fs0 ps
          (ss ++ [Sock true pend
                    (match more with
                     | [] => str
                     | b :: p => Data b p :: str
                     end)])
          fl (ERecv (length ss) 4 :: lg))).
Proof.
  intros Hv. eexists _, _, _, _. split.
  - intros sock w. unfold send_int. by rewrite pack_I_fits.
  - intros fs0 ps ss pend more str fl lg. rewrite recv_int_run.
    cbn [take]. unfold struct.unpack_I. rewrite be32_pack by done.
    f_equal.
Qed.

Lemma send_int_recv_int_witness :
  exists b3 b2 b1 b0,
    (forall sock w,
       send_int sock 4294967295 w = sendall sock [b3; b2; b1; b0] w) /\
    (forall fs0 ps ss pend more str fl lg,
       recv_int (length ss)
         (World fs0 ps
            (ss ++ [Sock true pend (Data b3 (b2 :: b1 :: b0 :: more) :: str)])
            fl lg) =
       (Ok 4294967295,
        World fs0 ps
          (ss ++ [Sock true pend
                    (match more with
                     | [] => str
                     | b :: p => Data b p :: str
                     end)])
          fl (ERecv (length ss) 4 :: lg))).
Proof. apply (send_int_recv_int 4294967295). unfold struct.uint32_max. lia. Defined.

(** X2: a number that does not fit its field, below zero or above
    [2^32 - 1] for [send_int] and for the length of [send_command], outside
    [0..255] for the command code, makes the call raise with nothing sent:
    the world is as before. *)
Theorem unfit_numbers_send_nothing sock w :
  (forall value,
     value < 0 \/ struct.uint32_max < value ->
     exists msg, send_int sock value w = (Raise (StructError msg), w)) /\
  (forall command data_length,
     command < 0 \/ 255 < command \/
     data_length < 0 \/ struct.uint32_max < data_length ->
     exists msg,
       send_command sock command data_length w = (Raise (StructError msg), w)).
Proof.
  split.
  - intros value Hv. unfold send_int, struct.pack_I.
    rewrite bool_decide_eq_false_2 by lia. by eexists.
  - intros command data_length Hv.
    unfold send_command, struct.pack_BI, struct.pack_B, struct.pack_I.
    destruct (decide (0 <= command <= 255)) as [Hc|Hc].
    + rewrite (bool_decide_eq_true_2 _ Hc).
      rewrite bool_decide_eq_false_2 by lia. by eexists.
    + rewrite (bool_decide_eq_false_2 _ Hc). by eexists.
Qed.

(** X3: [recv_int] reads once.  When the first piece to arrive has fewer
    than four bytes it raises [struct.error], whatever comes after on the
    stream; the bytes of that piece are used up. *)
Theorem recv_int_reads_once fs0 ps ss pend b p str fl lg :
  (length p < 3)%nat ->
  exists msg,
    recv_int (length ss)
      (World fs0 ps (ss ++ [Sock true pend (Data b p :: str)]) fl lg) =
    (Raise (StructError msg),
     World fs0 ps (ss ++ [Sock true pend str]) fl
       (ERecv (length ss) 4 :: lg)).
Proof.
  intros Hshort. rewrite recv_int_run. unfold rest_after.
  destruct p as [|b2 [|b1 [|b0 p]]]; simpl in *; try lia; by eexists.
Qed.

Lemma recv_int_reads_once_witness :
  exists msg,
    recv_int 0
      (World Scenario.disk []
         ([] ++ [Sock true []
                   (Data "000"%byte ["000"%byte] ::
                    [Data "000"%byte ["007"%byte]])]) [] []) =
    (Raise (StructError msg),
     World Scenario.disk []
       ([] ++ [Sock true [] [Data "000"%byte ["007"%byte]]]) []
       (ERecv 0 4 :: [])).
Proof.
  apply (recv_int_reads_once Scenario.disk [] [] [] "000"%byte ["000"%byte]
           [Data "000"%byte ["007"%byte]] [] []).
  simpl. lia.
Defined.

End integers.

(** ** list_files and delete_file *)
Section listing_and_deletion.
Import Py Client.

Lemma net_only_ret {A} (a : A) : net_only (mret a : M A).
Proof. intros w r w' [= _ <-]. apply quiet_refl. Qed.

Lemma net_only_raise {A} (e : exn) : net_only (raise e : M A).
Proof. intros w r w' [= _ <-]. apply quiet_refl. Qed.

Lemma net_only_recv_bool sock : net_only (recv_bool sock).
Proof.
  apply net_only_bind; [apply net_only_recv | intros buf; apply net_only_lift].
Qed.

Lemma net_only_recv_int sock : net_only (recv_int sock).
Proof.
  apply net_only_bind; [apply net_only_recv | intros buf; apply net_only_lift].
Qed.

Lemma net_only_recv_all_loop sock n data w r w' :
  recv_all_loop sock n data w = (r, w') -> quiet w w'.
Proof.
  funelim (recv_all_loop sock n data w); intros Hrun.
  - injection Hrun as _ <-. apply quiet_refl.
  - injection Hrun as _ <-.
    match goal with
    | H : recv _ _ _ = _ |- _ => exact (net_only_recv _ _ _ _ _ H)
    end.
  - match goal with
    | H : recv _ _ _ = _ |- _ => pose proof (net_only_recv _ _ _ _ _ H)
    end.
    eapply quiet_trans; [eassumption|].
    match goal with
    | IH : forall r w', _ -> quiet _ w' |- _ => by eapply IH
    end.
  - injection Hrun as _ <-.
    match goal with
    | H : recv _ _ _ = _ |- _ => exact (net_only_recv _ _ _ _ _ H)
    end.
Qed.

Lemma net_only_recv_all sock n : net_only (recv_all sock n).
Proof. intros w r w'. apply net_only_recv_all_loop. Qed.

Lemma net_only_list_files_body cmd : net_only (list_files_body cmd).
Proof.
  apply net_only_with_socket. intros sock.
  apply net_only_bind; [apply net_only_connect | intros _].
  apply net_only_bind; [apply net_only_send_command | intros _].
  apply net_only_bind; [apply net_only_recv_int | intros n].
  apply net_only_bind; [apply net_only_recv_all | intros files].
  apply net_only_bind; [apply net_only_lift | intros listing].
  apply net_only_ret.
Qed.

(** X4: the server accepts the connection, takes the LIST request and sends
    the length [n] of the listing in one piece, then bytes in whatever
    pieces, and closes.  If at least [n] bytes come, the first [n] of them
    are decoded: when they are UTF-8, [list_files] returns the text and
    prints nothing; when they are not, it prints the decoding error and
    returns [None].  If fewer come, it prints that the connection was closed
    too soon and returns [None].  In all cases only the network was used. *)
Theorem list_files_outcomes cmd w p ps b3 b2 b1 b0 more rem :
  let n := struct.be32 b3 b2 b1 b0 in
  let rest := rest_after 4 b3 (b2 :: b1 :: b0 :: more) rem in
  let data := take (Z.to_nat n) (payload rest) in
  peers w = p :: ps ->
  refuses p = None ->
  through (outcomes p) = true ->
  inbox p = Data b3 (b2 :: b1 :: b0 :: more) :: rem ->
  faultless rest = true ->
  0 <= LIST cmd <= 255 ->
  (n <= len (payload rest) ->
   (forall listing,
      decode data = Ok listing ->
      exists w',
        list_files cmd w = (Ok (Some listing), w') /\ quiet w w') /\
   (forall e,
      decode data = Raise e ->
      exists w1,
        list_files cmd w =
          (Ok None, emit (EPrint ("[FILE LISTING ERROR] " +:+ str e)) w1) /\
        quiet w w1)) /\
  (len (payload rest) < n ->
   exists w1,
     list_files cmd w =
       (Ok None,
        emit (EPrint
                "[FILE LISTING ERROR] Socket connection closed before receiving all data")
          w1) /\
     quiet w w1).
Proof.
  intros n rest data Hpeers Hacc Hsend Hin Hok Hcode.
  destruct w as [fs0 pl ss fl lg]. simpl in Hpeers. subst pl.
  destruct (pack_BI_fits (LIST cmd) 0) as [header Hpack];
    [done | unfold struct.uint32_max; lia |].
  pose proof (be32_nonneg b3 b2 b1 b0) as Hn. fold n in Hn.
  set (wc := World fs0 ps (ss ++ [Sock true (tail (outcomes p)) rest]) fl
               (ERecv (length ss) 4 :: ESend (length ss) header ::
                EConnect (length ss) :: lg)).
  destruct (recv_all_loop_stream rest (length ss) n [] wc
              (tail (outcomes p))) as [w2 Hloop];
    [apply last_sock_lookup | done | unfold len; simpl; lia |].
  change (len []) with 0 in Hloop. rewrite Z.add_0_l, Z.sub_0_r in Hloop.
  change ([] ++ take (Z.to_nat n) (payload rest)) with data in Hloop.
  assert (Hbody : forall r,
    (files ← recv_all (length ss) n;
     listing ← lift (decode files); mret (Some listing)) wc = (r, w2) ->
    exists w3,
      list_files_body cmd (World fs0 (p :: ps) ss fl lg) = (r, w3)).
  { intros r Hr.
    destruct (finally_close
      (connect (length ss);; send_command (length ss) (LIST cmd) 0;;
       n ← recv_int (length ss);
       files ← recv_all (length ss) n;
       listing ← lift (decode files); mret (Some listing))
      (length ss)
      (World fs0 (p :: ps) (ss ++ [Sock false [] []]) fl lg) r w2)
      as (w3 & Hfin & _).
    - eapply bind_ok; [by apply connect_accepted|].
      eapply bind_ok; [by eapply send_command_through|].
      rewrite Hin.
      eapply bind_ok; [rewrite recv_int_run; reflexivity|]. exact Hr.
    - exists w3. unfold list_files_body, with_socket.
      eapply bind_ok; [apply socket_run|]. exact Hfin. }
  split.
  - intros Hlong. rewrite bool_decide_eq_false_2 in Hloop by lia. split.
    + intros listing Hdecode.
      destruct (Hbody (Ok (Some listing))) as [w3 Hrun].
      { eapply bind_ok; [exact Hloop|].
        eapply bind_ok; [unfold lift; by rewrite Hdecode|]. reflexivity. }
      exists w3. split.
      * unfold list_files. by rewrite (try_except_ok _ _ _ _ _ Hrun).
      * by eapply net_only_list_files_body.
    + intros e Hdecode.
      destruct (Hbody (Raise e)) as [w3 Hrun].
      { eapply bind_ok; [exact Hloop|].
        apply bind_raise. unfold lift. by rewrite Hdecode. }
      exists w3. split.
      * unfold list_files. by rewrite (try_except_raise _ _ _ _ _ Hrun).
      * by eapply net_only_list_files_body.
  - intros Hshort. rewrite bool_decide_eq_true_2 in Hloop by lia.
    destruct (Hbody (Raise closed_early)) as [w3 Hrun].
    { by apply bind_raise. }
    exists w3. split.
    + unfold list_files. by rewrite (try_except_raise _ _ _ _ _ Hrun).
    + by eapply net_only_list_files_body.
Qed.

Lemma list_files_outcomes_witness :
  (exists w',
     list_files spec_commands Scenario.listing = (Ok (Some [97; 10; 98]), w') /\
     quiet Scenario.listing w') /\
  (exists w1,
     list_files spec_commands Scenario.bad_listing =
       (Ok None,
        emit (EPrint
                "[FILE LISTING ERROR] 'utf-8' codec can't decode byte 0xff in position 0: invalid start byte")
          w1) /\
     quiet Scenario.bad_listing w1) /\
  (exists w1,
     list_files spec_commands Scenario.short_listing =
       (Ok None,
        emit (EPrint
                "[FILE LISTING ERROR] Socket connection closed before receiving all data")
          w1) /\
     quiet Scenario.short_listing w1).
Proof.
  split; [|split].
  - destruct (list_files_outcomes spec_commands Scenario.listing
                (Scenario.answering [0; 0; 0; 3; 97; 10; 98]) []
                "000"%byte "000"%byte "000"%byte "003"%byte
                (Scenario.bs [97; 10; 98]) []) as [Hlong _];
      try reflexivity.
    + vm_compute. split; discriminate.
    + destruct Hlong as [Htext _]; [vm_compute; discriminate|].
      apply Htext. reflexivity.
  - destruct (list_files_outcomes spec_commands Scenario.bad_listing
                (Scenario.answering [0; 0; 0; 1; 255]) []
                "000"%byte "000"%byte "000"%byte "001"%byte
                (Scenario.bs [255]) []) as [Hlong _];
      try reflexivity.
    + vm_compute. split; discriminate.
    + destruct Hlong as [_ Hbad]; [vm_compute; discriminate|].
      apply (Hbad (cannot_decode "255"%byte 0 1 "invalid start byte")).
      reflexivity.
  - destruct (list_files_outcomes spec_commands Scenario.short_listing
                (Scenario.answering [0; 0; 0; 3; 97]) []
                "000"%byte "000"%byte "000"%byte "003"%byte
                (Scenario.bs [97]) []) as [_ Hshort];
      try reflexivity.
    + vm_compute. split; discriminate.
    + apply Hshort. vm_compute. reflexivity.
Defined.

(** X5: the server accepts the connection, takes the DELETE request and
    answers with one byte.  [delete_file] returns in both cases, having made
    one connection, sent the header and the name, read one byte and closed;
    the local files are as before.  The header announces [len(file_name)],
    the number of characters, and the name goes out in UTF-8, so a name that
    is not ASCII is announced shorter than it is sent.  When the byte is not
    zero nothing is printed; when it is zero the one thing printed is that
    the file is not on the server. *)
Theorem delete_file_outcomes cmd file_name w p ps b rest str :
  peers w = p :: ps ->
  refuses p = None ->
  through (outcomes p) = true ->
  through (tail (outcomes p)) = true ->
  inbox p = Data b rest :: str ->
  0 <= DELETE cmd <= 255 ->
  strlen file_name <= struct.uint32_max ->
  let fd := length (socks w) in
  exists header w1,
    struct.pack_BI (DELETE cmd) (strlen file_name) = Ok header /\
    log w1 =
      [EClose fd; ERecv fd 1; ESend fd (encode file_name); ESend fd header;
       EConnect fd] ++ log w /\
    fs w1 = fs w /\
    delete_file cmd file_name w =
      (Ok tt,
       if struct.Z_of_byte b =? 0
       then emit (EPrint "[FILE DELETION ERROR] File is not on the server") w1
       else w1).
Proof.
  intros Hpeers Hacc Hs1 Hs2 Hin Hcode Hname fd.
  destruct w as [fs0 pl ss fl lg]. simpl in *. subst pl.
  destruct (pack_BI_fits (DELETE cmd) (strlen file_name)) as [header Hpack];
    [done | unfold strlen in *; lia |].
  assert (Hbody :
    delete_file_body cmd file_name (World fs0 (p :: ps) ss fl lg) =
    ((if struct.Z_of_byte b =? 0
      then Raise (FileNotFoundError "File is not on the server")
      else Ok tt),
     World fs0 ps
       (ss ++ [Sock false (tail (tail (outcomes p))) (rest_after 1 b rest str)])
       fl
       ([EClose fd; ERecv fd 1; ESend fd (encode file_name); ESend fd header;
         EConnect fd] ++ lg))).
  { unfold delete_file_body, with_socket.
    eapply bind_ok; [apply socket_run|].
    eapply finally_run.
    - eapply bind_ok; [by apply connect_accepted|].
      eapply bind_ok; [by apply send_command_through|].
      eapply bind_ok; [by apply sendall_through|].
      rewrite Hin.
      eapply bind_ok; [apply recv_bool_answer|].
      destruct (struct.Z_of_byte b =? 0); reflexivity.
    - apply close_run. }
  match type of Hbody with _ = (_, ?w1) => exists header, w1 end.
  split; [done|]. split; [reflexivity|]. split; [reflexivity|].
  unfold delete_file, try_except. rewrite Hbody.
  destruct (struct.Z_of_byte b =? 0); reflexivity.
Qed.

Lemma delete_file_outcomes_witness :
  exists w1,
    log w1 =
      [EClose 0; ERecv 0 1;
       ESend 0 (Scenario.bs [195; 169; 46; 116; 120; 116]);
       ESend 0 (Scenario.bs [6; 0; 0; 0; 5]); EConnect 0] /\
    fs w1 = Scenario.disk /\
    delete_file spec_commands Scenario.accented Scenario.denied =
      (Ok tt,
       emit (EPrint "[FILE DELETION ERROR] File is not on the server") w1).
Proof.
  destruct (delete_file_outcomes spec_commands Scenario.accented
              Scenario.denied (Scenario.answering [0]) [] "000"%byte [] [])
    as (header & w1 & Hpack & Hlog & Hfs & Hrun); try reflexivity.
  - simpl. lia.
  - vm_compute. discriminate.
  - exists w1. injection Hpack as <-. split; [exact Hlog|].
    split; [exact Hfs | exact Hrun].
Defined.

End listing_and_deletion.

(** ** Invariants: how they pass through the monad *)
Section respecting.
Import Py Client.
Variable R : world -> world -> Prop.
Hypothesis R_refl : forall w, R w w.
Hypothesis R_trans : forall w1 w2 w3, R w1 w2 -> R w2 w3 -> R w1 w3.

Lemma respects_ret {A} (a : A) : respects R (mret a : M A).
Proof. intros w r w' [= _ <-]. apply R_refl. Qed.

Lemma respects_raise {A} (e : exn) : respects R (raise e : M A).
Proof. intros w r w' [= _ <-]. apply R_refl. Qed.

Lemma respects_lift {A} (x : result A) : respects R (lift x).
Proof. intros w r w' [= _ <-]. apply R_refl. Qed.

Lemma respects_bind {A B} (m : M A) (k : A -> M B) :
  respects R m -> (forall a, respects R (k a)) -> respects R (m ≫= k).
Proof.
  intros Hm Hk w r w'. unfold mbind, M_bind, bind.
  destruct (m w) as [[a|e] w1] eqn:Hrun.
  - intros Hrest. eapply R_trans; [by eapply Hm | by eapply Hk].
  - intros [= _ <-]. by eapply Hm.
Qed.

Lemma respects_finally {A} (m : M A) (exit : M unit) :
  respects R m -> respects R exit -> respects R (finally m exit).
Proof.
  intros Hm Hexit w r w'. unfold finally.
  destruct (m w) as [r1 w1] eqn:Hrun.
  destruct (exit w1) as [[[]|e] w2] eqn:Hout; intros [= _ <-];
    (eapply R_trans; [by eapply Hm | by eapply Hexit]).
Qed.

Lemma respects_try_except {A} (m : M A) (h : exn -> M A) :
  respects R m -> (forall e, respects R (h e)) -> respects R (try_except m h).
Proof.
  intros Hm Hh w r w'. unfold try_except.
  destruct (m w) as [[a|e] w1] eqn:Hrun.
  - intros [= _ <-]. by eapply Hm.
  - intros Hrest. eapply R_trans; [by eapply Hm | by eapply Hh].
Qed.

Lemma respects_for_each {A} (xs : list A) (body : A -> M unit) :
  (forall x, respects R (body x)) -> respects R (for_each xs body).
Proof.
  intros Hbody. induction xs as [|x xs IH]; cbn [for_each].
  - apply respects_ret.
  - apply respects_bind; [apply Hbody | intros _; apply IH].
Qed.

Lemma respects_with_open {A} path m (body : nat -> M A) :
  respects R (open path m) -> (forall file, respects R (body file)) ->
  respects R (with_open path m body).
Proof.
  intros Hopen Hbody. apply respects_bind; [done|]. intros file.
  apply respects_finally; [apply Hbody | apply respects_ret].
Qed.

Lemma respects_with_socket {A} (body : nat -> M A) :
  respects R socket -> (forall sock, respects R (close sock)) ->
  (forall sock, respects R (body sock)) -> respects R (with_socket body).
Proof.
  intros Hsocket Hclose Hbody. apply respects_bind; [done|]. intros sock.
  apply respects_finally; [apply Hbody | apply Hclose].
Qed.

(** The events logged do not matter to [R]. *)
Hypothesis R_emit : forall e w, R w (emit e w).

Lemma respects_tell e : respects R (tell e).
Proof. intros w r w' [= _ <-]. apply R_emit. Qed.

Lemma respects_start_thread (target : M unit) :
  respects R target -> respects R (start_thread target).
Proof.
  intros Ht w r w'. unfold start_thread.
  destruct (target (emit EThreadStart w)) as [r1 w1] eqn:Hrun.
  intros [= _ <-]. eapply R_trans; [apply R_emit | by eapply Ht].
Qed.

Lemma respects_recv_all_loop sock n data :
  (forall k, respects R (recv sock k)) ->
  respects R (recv_all_loop sock n data).
Proof.
  intros Hrecv w. funelim (recv_all_loop sock n data w); intros r0 w0 Hrun.
  - injection Hrun as _ <-. apply R_refl.
  - injection Hrun as _ <-.
    match goal with H : recv _ _ _ = _ |- _ => exact (Hrecv _ _ _ _ H) end.
  - match goal with
    | H : recv _ _ _ = _ |- _ => pose proof (Hrecv _ _ _ _ H)
    end.
    eapply R_trans; [eassumption|].
    match goal with
    | IH : (forall k, respects R _) -> forall r w', _ -> R _ w' |- _ =>
        by eapply IH
    end.
  - injection Hrun as _ <-.
    match goal with H : recv _ _ _ = _ |- _ => exact (Hrecv _ _ _ _ H) end.
Qed.

End respecting.

(** ** What the methods leave of the local files *)
Section file_frames.
Import Py Client.

Lemma same_fs_refl w : same_fs w w.
Proof. done. Qed.

Lemma same_fs_trans w1 w2 w3 : same_fs w1 w2 -> same_fs w2 w3 -> same_fs w1 w3.
Proof. unfold same_fs. congruence. Qed.

Lemma same_fs_emit e w : same_fs w (emit e w).
Proof. done. Qed.

Lemma same_fs_but_refl path w : same_fs_but path w w.
Proof. by intros q _. Qed.

Lemma same_fs_but_trans path w1 w2 w3 :
  same_fs_but path w1 w2 -> same_fs_but path w2 w3 -> same_fs_but path w1 w3.
Proof. intros H12 H23 q Hq. by rewrite H23, H12. Qed.

Lemma same_fs_but_emit path e w : same_fs_but path w (emit e w).
Proof. by intros q _. Qed.

Lemma respects_weaken (R1 R2 : world -> world -> Prop) {A} (m : M A) :
  (forall w w', R1 w w' -> R2 w w') -> respects R1 m -> respects R2 m.
Proof. intros Hsub Hm w r w' Hrun. by eapply Hsub, Hm. Qed.

Lemma same_fs_weaken path {A} (m : M A) :
  respects same_fs m -> respects (same_fs_but path) m.
Proof.
  apply respects_weaken. intros w w' Hfs q _. by rewrite Hfs.
Qed.

Lemma net_only_same_fs {A} (m : M A) : net_only m -> respects same_fs m.
Proof. intros Hm w r w' Hrun. by destruct (Hm w r w' Hrun) as [? _]. Qed.

Lemma same_fs_open path m : m <> WB -> respects same_fs (open path m).
Proof.
  intros Hm w r w'. unfold open.
  destruct (fs w !! path) as [[|c]|], m; try done; by intros [= _ <-].
Qed.

Lemma same_fs_seek h offset : respects same_fs (seek h offset).
Proof.
  intros w r w'. unfold seek.
  destruct (files w !! h) as [[path m pos]|]; [case_bool_decide|];
    by intros [= _ <-].
Qed.

Lemma same_fs_read h size : respects same_fs (read h size).
Proof.
  intros w r w'. unfold read.
  destruct (files w !! h) as [[path [] pos]|];
    try destruct (fs w !! path) as [[|c]|]; by intros [= _ <-].
Qed.

Lemma same_fs_getsize path : respects same_fs (getsize path).
Proof.
  intros w r w'. unfold getsize.
  destruct (fs w !! path) as [[|c]|]; by intros [= _ <-].
Qed.

Lemma same_fs_exists path : respects same_fs (exists_ path).
Proof. by intros w r w' [= _ <-]. Qed.

Lemma same_fs_socket : respects same_fs socket.
Proof. apply net_only_same_fs, net_only_socket. Qed.

Lemma same_fs_connect fd : respects same_fs (connect fd).
Proof. apply net_only_same_fs, net_only_connect. Qed.

Lemma same_fs_sendall fd data : respects same_fs (sendall fd data).
Proof. apply net_only_same_fs, net_only_sendall. Qed.

Lemma same_fs_recv fd k : respects same_fs (recv fd k).
Proof. apply net_only_same_fs, net_only_recv. Qed.

Lemma same_fs_close fd : respects same_fs (close fd).
Proof. apply net_only_same_fs, net_only_close. Qed.

Lemma same_fs_send_command fd c l : respects same_fs (send_command fd c l).
Proof. apply net_only_same_fs, net_only_send_command. Qed.

Lemma same_fs_send_int fd v : respects same_fs (send_int fd v).
Proof. apply net_only_same_fs, net_only_send_int. Qed.

Lemma same_fs_recv_bool fd : respects same_fs (recv_bool fd).
Proof. apply net_only_same_fs, net_only_recv_bool. Qed.

Lemma same_fs_recv_int fd : respects same_fs (recv_int fd).
Proof. apply net_only_same_fs, net_only_recv_int. Qed.

Lemma same_fs_recv_all fd n : respects same_fs (recv_all fd n).
Proof. apply net_only_same_fs, net_only_recv_all. Qed.

Lemma same_fs_open_rb path : respects same_fs (open path RB).
Proof. by apply same_fs_open. Qed.

Lemma same_fs_open_rplusb path : respects same_fs (open path RplusB).
Proof. by apply same_fs_open. Qed.

End file_frames.

Create HintDb frames discriminated.

#[global] Hint Resolve same_fs_refl same_fs_trans same_fs_emit same_fs_but_refl
  same_fs_but_trans same_fs_but_emit same_fs_socket same_fs_connect
  same_fs_sendall same_fs_recv same_fs_close same_fs_send_command
  same_fs_send_int same_fs_recv_bool same_fs_recv_int same_fs_recv_all
  same_fs_open_rb same_fs_open_rplusb same_fs_seek same_fs_read
  same_fs_getsize same_fs_exists : frames.

(** One step of a proof that a computation respects a relation: by a fact
    at hand, or by the shape of the computation. *)
Ltac respects_step :=
  first
    [ solve [eauto with frames]
    | apply respects_bind
    | apply respects_try_except
    | apply respects_with_socket
    | apply respects_with_open
    | apply respects_finally
    | apply respects_for_each
    | apply respects_start_thread
    | apply respects_ret
    | apply respects_raise
    | apply respects_lift
    | apply respects_tell
    | match goal with
      | |- Py.respects _ (if negb ?b then _ else _) => destruct b; cbn [negb]
      | |- Py.respects _ (if ?b then _ else _) => destruct b
      | |- Py.respects _ (let '(_, _) := ?x in _) => destruct x
      end ];
  try match goal with |- forall _, Py.respects _ _ => intros ? end.

Section upload_side.
Import Py Client.

Lemma same_fs_ping cmd : respects same_fs (ping cmd).
Proof. unfold ping, ping_body, print. repeat respects_step. Qed.

Lemma same_fs_list_files cmd : respects same_fs (list_files cmd).
Proof. unfold list_files, list_files_body, print. repeat respects_step. Qed.

Lemma same_fs_delete_file cmd file_name :
  respects same_fs (delete_file cmd file_name).
Proof. unfold delete_file, delete_file_body, print. repeat respects_step. Qed.

Lemma same_fs_upload_chunk cmd path start_byte end_byte chunk_number :
  respects same_fs (upload_chunk cmd path start_byte end_byte chunk_number).
Proof.
  unfold upload_chunk, upload_chunk_body, print, send. repeat respects_step.
Qed.

Lemma same_fs_upload_file cmd path chunk_count :
  respects same_fs (upload_file cmd path chunk_count).
Proof.
  pose proof (same_fs_upload_chunk cmd path).
  unfold upload_file, upload_file_body, upload_chunks, join_all, print.
  repeat respects_step.
Qed.

(** X6: no method but the two of the download changes a local file.  In
    every world, whatever the server does and however they end, [ping],
    [list_files], [delete_file], [upload_chunk] and [upload_file] leave the
    file system as they found it. *)
Theorem only_downloads_write cmd w :
  (forall r w', ping cmd w = (r, w') -> fs w' = fs w) /\
  (forall r w', list_files cmd w = (r, w') -> fs w' = fs w) /\
  (forall name r w', delete_file cmd name w = (r, w') -> fs w' = fs w) /\
  (forall path s e i r w',
     upload_chunk cmd path s e i w = (r, w') -> fs w' = fs w) /\
  (forall path n r w', upload_file cmd path n w = (r, w') -> fs w' = fs w).
Proof.
  split; [|split; [|split; [|split]]]; intros.
  - by eapply same_fs_ping.
  - by eapply same_fs_list_files.
  - by eapply same_fs_delete_file.
  - by eapply same_fs_upload_chunk.
  - by eapply same_fs_upload_file.
Qed.

End upload_side.

#[global] Hint Resolve same_fs_weaken : frames.

Section download_side.
Import Py Client.

Lemma open_touches path m : respects (same_fs_but path) (open path m).
Proof.
  intros w r w'. unfold open. cbv zeta.
  repeat case_match; intros [= _ <-]; intros q Hq; simpl;
    by rewrite ?lookup_insert_ne by done.
Qed.

(** The file object that [open] returns is on the path opened. *)
Lemma open_handle path m w h w' :
  open path m w = (Ok h, w') -> files w' !! h = Some (Fobj path m 0).
Proof.
  unfold open. cbv zeta.
  repeat case_match; intros [= <- <-]; simpl; apply last_file_lookup.
Qed.

Lemma seek_handle h offset w r w' path m pos :
  files w !! h = Some (Fobj path m pos) ->
  seek h offset w = (r, w') ->
  fs w' = fs w /\ exists pos', files w' !! h = Some (Fobj path m pos').
Proof.
  intros Hh. unfold seek. rewrite Hh. case_bool_decide; intros [= _ <-].
  - split; [done|]. by exists pos.
  - split; [done|]. exists (Z.to_nat offset). simpl.
    apply list_lookup_insert_eq. by eapply lookup_lt_Some.
Qed.

Lemma write_touches h data w r w' path m pos :
  files w !! h = Some (Fobj path m pos) ->
  write h data w = (r, w') -> same_fs_but path w w'.
Proof.
  intros Hh. unfold write. rewrite Hh.
  destruct m; try (intros [= _ <-]; by intros q _);
    (destruct (fs w !! path) as [[|c]|]; intros [= _ <-]; intros q Hq;
     simpl; [done | by rewrite lookup_insert_ne | done]).
Qed.

Lemma preallocate_touches path file_size :
  respects (same_fs_but path) (preallocate path file_size).
Proof.
  intros w r w'. unfold preallocate, with_open, close_file.
  unfold mbind, M_bind, bind, finally.
  destruct (open path WB w) as [[h|e] w1] eqn:Hopen;
    [|intros [= _ <-]; by eapply open_touches].
  pose proof (open_touches _ _ _ _ _ Hopen) as H1.
  pose proof (open_handle _ _ _ _ _ Hopen) as Hh.
  destruct (seek h (file_size - 1) w1) as [[o|e] w2] eqn:Hseek;
    destruct (seek_handle _ _ _ _ _ _ _ _ Hh Hseek) as (Hfs & pos' & Hh2).
  - destruct (write h ["000"%byte] w2) as [r3 w3] eqn:Hwrite.
    intros [= _ <-].
    eapply same_fs_but_trans; [exact H1|].
    eapply same_fs_but_trans; [|by eapply write_touches].
    intros q _. by rewrite Hfs.
  - intros [= _ <-].
    eapply same_fs_but_trans; [exact H1|]. intros q _. by rewrite Hfs.
Qed.

Lemma receive_into_touches path sock start_byte n :
  respects (same_fs_but path)
    (with_open path RplusB (fun file =>
       seek file start_byte;;
       data ← recv_all sock n;
       write file data)).
Proof.
  intros w r w'. unfold with_open, close_file.
  unfold mbind, M_bind, bind, finally.
  destruct (open path RplusB w) as [[h|e] w1] eqn:Hopen;
    [|intros [= _ <-]; by eapply open_touches].
  pose proof (open_touches _ _ _ _ _ Hopen) as H1.
  pose proof (open_handle _ _ _ _ _ Hopen) as Hh.
  destruct (seek h start_byte w1) as [[o|e] w2] eqn:Hseek;
    destruct (seek_handle _ _ _ _ _ _ _ _ Hh Hseek) as (Hfs & pos' & Hh2).
  - destruct (recv_all sock n w2) as [[data|e] w3] eqn:Hrecv;
      destruct (net_only_recv_all _ _ _ _ _ Hrecv) as (Hfs3 & Hfl3 & _).
    + destruct (write h data w3) as [r4 w4] eqn:Hwrite.
      intros [= _ <-].
      eapply same_fs_but_trans; [exact H1|].
      eapply same_fs_but_trans; [|eapply write_touches; [|exact Hwrite]].
      * intros q _. by rewrite Hfs3, Hfs.
      * rewrite Hfl3. exact Hh2.
    + intros [= _ <-].
      eapply same_fs_but_trans; [exact H1|]. intros q _. by rewrite Hfs3, Hfs.
  - intros [= _ <-].
    eapply same_fs_but_trans; [exact H1|]. intros q _. by rewrite Hfs.
Qed.

Lemma download_chunk_touches cmd file_name destination start_byte end_byte
    chunk_number :
  respects (same_fs_but (join destination file_name))
    (download_chunk cmd file_name destination start_byte end_byte
       chunk_number).
Proof.
  pose proof (receive_into_touches (join destination file_name)).
  unfold download_chunk, download_chunk_body, print, send.
  repeat respects_step.
Qed.

Lemma download_file_touches cmd file_name destination chunk_count :
  respects (same_fs_but (join destination file_name))
    (download_file cmd file_name destination chunk_count).
Proof.
  pose proof (preallocate_touches (join destination file_name)).
  pose proof (download_chunk_touches cmd file_name destination).
  unfold download_file, download_file_body, download_transfer,
    download_chunks, join_all, print.
  repeat respects_step.
Qed.

(** X7: a download changes one local file at most.  In every world,
    whatever the server does and however they end, [download_chunk] and
    [download_file] leave every path other than
    [os.path.join(destination, file_name)] as it was. *)
Theorem download_writes_one_file cmd file_name destination w q :
  q <> join destination file_name ->
  (forall chunk_count r w',
     download_file cmd file_name destination chunk_count w = (r, w') ->
     fs w' !! q = fs w !! q) /\
  (forall start_byte end_byte chunk_number r w',
     download_chunk cmd file_name destination start_byte end_byte
       chunk_number w = (r, w') ->
     fs w' !! q = fs w !! q).
Proof.
  intros Hq. split; intros.
  - by eapply download_file_touches.
  - by eapply download_chunk_touches.
Qed.

Lemma download_writes_one_file_witness :
  "data/a.txt" <> join "dl" "a.txt" /\
  forall chunk_count r w',
    download_file spec_commands "a.txt" "dl" chunk_count
      Scenario.partial_download = (r, w') ->
    fs w' !! "data/a.txt" = fs Scenario.partial_download !! "data/a.txt".
Proof.
  assert (Hq : "data/a.txt" <> join "dl" "a.txt") by (vm_compute; discriminate).
  split; [exact Hq|].
  exact (proj1 (download_writes_one_file spec_commands "a.txt" "dl"
                  Scenario.partial_download "data/a.txt" Hq)).
Defined.

End download_side.

(** ** Sockets are closed on the way out *)
Section socket_leaks.
Import Py Client.

Lemma no_new_live_refl fd w : no_new_live fd w w.
Proof. split; [done|]. intros j Hj. by right. Qed.

Lemma no_new_live_trans fd w1 w2 w3 :
  no_new_live fd w1 w2 -> no_new_live fd w2 w3 -> no_new_live fd w1 w3.
Proof.
  intros [Hlen1 H1] [Hlen2 H2]. split; [lia|].
  intros j Hj. destruct (H2 j Hj) as [?|Hj2]; [by left|]. by apply H1.
Qed.

Lemma no_new_live_emit fd e w : no_new_live fd w (emit e w).
Proof. split; [done|]. intros j Hj. by right. Qed.

Lemma no_new_live_kept fd w w' : socks w' = socks w -> no_new_live fd w w'.
Proof.
  intros Heq. split; [by rewrite Heq|].
  intros j (s & Hs & Hc). right. exists s. by rewrite <- Heq.
Qed.

Lemma no_new_live_insert fd fd' w w' s' :
  socks w' = <[fd' := s']> (socks w) ->
  (connected s' = true -> Some fd' = fd \/ live w fd') ->
  no_new_live fd w w'.
Proof.
  intros Heq Hs'. split; [by rewrite Heq, length_insert|].
  intros j (s & Hs & Hc). rewrite Heq in Hs.
  destruct (decide (j = fd')) as [->|Hne].
  - assert (s = s') as ->; [|by apply Hs'].
    rewrite list_lookup_insert_eq in Hs; [congruence|].
    apply lookup_lt_Some in Hs. by rewrite length_insert in Hs.
  - right. exists s. by rewrite list_lookup_insert_ne in Hs.
Qed.

Lemma no_leak_socket fd : respects (no_new_live fd) socket.
Proof.
  intros w r w' [= _ <-]. split; [simpl; rewrite length_app; lia|].
  intros j (s & Hs & Hc). right. simpl in Hs.
  apply lookup_app_Some in Hs as [Hs|[_ Hs]]; [by exists s|].
  destruct (j - length (socks w))%nat; [|done].
  injection Hs as <-. discriminate.
Qed.

Lemma no_leak_connect fd : respects (no_new_live (Some fd)) (connect fd).
Proof.
  intros w r w'. unfold connect.
  destruct (peers w) as [|p ps]; [|destruct (refuses p)]; intros [= _ <-];
    try by apply no_new_live_kept.
  eapply no_new_live_insert; [reflexivity|]. by left.
Qed.

Lemma no_leak_sendall fd' fd data : respects (no_new_live fd) (sendall fd' data).
Proof.
  intros w r w'. unfold sendall.
  destruct (socks w !! fd') as [[[] pend str]|] eqn:Hfd;
    [destruct pend as [|[e|] pend']|..]; intros [= _ <-];
    try (by apply no_new_live_kept);
    (eapply no_new_live_insert; [reflexivity|]; intros _; right;
     by eexists).
Qed.

Lemma no_leak_recv fd' fd k : respects (no_new_live fd) (recv fd' k).
Proof.
  intros w r w'. unfold recv.
  case_bool_decide; [intros [= _ <-]; by apply no_new_live_kept|].
  destruct (socks w !! fd') as [[[] pend str]|] eqn:Hfd;
    [|intros [= _ <-]; by apply no_new_live_kept..].
  destruct str as [|[b p|e] str'];
    [|destruct (drop (Z.to_nat k) (b :: p))|]; intros [= _ <-];
    try (by apply no_new_live_kept);
    (eapply no_new_live_insert; [reflexivity|]; intros _; right;
     by eexists).
Qed.

(** After [close fd] the socket [fd] is not connected, and no other socket
    has changed. *)
Lemma close_kills fd w r w' j :
  close fd w = (r, w') -> live w' j -> j <> fd /\ live w j.
Proof.
  intros [= _ <-] (s & Hs & Hc). simpl in Hs.
  destruct (decide (j = fd)) as [->|Hne].
  - rewrite list_lookup_alter_eq in Hs.
    destruct (socks w !! fd); [|done]. injection Hs as <-. discriminate.
  - rewrite list_lookup_alter_ne in Hs by done. split; [done|]. by exists s.
Qed.

Lemma no_leak_close fd' fd : respects (no_new_live fd) (close fd').
Proof.
  intros w r w' Hrun. split.
  - injection Hrun as _ <-. simpl. by rewrite length_alter.
  - intros j Hj. right. by eapply close_kills.
Qed.

(** A [with] block on a fresh socket, whose body connects no other socket
    for good, connects none. *)
Lemma no_leak_with_socket {A} fd (body : nat -> M A) :
  (forall sock, respects (no_new_live (Some sock)) (body sock)) ->
  respects (no_new_live fd) (with_socket body).
Proof.
  intros Hbody w r w'. unfold with_socket, mbind, M_bind, bind, finally.
  destruct (socket w) as [rs w1] eqn:Hsock.
  pose proof (no_leak_socket None _ _ _ Hsock) as [Hlen1 H1].
  injection Hsock as <- <-.
  destruct (body (length (socks w)) _) as [r2 w2] eqn:Hrun.
  pose proof (Hbody _ _ _ _ Hrun) as [Hlen2 H2].
  destruct (close (length (socks w)) w2) as [[[]|e] w3] eqn:Hclose;
    [|discriminate].
  intros [= _ <-]. split.
  - injection Hclose as <-. simpl. rewrite length_alter. lia.
  - intros j Hj. right.
    destruct (close_kills _ _ _ _ _ Hclose Hj) as [Hne Hj2].
    destruct (H2 j Hj2) as [[= ->]|Hj1]; [done|].
    by destruct (H1 j Hj1) as [?|?].
Qed.

Lemma no_leak_open fd path m : respects (no_new_live fd) (open path m).
Proof.
  intros w r w'. unfold open. cbv zeta.
  repeat case_match; intros [= _ <-]; by apply no_new_live_kept.
Qed.

Lemma no_leak_seek fd h offset : respects (no_new_live fd) (seek h offset).
Proof.
  intros w r w'. unfold seek.
  repeat case_match; intros [= _ <-]; by apply no_new_live_kept.
Qed.

Lemma no_leak_read fd h size : respects (no_new_live fd) (read h size).
Proof.
  intros w r w'. unfold read. cbv zeta.
  repeat case_match; intros [= _ <-]; by apply no_new_live_kept.
Qed.

Lemma no_leak_write fd h data : respects (no_new_live fd) (write h data).
Proof.
  intros w r w'. unfold write.
  repeat case_match; intros [= _ <-]; by apply no_new_live_kept.
Qed.

Lemma no_leak_getsize fd path : respects (no_new_live fd) (getsize path).
Proof.
  intros w r w'. unfold getsize.
  repeat case_match; intros [= _ <-]; by apply no_new_live_kept.
Qed.

Lemma no_leak_exists fd path : respects (no_new_live fd) (exists_ path).
Proof. intros w r w' [= _ <-]. by apply no_new_live_kept. Qed.

Lemma no_leak_recv_all fd sock n : respects (no_new_live fd) (recv_all sock n).
Proof.
  apply respects_recv_all_loop;
    [apply no_new_live_refl | apply no_new_live_trans |].
  intros k. apply no_leak_recv.
Qed.

End socket_leaks.

#[global] Hint Resolve no_new_live_refl no_new_live_trans no_new_live_emit
  no_leak_socket no_leak_connect no_leak_sendall no_leak_recv no_leak_close
  no_leak_open no_leak_seek no_leak_read no_leak_write no_leak_getsize
  no_leak_exists no_leak_recv_all : frames.

Ltac no_leak_step :=
  first
    [ solve [eauto with frames]
    | apply no_leak_with_socket; intros ?
    | respects_step ].

Section socket_leak_theorem.
Import Py Client.

Lemma no_leak_send_command fd sock c l :
  respects (no_new_live fd) (send_command sock c l).
Proof. unfold send_command. repeat no_leak_step. Qed.

Lemma no_leak_send_int fd sock v : respects (no_new_live fd) (send_int sock v).
Proof. unfold send_int. repeat no_leak_step. Qed.

Lemma no_leak_recv_bool fd sock : respects (no_new_live fd) (recv_bool sock).
Proof. unfold recv_bool. repeat no_leak_step. Qed.

Lemma no_leak_recv_int fd sock : respects (no_new_live fd) (recv_int sock).
Proof. unfold recv_int. repeat no_leak_step. Qed.

Lemma no_leak_ping fd cmd : respects (no_new_live fd) (ping cmd).
Proof.
  pose proof no_leak_send_command. pose proof no_leak_recv_bool.
  unfold ping, ping_body, print. repeat no_leak_step.
Qed.

Lemma no_leak_list_files fd cmd : respects (no_new_live fd) (list_files cmd).
Proof.
  pose proof no_leak_send_command. pose proof no_leak_recv_int.
  unfold list_files, list_files_body, print. repeat no_leak_step.
Qed.

Lemma no_leak_delete_file fd cmd file_name :
  respects (no_new_live fd) (delete_file cmd file_name).
Proof.
  pose proof no_leak_send_command. pose proof no_leak_recv_bool.
  unfold delete_file, delete_file_body, print. repeat no_leak_step.
Qed.

Lemma no_leak_upload_chunk fd cmd path start_byte end_byte chunk_number :
  respects (no_new_live fd)
    (upload_chunk cmd path start_byte end_byte chunk_number).
Proof.
  pose proof no_leak_send_command. pose proof no_leak_send_int.
  unfold upload_chunk, upload_chunk_body, print, send. repeat no_leak_step.
Qed.

Lemma no_leak_download_chunk fd cmd file_name destination start_byte end_byte
    chunk_number :
  respects (no_new_live fd)
    (download_chunk cmd file_name destination start_byte end_byte
       chunk_number).
Proof.
  pose proof no_leak_send_command. pose proof no_leak_send_int.
  unfold download_chunk, download_chunk_body, print, send.
  repeat no_leak_step.
Qed.

Lemma no_leak_upload_file fd cmd path chunk_count :
  respects (no_new_live fd) (upload_file cmd path chunk_count).
Proof.
  pose proof no_leak_send_command. pose proof no_leak_send_int.
  pose proof no_leak_recv_bool.
  pose proof (fun fd => no_leak_upload_chunk fd cmd path).
  unfold upload_file, upload_file_body, upload_chunks, join_all, print.
  repeat no_leak_step.
Qed.

Lemma no_leak_download_file fd cmd file_name destination chunk_count :
  respects (no_new_live fd)
    (download_file cmd file_name destination chunk_count).
Proof.
  pose proof no_leak_send_command.
  pose proof (fun fd => no_leak_download_chunk fd cmd file_name destination).
  unfold download_file, download_file_body, download_transfer, preallocate,
    download_chunks, join_all, print.
  repeat no_leak_step.
Qed.

(** X8: no method leaves a connection open.  In every world, whatever the
    server does and whether the method ends well or in an error, chunk
    workers included, a socket that is connected when the method returns was
    connected before the call: every socket the method made has been
    closed. *)
Theorem sockets_are_closed cmd w j :
  (forall r w', ping cmd w = (r, w') -> live w' j -> live w j) /\
  (forall r w', list_files cmd w = (r, w') -> live w' j -> live w j) /\
  (forall name r w',
     delete_file cmd name w = (r, w') -> live w' j -> live w j) /\
  (forall path n r w',
     upload_file cmd path n w = (r, w') -> live w' j -> live w j) /\
  (forall name dest n r w',
     download_file cmd name dest n w = (r, w') -> live w' j -> live w j) /\
  (forall path s e i r w',
     upload_chunk cmd path s e i w = (r, w') -> live w' j -> live w j) /\
  (forall name dest s e i r w',
     download_chunk cmd name dest s e i w = (r, w') -> live w' j -> live w j).
Proof.
  assert (Hnone : forall w', no_new_live None w w' -> live w' j -> live w j).
  { intros w' [_ Hlive] Hj. by destruct (Hlive j Hj). }
  repeat split; intros; eapply Hnone; try eassumption.
  - by eapply no_leak_ping.
  - by eapply no_leak_list_files.
  - by eapply no_leak_delete_file.
  - by eapply no_leak_upload_file.
  - by eapply no_leak_download_file.
  - by eapply no_leak_upload_chunk.
  - by eapply no_leak_download_chunk.
Qed.

End socket_leak_theorem.

(** ** Reading a history *)
Section history_facts.
Import Py Client.

Lemma signalled_app h1 h2 :
  signalled (h1 ++ h2) = signalled h1 ++ signalled h2.
Proof. apply omap_app. Qed.

Lemma received_refl w : received w w.
Proof. repeat split. by exists []. Qed.

Lemma received_trans w1 w2 w3 :
  received w1 w2 -> received w2 w3 -> received w1 w3.
Proof.
  intros (Hf1 & Hl1 & Hp1 & Hs1 & e1 & Hlog1 & He1)
         (Hf2 & Hl2 & Hp2 & Hs2 & e2 & Hlog2 & He2).
  repeat split; try congruence.
  exists (e2 ++ e1). split.
  - by rewrite Hlog2, Hlog1, app_assoc.
  - by rewrite forallb_app, He1, He2.
Qed.

Lemma received_recv fd k : respects received (recv fd k).
Proof.
  intros w r w'. unfold recv.
  repeat case_match; intros [= _ <-]; try apply received_refl;
    (repeat split; cbn [fs files peers socks log emit set_socks];
     try done; try (by rewrite length_insert); by exists [ERecv fd k]).
Qed.

Lemma received_recv_all fd n : respects received (recv_all fd n).
Proof.
  apply respects_recv_all_loop;
    [apply received_refl | apply received_trans | apply received_recv].
Qed.

(** Calls of [recv] signal nothing. *)
Lemma recv_is_silent evs :
  forallb is_recv evs = true -> signalled (rev evs) = [].
Proof.
  induction evs as [|e evs IH]; [done|]. simpl.
  intros [He Hevs]%andb_true_iff.
  destruct e; try done.
  by rewrite signalled_app, (IH Hevs).
Qed.

(** A write through the file object [h], opened for writing. *)
Lemma write_run h data w path m pos c :
  files w !! h = Some (Fobj path m pos) ->
  m <> RB ->
  fs w !! path = Some (File c) ->
  write h data w =
  (Ok (len data),
   set_files (fun l => <[h := Fobj path m (pos + length data)%nat]> l)
     (set_fs (fun t => <[path := File (write_at c pos data)]> t)
        (emit (EWrite h data) w))).
Proof.
  intros Hh Hm Hc. unfold write. rewrite Hh, Hc. by destruct m.
Qed.

End history_facts.

(** ** One chunk *)
Section one_chunk.
Import Py Client.

Lemma all_through_S k pend :
  all_through (S k) pend = true ->
  through pend = true /\ all_through k (tail pend) = true.
Proof. simpl. by intros [? ?]%andb_true_iff. Qed.

Lemma open_existing_run fs0 ps ss fl lg path m c :
  m <> WB ->
  fs0 !! path = Some (File c) ->
  open path m (World fs0 ps ss fl lg) =
  (Ok (length fl),
   World fs0 ps ss (fl ++ [Fobj path m 0]) (EOpen path m :: lg)).
Proof.
  intros Hm Hc. unfold open. cbn [fs files]. rewrite Hc. by destruct m.
Qed.

Lemma read_run fs0 ps ss fl lg path pos c size :
  fs0 !! path = Some (File c) ->
  0 <= size ->
  read (length fl) size (World fs0 ps ss (fl ++ [Fobj path RB pos]) lg) =
  (Ok (take (Z.to_nat size) (drop pos c)),
   World fs0 ps ss
     (fl ++ [Fobj path RB (pos + length (take (Z.to_nat size) (drop pos c)))])
     (ERead (length fl) size :: lg)).
Proof.
  intros Hc Hsize. unfold read. cbn [fs files].
  rewrite last_file_lookup, Hc. rewrite bool_decide_eq_false_2 by lia.
  unfold set_files, emit. cbn [fs peers socks files log].
  by rewrite last_file_insert.
Qed.

(** X9: the local file is there and holds [c], the range fits the wire
    ([0 <= start <= end <= 2^32 - 1]), and the server accepts the connection
    and takes the five things sent.  Then [upload_chunk] sends, in this
    order, the UPLOAD_CHUNK header with the length of the base name, the
    base name, the start, the end, and the bytes of [c] from [start] up to
    [end] (fewer if the file ends before); then it signals the chunk and
    prints that it is uploaded.  The local files are as before. *)
Theorem upload_chunk_sends_range cmd path start_byte end_byte chunk_number
    w p ps c :
  peers w = p :: ps ->
  refuses p = None ->
  all_through 5 (outcomes p) = true ->
  fs w !! path = Some (File c) ->
  0 <= start_byte <= end_byte ->
  end_byte <= struct.uint32_max ->
  0 <= UPLOAD_CHUNK cmd <= 255 ->
  len (encode (basename path)) <= struct.uint32_max ->
  let fd := length (socks w) in
  let file := length (files w) in
  let name := encode (basename path) in
  exists header first last w1,
    struct.pack_BI (UPLOAD_CHUNK cmd) (len name) = Ok header /\
    struct.pack_I start_byte = Ok first /\
    struct.pack_I end_byte = Ok last /\
    upload_chunk cmd path start_byte end_byte chunk_number w = (Ok tt, w1) /\
    log w1 =
      [EClose fd;
       EPrint ("Chunk " +:+ fmt chunk_number +:+ " uploaded from " +:+
               fmt start_byte +:+ " to " +:+ fmt end_byte);
       ESignal "chunk_uploaded" chunk_number;
       ESend fd (slice c (start_byte, end_byte));
       ERead file (end_byte - start_byte + 1); ESeek file start_byte;
       EOpen path RB;
       ESend fd last; ESend fd first; ESend fd name; ESend fd header;
       EConnect fd] ++ log w /\
    fs w1 = fs w.
Proof.
  intros Hpeers Hacc Hsend Hc Hrange Hmax Hcode Hname fd file name.
  destruct w as [fs0 pl ss fl lg]. simpl in *. subst pl.
  apply andb_true_iff in Hsend as [Hs1 Hsend].
  apply andb_true_iff in Hsend as [Hs2 Hsend].
  apply andb_true_iff in Hsend as [Hs3 Hsend].
  apply andb_true_iff in Hsend as [Hs4 Hsend].
  apply andb_true_iff in Hsend as [Hs5 _].
  destruct (pack_BI_fits (UPLOAD_CHUNK cmd) (len name)) as [header Hpack];
    [done | unfold name, len in *; lia |].
  pose proof (pack_I_fits start_byte ltac:(lia)) as Hfirst.
  pose proof (pack_I_fits end_byte ltac:(lia)) as Hlast.
  assert (Hbody : exists w1,
    upload_chunk_body cmd path start_byte end_byte chunk_number
      (World fs0 (p :: ps) ss fl lg) = (Ok tt, w1) /\
    log w1 =
      [EClose fd;
       EPrint ("Chunk " +:+ fmt chunk_number +:+ " uploaded from " +:+
               fmt start_byte +:+ " to " +:+ fmt end_byte);
       ESignal "chunk_uploaded" chunk_number;
       ESend fd (slice c (start_byte, end_byte));
       ERead file (end_byte - start_byte + 1); ESeek file start_byte;
       EOpen path RB;
       ESend fd
         [struct.byte_of_Z (Z.shiftr end_byte 24);
          struct.byte_of_Z (Z.shiftr end_byte 16);
          struct.byte_of_Z (Z.shiftr end_byte 8); struct.byte_of_Z end_byte];
       ESend fd
         [struct.byte_of_Z (Z.shiftr start_byte 24);
          struct.byte_of_Z (Z.shiftr start_byte 16);
          struct.byte_of_Z (Z.shiftr start_byte 8);
          struct.byte_of_Z start_byte];
       ESend fd name; ESend fd header; EConnect fd] ++ lg /\
    fs w1 = fs0).
  { eexists. split.
    - unfold upload_chunk_body, with_socket.
      eapply bind_ok; [apply socket_run|].
      eapply finally_run.
      + eapply bind_ok; [by apply connect_accepted|]. cbv beta zeta.
        eapply bind_ok; [by apply send_command_through|].
        eapply bind_ok; [by apply sendall_through|].
        eapply bind_ok; [by eapply send_int_through|].
        eapply bind_ok; [by eapply send_int_through|].
        eapply bind_ok.
        { unfold with_open.
          eapply bind_ok; [by eapply open_existing_run|].
          eapply finally_run; [|reflexivity].
          eapply bind_ok; [apply seek_run; lia|].
          eapply bind_ok; [eapply read_run; [done|lia]|].
          by apply sendall_through. }
        eapply bind_ok; reflexivity.
      + apply close_run.
    - split; reflexivity. }
  destruct Hbody as (w1 & Hrun & Hlog & Hfs).
  eexists header, _, _, w1. split; [done|]. split; [exact Hfirst|].
  split; [exact Hlast|]. split; [|done].
  unfold upload_chunk. by rewrite (try_except_ok _ _ _ _ _ Hrun).
Qed.

Lemma upload_chunk_sends_range_witness :
  exists header first last w1,
    struct.pack_BI 3 5 = Ok header /\
    struct.pack_I 1 = Ok first /\
    struct.pack_I 2 = Ok last /\
    upload_chunk spec_commands "data/a.txt" 1 2 0
      (Scenario.start [Scenario.answering []]) = (Ok tt, w1) /\
    log w1 =
      [EClose 0; EPrint "Chunk 0 uploaded from 1 to 2";
       ESignal "chunk_uploaded" 0;
       ESend 0 (Scenario.bs [2; 3]);
       ERead 0 2; ESeek 0 1; EOpen "data/a.txt" RB;
       ESend 0 last; ESend 0 first; ESend 0 (encode "a.txt"); ESend 0 header;
       EConnect 0] /\
    fs w1 = Scenario.disk.
Proof.
  apply (upload_chunk_sends_range spec_commands "data/a.txt" 1 2 0
           (Scenario.start [Scenario.answering []]) (Scenario.answering [])
           [] (Scenario.bs [1; 2; 3])); try reflexivity.
  - lia.
  - vm_compute. discriminate.
  - simpl. lia.
  - vm_compute. discriminate.
Defined.

(** A write through a file object on [path], opened for writing. *)
Lemma write_through_handle h data w path m pos c :
  files w !! h = Some (Fobj path m pos) ->
  m <> RB ->
  fs w !! path = Some (File c) ->
  exists w',
    write h data w = (Ok (len data), w') /\
    fs w' = <[path := File (write_at c pos data)]> (fs w) /\
    log w' = EWrite h data :: log w.
Proof.
  intros Hh Hm Hc. unfold write. rewrite Hh, Hc.
  destruct m; [done| |]; by eexists.
Qed.

(** A write that stays inside the file keeps its length and changes the
    bytes written over and no other. *)
Lemma write_at_inside (c : bytes) (pos : nat) (data : bytes) :
  (pos + length data <= length c)%nat ->
  length (write_at c pos data) = length c /\
  forall i : nat,
    write_at c pos data !! i =
    if bool_decide (pos <= i < pos + length data)%nat
    then data !! (i - pos)%nat else c !! i.
Proof.
  intros Hin. unfold write_at.
  replace (pos - length c)%nat with 0%nat by lia.
  rewrite app_nil_r. split.
  - rewrite !length_app, length_take, length_drop. lia.
  - intros i. case_bool_decide as Hi.
    + rewrite lookup_app_r by (rewrite length_take; lia).
      rewrite length_take. rewrite lookup_app_l by lia.
      f_equal. lia.
    + destruct (decide (i < pos)%nat).
      * rewrite lookup_app_l by (rewrite length_take; lia).
        by rewrite lookup_take_lt by lia.
      * rewrite lookup_app_r by (rewrite length_take; lia).
        rewrite length_take.
        rewrite lookup_app_r by lia.
        rewrite lookup_drop. f_equal. lia.
Qed.

(** X10: the destination file is there and holds [c], the range fits the
    wire, and the server accepts the connection, takes the four things sent
    and then sends bytes, in whatever pieces, and closes.  With
    [n = end - start + 1], [download_chunk] connects, sends the header, the
    name and the two ends of the range, opens the destination, goes to
    offset [start] and calls [recv] until it has [n] bytes or the stream
    ends, and then:
    - if at least [n] bytes come, it writes the first [n] of them at offset
      [start] of the destination, signals the chunk and prints that it is
      downloaded; when the range lies inside the file, the file keeps its
      length and every byte outside the range;
    - if fewer come, it closes and prints that the connection was closed
      too soon: nothing is written, the destination is as before, and no
      signal is sent at any point of the call. *)
Theorem download_chunk_outcomes cmd file_name destination start_byte end_byte
    chunk_number w p ps c :
  let path := join destination file_name in
  let n := end_byte - start_byte + 1 in
  let fd := length (socks w) in
  let file := length (files w) in
  peers w = p :: ps ->
  refuses p = None ->
  all_through 4 (outcomes p) = true ->
  faultless (inbox p) = true ->
  fs w !! path = Some (File c) ->
  0 <= start_byte <= end_byte ->
  end_byte <= struct.uint32_max ->
  0 <= DOWNLOAD_CHUNK cmd <= 255 ->
  strlen file_name <= struct.uint32_max ->
  exists header first last,
    struct.pack_BI (DOWNLOAD_CHUNK cmd) (strlen file_name) = Ok header /\
    struct.pack_I start_byte = Ok first /\
    struct.pack_I end_byte = Ok last /\
    let request :=
      [ESeek file start_byte; EOpen path RplusB; ESend fd last; ESend fd first;
       ESend fd (encode file_name); ESend fd header; EConnect fd] in
    (n <= len (payload (inbox p)) ->
     let data := take (Z.to_nat n) (payload (inbox p)) in
     let c' := write_at c (Z.to_nat start_byte) data in
     exists w1 evs,
       download_chunk cmd file_name destination start_byte end_byte
         chunk_number w = (Ok tt, w1) /\
       fs w1 = <[path := File c']> (fs w) /\
       log w1 =
         [EClose fd;
          EPrint ("Chunk " +:+ fmt chunk_number +:+ " downloaded from " +:+
                  fmt start_byte +:+ " to " +:+ fmt end_byte);
          ESignal "chunk_downloaded" chunk_number; EWrite file data] ++
         evs ++ request ++ log w /\
       forallb is_recv evs = true /\
       (end_byte < len c ->
        length c' = length c /\
        forall i : nat,
          c' !! i =
          if bool_decide (start_byte <= Z.of_nat i <= end_byte)
          then data !! (i - Z.to_nat start_byte)%nat else c !! i)) /\
    (len (payload (inbox p)) < n ->
     exists w1 evs,
       download_chunk cmd file_name destination start_byte end_byte
         chunk_number w =
       (Ok tt,
        emit (EPrint
                "[CHUNK DOWNLOAD ERROR] Socket connection closed before receiving all data")
          w1) /\
       fs w1 = fs w /\
       log w1 = [EClose fd] ++ evs ++ request ++ log w /\
       forallb is_recv evs = true /\
       signalled (rev ([EClose fd] ++ evs ++ request)) = []).
Proof.
  intros path n fd file Hpeers Hacc Hsend Hok Hc Hrange Hmax Hcode Hname.
  destruct w as [fs0 pl ss fl lg]. simpl in *. subst pl.
  apply andb_true_iff in Hsend as [Hs1 Hsend].
  apply andb_true_iff in Hsend as [Hs2 Hsend].
  apply andb_true_iff in Hsend as [Hs3 Hsend].
  apply andb_true_iff in Hsend as [Hs4 _].
  destruct (pack_BI_fits (DOWNLOAD_CHUNK cmd) (strlen file_name))
    as [header Hpack]; [done | unfold strlen in *; lia |].
  pose proof (pack_I_fits start_byte ltac:(lia)) as Hfirst.
  pose proof (pack_I_fits end_byte ltac:(lia)) as Hlast.
  destruct (struct.pack_I start_byte) as [first|] eqn:Hf; [|done].
  destruct (struct.pack_I end_byte) as [last|] eqn:Hl; [|done].
  exists header, first, last.
  split; [done|]. split; [done|]. split; [done|].
  (* the world in which [recv_all] starts *)
  set (rest := EOpen path RplusB :: ESend fd last :: ESend fd first ::
               ESend fd (encode file_name) :: ESend fd header ::
               EConnect fd :: lg).
  set (wr := World fs0 ps
               (ss ++ [Sock true (tail (tail (tail (tail (outcomes p)))))
                         (inbox p)])
               (fl ++ [Fobj path RplusB (Z.to_nat start_byte)])
               (ESeek file start_byte :: rest)).
  destruct (recv_all_loop_stream (inbox p) fd n [] wr
              (tail (tail (tail (tail (outcomes p))))))
    as [w2 Hloop]; [apply last_sock_lookup | done | unfold len; simpl; lia |].
  change (len []) with 0 in Hloop. rewrite Z.add_0_l, Z.sub_0_r in Hloop.
  fold (recv_all fd n wr) in Hloop.
  destruct (received_recv_all _ _ _ _ _ Hloop)
    as (Hfs2 & Hfl2 & _ & _ & evs & Hlog2 & Hnet).
  pose proof (recv_is_silent evs Hnet) as Hnosig.
  set (w5 := World fs0 ps
               (ss ++ [Sock true (tail (tail (tail (tail (outcomes p)))))
                         (inbox p)])
               fl (ESend fd last :: ESend fd first ::
                   ESend fd (encode file_name) :: ESend fd header ::
                   EConnect fd :: lg)).
  (* the body, from its start to the block on the file *)
  assert (Hprefix : forall (k : M unit) r w3,
    (with_open path RplusB (fun file =>
       seek file start_byte;; data ← recv_all fd n; write file data);; k)
      w5 = (r, w3) ->
    download_chunk_body cmd file_name destination start_byte end_byte
      chunk_number (World fs0 (p :: ps) ss fl lg) =
    (finally
       (connect fd;;
        send_command fd (DOWNLOAD_CHUNK cmd) (strlen file_name);;
        sendall fd (encode file_name);;
        send_int fd start_byte;; send_int fd end_byte;;
        with_open path RplusB (fun file =>
          seek file start_byte;; data ← recv_all fd n; write file data);; k)
       (close fd))
      (World fs0 (p :: ps) (ss ++ [Sock false [] []]) fl lg) ->
    download_chunk_body cmd file_name destination start_byte end_byte
      chunk_number (World fs0 (p :: ps) ss fl lg) =
    (r, emit (EClose fd)
          (set_socks
             (fun l => alter (fun s => Sock false (pending s) (stream s)) fd l)
             w3))).
  { intros k r w3 Hk ->.
    eapply finally_run; [|reflexivity].
    eapply bind_ok; [by apply connect_accepted|].
    eapply bind_ok; [by apply send_command_through|].
    eapply bind_ok; [by apply sendall_through|].
    eapply bind_ok; [by eapply send_int_through|].
    eapply bind_ok; [by eapply send_int_through|].
    exact Hk. }
  assert (Hshape :
    download_chunk_body cmd file_name destination start_byte end_byte
      chunk_number (World fs0 (p :: ps) ss fl lg) =
    (finally
       (connect fd;;
        send_command fd (DOWNLOAD_CHUNK cmd) (strlen file_name);;
        sendall fd (encode file_name);;
        send_int fd start_byte;; send_int fd end_byte;;
        with_open path RplusB (fun file =>
          seek file start_byte;; data ← recv_all fd n; write file data);;
        send "chunk_downloaded" chunk_number;;
        print ("Chunk " +:+ fmt chunk_number +:+ " downloaded from " +:+
               fmt start_byte +:+ " to " +:+ fmt end_byte))
       (close fd))
      (World fs0 (p :: ps) (ss ++ [Sock false [] []]) fl lg)).
  { unfold download_chunk_body, with_socket.
    eapply bind_ok; [apply socket_run|]. reflexivity. }
  (* the block on the file, up to [recv_all] *)
  assert (Hblock : forall r w3,
    (data ← recv_all fd n; write file data) wr = (r, w3) ->
    with_open path RplusB (fun file =>
      seek file start_byte;; data ← recv_all fd n; write file data) w5 =
    (r, w3)).
  { intros r w3 Hr. unfold with_open.
    eapply bind_ok; [by eapply open_existing_run|].
    eapply finally_run; [|reflexivity].
    eapply bind_ok; [apply seek_run; lia|]. exact Hr. }
  cbv zeta. split.
  - intros Hlong.
    set (data := take (Z.to_nat n) (payload (inbox p))) in *.
    rewrite bool_decide_eq_false_2 in Hloop by lia.
    destruct (write_through_handle file data w2 path RplusB
                (Z.to_nat start_byte) c) as (w3 & Hwrite & Hfs3 & Hlog3);
      [rewrite Hfl2; apply last_file_lookup | done | by rewrite Hfs2 |].
    eexists _, evs. split; [|split; [|split; [|split]]].
    + unfold download_chunk. eapply try_except_ok.
      eapply Hprefix; [|exact Hshape].
      eapply bind_ok; [|reflexivity].
      apply Hblock. eapply bind_ok; [exact Hloop | exact Hwrite].
    + simpl. by rewrite Hfs3, Hfs2.
    + simpl. rewrite Hlog3, Hlog2. reflexivity.
    + exact Hnet.
    + intros Hinside.
      assert (Hdata : length data = Z.to_nat n).
      { unfold data. rewrite length_take. unfold len in Hlong. lia. }
      destruct (write_at_inside c (Z.to_nat start_byte) data) as [Hlen Hbytes];
        [unfold len, n in *; lia|].
      split; [exact Hlen|]. intros i. rewrite Hbytes.
      rewrite (bool_decide_ext _ (start_byte <= Z.of_nat i <= end_byte));
        [done|]. unfold n in *. lia.
  - intros Hshort.
    rewrite bool_decide_eq_true_2 in Hloop by lia.
    assert (Hrun :
      download_chunk_body cmd file_name destination start_byte end_byte
        chunk_number (World fs0 (p :: ps) ss fl lg) =
      (Raise closed_early,
       emit (EClose fd)
         (set_socks
            (fun l => alter (fun s => Sock false (pending s) (stream s)) fd l)
            w2))).
    { eapply Hprefix; [|exact Hshape].
      apply bind_raise. apply Hblock. by apply bind_raise. }
    eexists _, evs. split; [|split; [|split; [|split]]].
    + unfold download_chunk. by rewrite (try_except_raise _ _ _ _ _ Hrun).
    + simpl. by rewrite Hfs2.
    + simpl. rewrite Hlog2. reflexivity.
    + exact Hnet.
    + rewrite !rev_app_distr, !signalled_app, Hnosig. reflexivity.
Qed.

Lemma download_chunk_outcomes_witness :
  (exists w1,
     download_chunk spec_commands "a.txt" "dl" 1 2 0 Scenario.chunk_served =
       (Ok tt, w1) /\
     fs w1 =
       <["dl/a.txt" := File (Scenario.bs [7; 11; 12; 7])]> Scenario.disk) /\
  (exists w1,
     download_chunk spec_commands "a.txt" "dl" 1 2 0 Scenario.chunk_cut =
       (Ok tt,
        emit (EPrint
                "[CHUNK DOWNLOAD ERROR] Socket connection closed before receiving all data")
          w1) /\
     fs w1 = Scenario.disk /\
     signalled (rev (log w1)) = []).
Proof.
  split.
  - destruct (download_chunk_outcomes spec_commands "a.txt" "dl" 1 2 0
                Scenario.chunk_served (Scenario.answering [11; 12]) []
                (Scenario.bs [7; 7; 7; 7]))
      as (header & first & last & _ & _ & _ & Hlong & _);
      try reflexivity; try lia.
    + vm_compute. discriminate.
    + vm_compute. split; discriminate.
    + vm_compute. discriminate.
    + destruct Hlong as (w1 & evs & Hrun & Hfs & _).
      { vm_compute. discriminate. }
      exists w1. split; [exact Hrun|]. rewrite Hfs. reflexivity.
  - destruct (download_chunk_outcomes spec_commands "a.txt" "dl" 1 2 0
                Scenario.chunk_cut (Scenario.answering [11]) []
                (Scenario.bs [7; 7; 7; 7]))
      as (header & first & last & _ & _ & _ & _ & Hshort);
      try reflexivity; try lia.
    + vm_compute. discriminate.
    + vm_compute. split; discriminate.
    + vm_compute. discriminate.
    + destruct Hshort as (w1 & evs & Hrun & Hfs & Hlog & _ & Hsig).
      { vm_compute. reflexivity. }
      exists w1. split; [exact Hrun|]. split; [exact Hfs|].
      rewrite Hlog. change (log Scenario.chunk_cut) with (@nil event).
      rewrite (app_nil_r [_; _; _; _; _; _; _]). exact Hsig.
Defined.

End one_chunk.

(** ** Negotiations that stop the transfer *)
Section refusals.
Import Py Client.

(** The body of [download_file] up to the reply: the destination is there,
    the server accepts the control connection, takes the request and has a
    piece [b :: p] ready.  What is left is to read the first five bytes of
    the piece as the reply. *)
Lemma download_replied cmd file_name destination chunk_count
    fs0 p ps ss fl lg b rest str header :
  is_Some (fs0 !! destination) ->
  refuses p = None ->
  through (outcomes p) = true ->
  through (tail (outcomes p)) = true ->
  inbox p = Data b rest :: str ->
  struct.pack_BI (REQUEST_DOWNLOAD cmd) (strlen file_name) = Ok header ->
  download_file_body cmd file_name destination chunk_count
    (World fs0 (p :: ps) ss fl lg) =
  finally
    ('(file_exists, file_size) ← lift (struct.unpack_boolI (take 5 (b :: rest)));
     if negb file_exists then
       raise (FileNotFoundError "File is not on the server")
     else download_transfer cmd file_name destination file_size chunk_count)
    (close (length ss))
    (World fs0 ps
       (ss ++ [Sock true (tail (tail (outcomes p))) (rest_after 5 b rest str)])
       fl
       (ERecv (length ss) 5 :: ESend (length ss) (encode file_name) ::
        ESend (length ss) header :: EConnect (length ss) :: lg)).
Proof.
  intros Hdest Hacc Hs1 Hs2 Hin Hpack.
  unfold download_file_body.
  eapply bind_ok; [reflexivity|]. cbn [fs].
  rewrite bool_decide_eq_true_2 by done. cbn [negb].
  unfold with_socket. eapply bind_ok; [apply socket_run|].
  apply finally_cong.
  eapply bind_ok; [by apply connect_accepted|].
  eapply bind_ok; [by apply send_command_through|].
  eapply bind_ok; [by apply sendall_through|].
  rewrite Hin.
  eapply bind_ok; [apply (recv_data _ _ _ _ _ _ _ _ _ 5)|].
  reflexivity.
Qed.

(** X11: the server answers REQUEST_DOWNLOAD with a flag of zero.  Then
    [download_file] prints that the file is not on the server and returns,
    having made one connection, sent on it the header, which announces the
    number of characters of the name, and the name in UTF-8, read the reply
    and closed; no local file is opened, so a local file of that name keeps
    its content, and no chunk worker is started. *)
Theorem download_of_missing_file cmd file_name destination chunk_count w
    p ps f b3 b2 b1 b0 more str :
  let fd := length (socks w) in
  is_Some (fs w !! destination) ->
  peers w = p :: ps ->
  refuses p = None ->
  through (outcomes p) = true ->
  through (tail (outcomes p)) = true ->
  inbox p = Data f (b3 :: b2 :: b1 :: b0 :: more) :: str ->
  struct.Z_of_byte f = 0 ->
  0 <= REQUEST_DOWNLOAD cmd <= 255 ->
  strlen file_name <= struct.uint32_max ->
  exists header w1,
    struct.pack_BI (REQUEST_DOWNLOAD cmd) (strlen file_name) = Ok header /\
    download_file cmd file_name destination chunk_count w =
      (Ok tt, emit (EPrint "[FILE DOWNLOAD ERROR] File is not on the server") w1) /\
    log w1 =
      [EClose fd; ERecv fd 5; ESend fd (encode file_name); ESend fd header;
       EConnect fd] ++ log w /\
    fs w1 = fs w /\ files w1 = files w /\ peers w1 = ps.
Proof.
  intros fd Hdest Hpeers Hacc Hs1 Hs2 Hin Hf Hcode Hname.
  destruct w as [fs0 pl ss fl lg]. simpl in *. subst pl.
  destruct (pack_BI_fits (REQUEST_DOWNLOAD cmd) (strlen file_name))
    as [header Hpack]; [done | unfold strlen in *; lia |].
  pose proof (download_replied cmd file_name destination chunk_count
                fs0 p ps ss fl lg f (b3 :: b2 :: b1 :: b0 :: more) str header
                Hdest Hacc Hs1 Hs2 Hin Hpack) as Hbody.
  erewrite finally_run in Hbody; [| |apply close_run].
  2:{ eapply bind_ok; [reflexivity|]. cbv beta iota.
      rewrite Hf. reflexivity. }
  match type of Hbody with _ = (_, ?w1) => exists header, w1 end.
  split; [done|]. split; [|by repeat split].
  unfold download_file. by rewrite (try_except_raise _ _ _ _ _ Hbody).
Qed.

Lemma download_of_missing_file_witness :
  exists w1,
    download_file spec_commands Scenario.accented "dl" 4 Scenario.not_there =
      (Ok tt, emit (EPrint "[FILE DOWNLOAD ERROR] File is not on the server") w1) /\
    log w1 =
      [EClose 0; ERecv 0 5;
       ESend 0 (Scenario.bs [195; 169; 46; 116; 120; 116]);
       ESend 0 (Scenario.bs [4; 0; 0; 0; 5]); EConnect 0] /\
    fs w1 = Scenario.disk /\ files w1 = [] /\ peers w1 = [].
Proof.
  destruct (download_of_missing_file spec_commands Scenario.accented "dl" 4
              Scenario.not_there (Scenario.answering [0; 0; 0; 0; 0]) []
              "000"%byte "000"%byte "000"%byte "000"%byte "000"%byte [] [])
    as (header & w1 & Hpack & Hrun & Hlog & Hrest); try reflexivity.
  - by eexists.
  - simpl. lia.
  - vm_compute. discriminate.
  - exists w1. injection Hpack as <-. split; [exact Hrun|].
    split; [exact Hlog | exact Hrest].
Defined.

(** X12: [download_file] reads the reply once.  When the first piece of
    the reply to arrive has fewer than five bytes, the method prints a
    download error and returns, whatever comes after on the stream: no local
    file is opened and no chunk worker is started.  The request that went
    out is the header, with the number of characters of the name, and the
    name in UTF-8. *)
Theorem download_reads_reply_once cmd file_name destination chunk_count w
    p ps b rest str :
  let fd := length (socks w) in
  is_Some (fs w !! destination) ->
  peers w = p :: ps ->
  refuses p = None ->
  through (outcomes p) = true ->
  through (tail (outcomes p)) = true ->
  inbox p = Data b rest :: str ->
  (length rest < 4)%nat ->
  0 <= REQUEST_DOWNLOAD cmd <= 255 ->
  strlen file_name <= struct.uint32_max ->
  exists header w1,
    struct.pack_BI (REQUEST_DOWNLOAD cmd) (strlen file_name) = Ok header /\
    download_file cmd file_name destination chunk_count w =
      (Ok tt,
       emit (EPrint "[FILE DOWNLOAD ERROR] unpack requires a buffer of 5 bytes")
         w1) /\
    log w1 =
      [EClose fd; ERecv fd 5; ESend fd (encode file_name); ESend fd header;
       EConnect fd] ++ log w /\
    fs w1 = fs w /\ files w1 = files w /\ peers w1 = ps.
Proof.
  intros fd Hdest Hpeers Hacc Hs1 Hs2 Hin Hshort Hcode Hname.
  destruct w as [fs0 pl ss fl lg]. simpl in *. subst pl.
  destruct (pack_BI_fits (REQUEST_DOWNLOAD cmd) (strlen file_name))
    as [header Hpack]; [done | unfold strlen in *; lia |].
  pose proof (download_replied cmd file_name destination chunk_count
                fs0 p ps ss fl lg b rest str header
                Hdest Hacc Hs1 Hs2 Hin Hpack) as Hbody.
  erewrite finally_run in Hbody; [| |apply close_run].
  2:{ apply bind_raise.
      destruct rest as [|b3 [|b2 [|b1 [|b0 more]]]]; simpl in Hshort;
        try lia; reflexivity. }
  match type of Hbody with _ = (_, ?w1) => exists header, w1 end.
  split; [done|]. split; [|by repeat split].
  unfold download_file. by rewrite (try_except_raise _ _ _ _ _ Hbody).
Qed.

Lemma download_reads_reply_once_witness :
  exists header w1,
    struct.pack_BI 4 5 = Ok header /\
    download_file spec_commands "a.txt" "dl" 4 Scenario.in_two_pieces =
      (Ok tt,
       emit (EPrint "[FILE DOWNLOAD ERROR] unpack requires a buffer of 5 bytes")
         w1) /\
    log w1 =
      [EClose 0; ERecv 0 5; ESend 0 (encode "a.txt"); ESend 0 header;
       EConnect 0] /\
    fs w1 = Scenario.disk /\ files w1 = [] /\ peers w1 = [].
Proof.
  apply (download_reads_reply_once spec_commands "a.txt" "dl" 4
           Scenario.in_two_pieces
           (Peer None []
              [Data "001"%byte ["000"%byte];
               Data "000"%byte (Scenario.bs [0; 10])]) []
           "001"%byte ["000"%byte]
           [Data "000"%byte (Scenario.bs [0; 10])]);
    try reflexivity.
  - by eexists.
  - simpl. lia.
  - simpl. lia.
  - vm_compute. discriminate.
Defined.

End refusals.

(** ** Uploads that announce a file and send none of it *)
Section upload_negotiation.
Import Py Client.

(** The body of [upload_file] up to the answer: the server accepts the
    control connection, takes the request and answers with a zero byte.
    What is left is to look at the local file. *)
Lemma upload_accepted cmd path chunk_count fs0 p ps ss fl lg b rest str
    header :
  refuses p = None ->
  through (outcomes p) = true ->
  through (tail (outcomes p)) = true ->
  inbox p = Data b rest :: str ->
  struct.Z_of_byte b = 0 ->
  struct.pack_BI (REQUEST_UPLOAD cmd) (len (encode (basename path))) =
    Ok header ->
  upload_file_body cmd path chunk_count (World fs0 (p :: ps) ss fl lg) =
  finally
    (file_size ← getsize path;
     send_int (length ss) file_size;;
     chunk_size ← lift (Planner.floordiv file_size chunk_count);
     upload_chunks cmd path file_size chunk_count chunk_size;;
     join_all)
    (close (length ss))
    (World fs0 ps
       (ss ++ [Sock true (tail (tail (outcomes p))) (rest_after 1 b rest str)])
       fl
       (ERecv (length ss) 1 :: ESend (length ss) (encode (basename path)) ::
        ESend (length ss) header :: EConnect (length ss) :: lg)).
Proof.
  intros Hacc Hs1 Hs2 Hin Hb Hpack.
  unfold upload_file_body, with_socket.
  eapply bind_ok; [apply socket_run|].
  apply finally_cong.
  eapply bind_ok; [by apply connect_accepted|]. cbv beta zeta.
  eapply bind_ok; [by apply send_command_through|].
  eapply bind_ok; [by apply sendall_through|].
  rewrite Hin.
  eapply bind_ok; [apply recv_bool_answer|].
  rewrite Hb. reflexivity.
Qed.

Lemma upload_no_chunks cmd path file_size chunk_count chunk_size w :
  chunk_count <= 0 ->
  upload_chunks cmd path file_size chunk_count chunk_size w = (Ok tt, w).
Proof.
  intros Hn. unfold upload_chunks, Planner.range, seqZ.
  by rewrite Z2Nat.nonpos by done.
Qed.




(** X14: with a chunk count that is not positive, [upload_file] announces
    the file and uploads nothing.  The server agrees and is sent the size;
    with [chunk_count = 0] the division then fails and is reported, with a
    negative count the loop has no rounds and the method returns as after a
    complete upload.  Either way no chunk connection is made. *)
Theorem upload_without_chunks cmd path chunk_count w p ps b rest str c :
  let fd := length (socks w) in
  let name := encode (basename path) in
  peers w = p :: ps ->
  refuses p = None ->
  all_through 3 (outcomes p) = true ->
  inbox p = Data b rest :: str ->
  struct.Z_of_byte b = 0 ->
  fs w !! path = Some (File c) ->
  len c <= struct.uint32_max ->
  chunk_count <= 0 ->
  0 <= REQUEST_UPLOAD cmd <= 255 ->
  len name <= struct.uint32_max ->
  exists header size w1,
    struct.pack_BI (REQUEST_UPLOAD cmd) (len name) = Ok header /\
    struct.pack_I (len c) = Ok size /\
    upload_file cmd path chunk_count w =
      (Ok tt,
       if bool_decide (chunk_count = 0) then
         emit (EPrint
                 "[FILE UPLOAD ERROR]: integer division or modulo by zero") w1
       else w1) /\
    log w1 =
      [EClose fd; ESend fd size; ERecv fd 1; ESend fd name; ESend fd header;
       EConnect fd] ++ log w /\
    fs w1 = fs w /\ files w1 = files w /\ peers w1 = ps.
Proof.
  intros fd name Hpeers Hacc Hsend Hin Hb Hc Hsize Hn Hcode Hname.
  destruct w as [fs0 pl ss fl lg]. simpl in Hpeers, Hc, fd |- *. subst pl.
  apply all_through_S in Hsend as [Hs1 Hsend].
  apply all_through_S in Hsend as [Hs2 Hsend].
  apply all_through_S in Hsend as [Hs3 _].
  destruct (pack_BI_fits (REQUEST_UPLOAD cmd) (len name)) as [header Hpack];
    [done | unfold name, len in *; lia |].
  assert (Hfits : 0 <= len c <= struct.uint32_max) by (unfold len in *; lia).
  pose proof (pack_I_fits (len c) Hfits) as Hpacked.
  pose proof (upload_accepted cmd path chunk_count fs0 p ps ss fl lg
                b rest str header Hacc Hs1 Hs2 Hin Hb Hpack) as Hbody.
  assert (Hsz : forall w0, fs w0 = fs0 -> getsize path w0 = (Ok (len c), w0)).
  { intros w0 Hw0. unfold getsize. by rewrite Hw0, Hc. }
  destruct (decide (chunk_count = 0)) as [->|Hnz].
  - erewrite finally_run in Hbody; [| |apply close_run].
    2:{ eapply bind_ok; [by apply Hsz|].
        eapply bind_ok; [by eapply send_int_through|].
        apply bind_raise. reflexivity. }
    match type of Hbody with _ = (_, ?w1) => eexists header, _, w1 end.
    split; [done|]. split; [exact Hpacked|]. split; [|by repeat split].
    unfold upload_file. by rewrite (try_except_raise _ _ _ _ _ Hbody).
  - erewrite finally_run in Hbody; [| |apply close_run].
    2:{ eapply bind_ok; [by apply Hsz|].
        eapply bind_ok; [by eapply send_int_through|].
        eapply bind_ok; [by apply floordiv_run|].
        eapply bind_ok; [by apply upload_no_chunks|].
        reflexivity. }
    match type of Hbody with _ = (_, ?w1) => eexists header, _, w1 end.
    split; [done|]. split; [exact Hpacked|]. split; [|by repeat split].
    rewrite bool_decide_eq_false_2 by done.
    unfold upload_file. by rewrite (try_except_ok _ _ _ _ _ Hbody).
Qed.

Lemma upload_without_chunks_witness :
  exists header size w1,
    struct.pack_BI 2 5 = Ok header /\
    struct.pack_I 3 = Ok size /\
    upload_file spec_commands "data/a.txt" (-2)
      (Scenario.start [Scenario.answering [0]]) = (Ok tt, w1) /\
    log w1 =
      [EClose 0; ESend 0 size; ERecv 0 1; ESend 0 (encode "a.txt");
       ESend 0 header; EConnect 0] /\
    fs w1 = Scenario.disk /\ files w1 = [] /\ peers w1 = [].
Proof.
  apply (upload_without_chunks spec_commands "data/a.txt" (-2)
           (Scenario.start [Scenario.answering [0]]) (Scenario.answering [0])
           [] "000"%byte [] [] (Scenario.bs [1; 2; 3])); try reflexivity.
  - vm_compute. discriminate.
  - lia.
  - simpl. lia.
  - vm_compute. discriminate.
Defined.

End upload_negotiation.

(** ** Chunk workers and a local file that is not there *)
Section local_file_missing.
Import Py Client.



End local_file_missing.

(** ** The ranges the two methods hand to their workers *)
Section plans.
Import Planner Py Client.

Lemma bind_ext {A B} (m : M A) (k k' : A -> M B) w :
  (forall a w', k a w' = k' a w') -> (m ≫= k) w = (m ≫= k') w.
Proof.
  intros Hk. unfold mbind, M_bind, bind.
  destruct (m w) as [[a|e] w1]; [apply Hk | done].
Qed.

Lemma for_each_ext {A} (xs : list A) (body body' : A -> M unit) :
  (forall x, body x = body' x) -> for_each xs body = for_each xs body'.
Proof.
  intros Hbody. induction xs as [|x xs IH]; [done|].
  cbn [for_each]. by rewrite Hbody, IH.
Qed.

(** [upload_file] once the server has agreed, on a local file that holds
    [c]: the size goes out and the workers are started. *)
Lemma upload_file_starts_chunks cmd path chunk_count fs0 p ps ss fl lg b more
    rem header c :
  chunk_count <> 0 ->
  fs0 !! path = Some (File c) ->
  refuses p = None ->
  through (outcomes p) = true ->
  through (tail (outcomes p)) = true ->
  inbox p = Data b more :: rem ->
  struct.Z_of_byte b = 0 ->
  struct.pack_BI (REQUEST_UPLOAD cmd) (len (encode (basename path))) =
    Ok header ->
  upload_file_body cmd path chunk_count (World fs0 (p :: ps) ss fl lg) =
  finally
    (send_int (length ss) (len c);;
     upload_chunks cmd path (len c) chunk_count (len c / chunk_count);;
     join_all)
    (close (length ss))
    (World fs0 ps
       (ss ++ [Sock true (tail (tail (outcomes p))) (rest_after 1 b more rem)])
       fl
       (ERecv (length ss) 1 :: ESend (length ss) (encode (basename path)) ::
        ESend (length ss) header :: EConnect (length ss) :: lg)).
Proof.
  intros Hn Hc Hacc Hs1 Hs2 Hin Hb Hpack.
  rewrite (upload_accepted cmd path chunk_count fs0 p ps ss fl lg b more rem
             header Hacc Hs1 Hs2 Hin Hb Hpack).
  apply finally_cong.
  eapply bind_ok; [unfold getsize; cbn [fs]; by rewrite Hc|].
  apply bind_ext. intros [] w'.
  eapply bind_ok; [by apply floordiv_run|]. reflexivity.
Qed.

(** [download_file] once the server has said the file is there and how
    long it is: the destination is made and the workers are started. *)
Lemma download_file_starts_chunks cmd file_name destination chunk_count
    fs0 p ps ss fl lg f b3 b2 b1 b0 more rem header :
  chunk_count <> 0 ->
  is_Some (fs0 !! destination) ->
  refuses p = None ->
  through (outcomes p) = true ->
  through (tail (outcomes p)) = true ->
  inbox p = Data f (b3 :: b2 :: b1 :: b0 :: more) :: rem ->
  struct.Z_of_byte f <> 0 ->
  struct.pack_BI (REQUEST_DOWNLOAD cmd) (strlen file_name) = Ok header ->
  let file_size := struct.be32 b3 b2 b1 b0 in
  download_file_body cmd file_name destination chunk_count
    (World fs0 (p :: ps) ss fl lg) =
  finally
    (preallocate (join destination file_name) file_size;;
     download_chunks cmd file_name destination file_size chunk_count
       (file_size / chunk_count);;
     join_all)
    (close (length ss))
    (World fs0 ps
       (ss ++ [Sock true (tail (tail (outcomes p)))
                 (rest_after 5 f (b3 :: b2 :: b1 :: b0 :: more) rem)])
       fl
       (ERecv (length ss) 5 :: ESend (length ss) (encode file_name) ::
        ESend (length ss) header :: EConnect (length ss) :: lg)).
Proof.
  intros Hn Hdest Hacc Hs1 Hs2 Hin Hf Hpack file_size.
  rewrite (download_negotiated cmd file_name destination chunk_count
             fs0 p ps ss fl lg f b3 b2 b1 b0 more rem header
             Hdest Hacc Hs1 Hs2 Hin Hf Hpack).
  apply finally_cong. unfold download_transfer.
  eapply bind_ok; [by apply floordiv_run|]. reflexivity.
Qed.

(** No file can be given the length [0] by a byte written at offset [-1]:
    the preallocation of an empty file raises, in [open] or in [seek]. *)
Lemma preallocate_empty_fails path : fails (preallocate path 0).
Proof.
  intros w. unfold preallocate, with_open.
  unfold mbind, M_bind, bind.
  destruct (open path WB w) as [[h|e] w1] eqn:Hopen; [|by eexists _, _].
  pose proof (open_handle _ _ _ _ _ Hopen) as Hh.
  unfold finally, seek. simpl. rewrite Hh. simpl.
  by eexists _, _.
Qed.

(** The ranges of a file of [file_size >= 0] bytes in [chunk_count >= 1]
    chunks: as many as the chunks, ordered, disjoint, covering the offsets
    of the file and no other, the last one ending with the file. *)
Lemma ranges_tile file_size chunk_count :
  0 <= file_size -> 1 <= chunk_count ->
  let rs := ranges file_size chunk_count in
  Z.of_nat (length rs) = chunk_count /\
  (forall (i j : nat) a b,
     (i < j)%nat -> rs !! i = Some a -> rs !! j = Some b ->
     a.1 <= b.1 /\ a.2 < b.1) /\
  (forall (i j : nat) a b x,
     i <> j -> rs !! i = Some a -> rs !! j = Some b ->
     covers a x -> ~ covers b x) /\
  (forall x, (exists r, r ∈ rs /\ covers r x) <-> 0 <= x <= file_size - 1) /\
  (exists start_byte, last rs = Some (start_byte, file_size - 1)).
Proof.
  intros HS HN rs.
  destruct (chunk_size_bounds file_size chunk_count) as [Hcs Hle]; [lia..|].
  assert (Hbefore : forall (i j : nat) a b,
    (i < j)%nat -> rs !! i = Some a -> rs !! j = Some b -> a.2 < b.1).
  { intros i j a b Hij Ha Hb.
    apply ranges_lookup_Some in Ha as [Hi ->].
    apply ranges_lookup_Some in Hb as [Hj ->].
    apply chunk_range_before; lia. }
  split; [apply ranges_length; lia|].
  split; [|split; [|split]].
  - intros i j a b Hij Ha Hb. split; [|by eapply Hbefore].
    apply ranges_lookup_Some in Ha as [Hi ->].
    apply ranges_lookup_Some in Hb as [Hj ->].
    unfold chunk_range. simpl. nia.
  - intros i j a b x Hne Ha Hb [Ha1 Ha2] [Hb1 Hb2].
    destruct (decide (i < j)%nat) as [Hlt|Hge].
    + pose proof (Hbefore i j a b Hlt Ha Hb). lia.
    + assert (Hlt : (j < i)%nat) by lia.
      pose proof (Hbefore j i b a Hlt Hb Ha). lia.
  - intros x. split.
    + intros (r & Hr & Hx1 & Hx2).
      apply list_elem_of_lookup in Hr as [i Hi].
      apply ranges_lookup_Some in Hi as [Hi ->].
      destruct (chunk_range_inside file_size chunk_count (Z.of_nat i))
        as [H1 H2]; [lia..|]. lia.
    + intros Hx.
      set (cs := file_size / chunk_count) in *.
      set (i := if bool_decide (0 < cs /\ x / cs < chunk_count - 1)
                then x / cs else chunk_count - 1).
      assert (Hi : 0 <= i < chunk_count).
      { unfold i. case_bool_decide as Hc; [|lia].
        destruct Hc as [Hpos Hq]. split; [apply Z.div_pos; lia | lia]. }
      exists (chunk_range file_size chunk_count cs i). split.
      * apply list_elem_of_lookup. exists (Z.to_nat i).
        unfold rs. rewrite ranges_lookup by lia.
        by rewrite Z2Nat.id by lia.
      * unfold covers, chunk_range, i. simpl.
        case_bool_decide as Hc.
        -- destruct Hc as [Hpos Hq].
           rewrite bool_decide_eq_false_2 by lia.
           pose proof (Z.div_mod x cs ltac:(lia)).
           pose proof (Z.mod_pos_bound x cs Hpos). nia.
        -- rewrite bool_decide_eq_true_2 by done.
           split; [|lia].
           destruct (decide (0 < cs)) as [Hpos|Hz]; [|nia].
           assert (chunk_count - 1 <= x / cs) by (apply Z.nlt_ge; tauto).
           pose proof (Z.div_mod x cs ltac:(lia)).
           pose proof (Z.mod_pos_bound x cs Hpos). nia.
  - exists ((chunk_count - 1) * (file_size / chunk_count)).
    rewrite last_lookup.
    assert (Hlen : length rs = Z.to_nat chunk_count).
    { pose proof (ranges_length file_size chunk_count). unfold rs. lia. }
    rewrite Hlen. unfold rs. rewrite ranges_lookup by lia.
    replace (Z.of_nat (Nat.pred (Z.to_nat chunk_count)))
      with (chunk_count - 1) by lia.
    unfold chunk_range. by rewrite bool_decide_eq_true_2 by lia.
Qed.

(** C1: [upload_file], once the server has agreed, and [download_file], once
    the server has said the file is there, start their workers on the
    ranges [rs] of the size they have (the size of the local file, the size
    in the reply) and of their [chunk_count], in order, one worker for each
    range.  For every size [file_size >= 0] and every [chunk_count >= 1]
    these ranges are as many as the chunks; they come ordered by start
    offset; no offset lies in two of them (an earlier range even ends
    before a later one starts); the offsets they hold together are exactly
    those from [0] to [file_size - 1], none when the file is empty; and the
    last range ends at [file_size - 1].  With [file_size = 0] the download
    does not come to its ranges: the preallocation raises before. *)
Theorem ranges_partition file_size chunk_count :
  0 <= file_size -> 1 <= chunk_count ->
  let rs := ranges file_size chunk_count in
  Z.of_nat (length rs) = chunk_count /\
  (forall (i j : nat) a b,
     (i < j)%nat -> rs !! i = Some a -> rs !! j = Some b ->
     a.1 <= b.1 /\ a.2 < b.1) /\
  (forall (i j : nat) a b x,
     i <> j -> rs !! i = Some a -> rs !! j = Some b ->
     covers a x -> ~ covers b x) /\
  (forall x, (exists r, r ∈ rs /\ covers r x) <-> 0 <= x <= file_size - 1) /\
  (exists start_byte, last rs = Some (start_byte, file_size - 1)) /\
  (forall cmd path c w p ps b more rem header,
     let fd := length (socks w) in
     let name := encode (basename path) in
     fs w !! path = Some (File c) ->
     len c = file_size ->
     peers w = p :: ps ->
     refuses p = None ->
     through (outcomes p) = true ->
     through (tail (outcomes p)) = true ->
     inbox p = Data b more :: rem ->
     struct.Z_of_byte b = 0 ->
     struct.pack_BI (REQUEST_UPLOAD cmd) (len name) = Ok header ->
     upload_file_body cmd path chunk_count w =
     finally
       (send_int fd file_size;;
        for_each (zip rs (range chunk_count))
          (fun '(start_byte, end_byte, i) =>
             start_thread (upload_chunk cmd path start_byte end_byte i));;
        join_all)
       (close fd)
       (World (fs w) ps
          (socks w ++
           [Sock true (tail (tail (outcomes p))) (rest_after 1 b more rem)])
          (files w)
          ([ERecv fd 1; ESend fd name; ESend fd header; EConnect fd] ++
           log w))) /\
  (forall cmd file_name destination w p ps f b3 b2 b1 b0 more rem header,
     let fd := length (socks w) in
     is_Some (fs w !! destination) ->
     struct.be32 b3 b2 b1 b0 = file_size ->
     peers w = p :: ps ->
     refuses p = None ->
     through (outcomes p) = true ->
     through (tail (outcomes p)) = true ->
     inbox p = Data f (b3 :: b2 :: b1 :: b0 :: more) :: rem ->
     struct.Z_of_byte f <> 0 ->
     struct.pack_BI (REQUEST_DOWNLOAD cmd) (strlen file_name) = Ok header ->
     download_file_body cmd file_name destination chunk_count w =
     finally
       (preallocate (join destination file_name) file_size;;
        for_each (zip rs (range chunk_count))
          (fun '(start_byte, end_byte, i) =>
             start_thread
               (download_chunk cmd file_name destination start_byte end_byte
                  i));;
        join_all)
       (close fd)
       (World (fs w) ps
          (socks w ++
           [Sock true (tail (tail (outcomes p)))
              (rest_after 5 f (b3 :: b2 :: b1 :: b0 :: more) rem)])
          (files w)
          ([ERecv fd 5; ESend fd (encode file_name); ESend fd header;
            EConnect fd] ++ log w))) /\
  (file_size = 0 -> forall path, fails (preallocate path file_size)).
Proof.
  intros HS HN rs.
  destruct (ranges_tile file_size chunk_count HS HN)
    as (Hlen & Hordered & Hdisjoint & Hcover & Hlast).
  do 5 (split; [assumption|]). split; [|split].
  - intros cmd path c w p ps b more rem header fd name Hc Hsize Hpeers Hacc
      Hs1 Hs2 Hin Hb Hpack.
    destruct w as [fs0 pl ss fl lg]. cbn [fs peers socks files log] in *.
    subst pl file_size.
    rewrite (upload_file_starts_chunks cmd path chunk_count fs0 p ps ss fl lg
               b more rem header c) by (done || lia).
    by rewrite upload_chunks_ranges.
  - intros cmd file_name destination w p ps f b3 b2 b1 b0 more rem header fd
      Hdest Hsize Hpeers Hacc Hs1 Hs2 Hin Hf Hpack.
    destruct w as [fs0 pl ss fl lg]. cbn [fs peers socks files log] in *.
    subst pl file_size.
    rewrite (download_file_starts_chunks cmd file_name destination
               chunk_count fs0 p ps ss fl lg f b3 b2 b1 b0 more rem header)
      by (done || lia).
    by rewrite download_chunks_ranges.
  - intros -> path. apply preallocate_empty_fails.
Qed.

Lemma ranges_partition_witness :
  let rs := ranges 3 4 in
  Z.of_nat (length rs) = 4 /\
  rs = [(0, -1); (0, -1); (0, -1); (0, 2)] /\
  (forall x, (exists r, r ∈ rs /\ covers r x) <-> 0 <= x <= 3 - 1) /\
  (exists start_byte, last rs = Some (start_byte, 3 - 1)) /\
  upload_file_body spec_commands "data/a.txt" 4 Scenario.small_upload =
    finally
      (send_int 0 3;;
       for_each (zip rs (range 4))
         (fun '(start_byte, end_byte, i) =>
            start_thread
              (upload_chunk spec_commands "data/a.txt" start_byte end_byte i));;
       join_all)
      (close 0)
      (World Scenario.disk
         [Scenario.answering []; Scenario.answering []; Scenario.answering [];
          Scenario.answering []]
         [Sock true [] []] []
         [ERecv 0 1; ESend 0 (encode "a.txt");
          ESend 0 (Scenario.bs [2; 0; 0; 0; 5]); EConnect 0]).
Proof.
  destruct (ranges_partition 3 4) as (Hlen & _ & _ & Hcover & Hlast & Hup & _);
    [lia | lia |].
  split; [exact Hlen|]. split; [reflexivity|]. split; [exact Hcover|].
  split; [exact Hlast|].
  apply (Hup spec_commands "data/a.txt" (Scenario.bs [1; 2; 3])
           Scenario.small_upload (Scenario.answering [0])
           [Scenario.answering []; Scenario.answering []; Scenario.answering [];
            Scenario.answering []]
           "000"%byte [] [] (Scenario.bs [2; 0; 0; 0; 5])); reflexivity.
Defined.

(** C2: with [base = file_size // chunk_count], the worker of index [i]
    that [upload_file] and [download_file] start is given the range
    [[i * base, (i + 1) * base - 1]] when [i] is not the last index and
    [[(chunk_count - 1) * base, file_size - 1]] when it is; these are the
    entries of [ranges file_size chunk_count], and ten bytes in four chunks
    give [0,1], [2,3], [4,5], [6,9]. *)
Theorem ranges_formula file_size chunk_count :
  1 <= file_size -> 1 <= chunk_count ->
  let base := file_size / chunk_count in
  let rs := ranges file_size chunk_count in
  let first (i : Z) := i * base in
  let last (i : Z) :=
    if bool_decide (i = chunk_count - 1) then file_size - 1
    else (i + 1) * base - 1 in
  floordiv file_size chunk_count = Ok base /\
  (forall i : nat,
     Z.of_nat i < chunk_count - 1 ->
     rs !! i = Some (Z.of_nat i * base, (Z.of_nat i + 1) * base - 1)) /\
  rs !! Z.to_nat (chunk_count - 1) =
    Some ((chunk_count - 1) * base, file_size - 1) /\
  ranges 10 4 = [(0, 1); (2, 3); (4, 5); (6, 9)] /\
  (forall cmd path c w p ps b more rem header,
     let fd := length (socks w) in
     let name := encode (basename path) in
     fs w !! path = Some (File c) ->
     len c = file_size ->
     peers w = p :: ps ->
     refuses p = None ->
     through (outcomes p) = true ->
     through (tail (outcomes p)) = true ->
     inbox p = Data b more :: rem ->
     struct.Z_of_byte b = 0 ->
     struct.pack_BI (REQUEST_UPLOAD cmd) (len name) = Ok header ->
     upload_file_body cmd path chunk_count w =
     finally
       (send_int fd file_size;;
        for_each (range chunk_count)
          (fun i => start_thread (upload_chunk cmd path (first i) (last i) i));;
        join_all)
       (close fd)
       (World (fs w) ps
          (socks w ++
           [Sock true (tail (tail (outcomes p))) (rest_after 1 b more rem)])
          (files w)
          ([ERecv fd 1; ESend fd name; ESend fd header; EConnect fd] ++
           log w))) /\
  (forall cmd file_name destination w p ps f b3 b2 b1 b0 more rem header,
     let fd := length (socks w) in
     is_Some (fs w !! destination) ->
     struct.be32 b3 b2 b1 b0 = file_size ->
     peers w = p :: ps ->
     refuses p = None ->
     through (outcomes p) = true ->
     through (tail (outcomes p)) = true ->
     inbox p = Data f (b3 :: b2 :: b1 :: b0 :: more) :: rem ->
     struct.Z_of_byte f <> 0 ->
     struct.pack_BI (REQUEST_DOWNLOAD cmd) (strlen file_name) = Ok header ->
     download_file_body cmd file_name destination chunk_count w =
     finally
       (preallocate (join destination file_name) file_size;;
        for_each (range chunk_count)
          (fun i =>
             start_thread
               (download_chunk cmd file_name destination (first i) (last i)
                  i));;
        join_all)
       (close fd)
       (World (fs w) ps
          (socks w ++
           [Sock true (tail (tail (outcomes p)))
              (rest_after 5 f (b3 :: b2 :: b1 :: b0 :: more) rem)])
          (files w)
          ([ERecv fd 5; ESend fd (encode file_name); ESend fd header;
            EConnect fd] ++ log w))).
Proof.
  intros HS HN base rs first last.
  assert (Hrange : forall i,
    chunk_range file_size chunk_count base i = (first i, last i)).
  { intros i. unfold chunk_range, first, last.
    case_bool_decide; f_equal; lia. }
  split; [|split; [|split; [|split; [|split]]]].
  - unfold floordiv. by rewrite bool_decide_eq_false_2 by lia.
  - intros i Hi. unfold rs. rewrite ranges_lookup by lia.
    fold base. rewrite Hrange. unfold first, last.
    by rewrite bool_decide_eq_false_2 by lia.
  - unfold rs. rewrite ranges_lookup by lia.
    rewrite Z2Nat.id by lia. fold base. rewrite Hrange. unfold first, last.
    by rewrite bool_decide_eq_true_2 by lia.
  - reflexivity.
  - intros cmd path c w p ps b more rem header fd name Hc Hsize Hpeers Hacc
      Hs1 Hs2 Hin Hb Hpack.
    destruct w as [fs0 pl ss fl lg]. cbn [fs peers socks files log] in *.
    subst pl.
    rewrite (upload_file_starts_chunks cmd path chunk_count fs0 p ps ss fl lg
               b more rem header c) by (done || lia).
    rewrite Hsize. fold base. unfold upload_chunks.
    rewrite (for_each_ext (range chunk_count) _
               (fun i =>
                  start_thread (upload_chunk cmd path (first i) (last i) i)));
      [reflexivity|].
    intros i. by rewrite Hrange.
  - intros cmd file_name destination w p ps f b3 b2 b1 b0 more rem header fd
      Hdest Hsize Hpeers Hacc Hs1 Hs2 Hin Hf Hpack.
    destruct w as [fs0 pl ss fl lg]. cbn [fs peers socks files log] in *.
    subst pl.
    rewrite (download_file_starts_chunks cmd file_name destination
               chunk_count fs0 p ps ss fl lg f b3 b2 b1 b0 more rem header)
      by (done || lia).
    cbv zeta. rewrite Hsize. fold base. unfold download_chunks.
    rewrite (for_each_ext (range chunk_count) _
               (fun i =>
                  start_thread
                    (download_chunk cmd file_name destination (first i)
                       (last i) i)));
      [reflexivity|].
    intros i. by rewrite Hrange.
Qed.

Lemma ranges_formula_witness :
  floordiv 10 4 = Ok 2 /\
  (forall i : nat,
     Z.of_nat i < 4 - 1 ->
     ranges 10 4 !! i = Some (Z.of_nat i * 2, (Z.of_nat i + 1) * 2 - 1)) /\
  ranges 10 4 !! 3%nat = Some ((4 - 1) * 2, 10 - 1) /\
  ranges 10 4 = [(0, 1); (2, 3); (4, 5); (6, 9)] /\
  download_file_body spec_commands "a.txt" "dl" 4 Scenario.partial_download =
    finally
      (preallocate "dl/a.txt" 10;;
       for_each [0; 1; 2; 3]
         (fun i =>
            start_thread
              (download_chunk spec_commands "a.txt" "dl" (i * 2)
                 (if bool_decide (i = 4 - 1) then 10 - 1 else (i + 1) * 2 - 1)
                 i));;
       join_all)
      (close 0)
      (World Scenario.disk
         [Scenario.answering [11; 12]; Scenario.answering [13; 14];
          Scenario.answering [15]; Scenario.answering [17; 18; 19; 20]]
         [Sock true [] []] []
         [ERecv 0 5; ESend 0 (encode "a.txt");
          ESend 0 (Scenario.bs [4; 0; 0; 0; 5]); EConnect 0]).
Proof.
  destruct (ranges_formula 10 4) as (Hbase & Hmid & Hend & Hten & _ & Hdown);
    [lia | lia |].
  split; [exact Hbase|]. split; [exact Hmid|]. split; [exact Hend|].
  split; [exact Hten|].
  apply (Hdown spec_commands "a.txt" "dl" Scenario.partial_download
           (Scenario.answering [1; 0; 0; 0; 10])
           [Scenario.answering [11; 12]; Scenario.answering [13; 14];
            Scenario.answering [15]; Scenario.answering [17; 18; 19; 20]]
           "001"%byte "000"%byte "000"%byte "000"%byte "010"%byte [] []
           (Scenario.bs [4; 0; 0; 0; 5])); try reflexivity.
  - by eexists.
  - vm_compute. discriminate.
Defined.

End plans.
